(** * Coles product processor: canonicalisation and deduplication

    A shallow embedding of [src/coles/coles_product_processor.py]
    (class [ColesProductProcessor]) and the properties of its methods:
    [process_products], [remove_duplicates] and
    [find_cross_category_duplicates], then [extract_price_value] and
    [generate_duplicate_report], and the way the scraper's main loop
    chains them.

    Layout: the Python values the processor handles ([Py]), the regular
    expressions it uses ([Re]), the methods themselves
    ([ColesProductProcessor]), then the theorems. *)

From Stdlib Require Import ZArith Floats String Ascii List Lia Permutation.
From stdpp Require Import gmap strings list fin_maps.

Set Warnings "-register-all,-clear-no-such-hyp,-inexact-float".
Open Scope Z_scope.

(** Closes a decidable goal by evaluating its decision. *)
Ltac decided :=
  lazymatch goal with
  | |- ?P => apply (bool_decide_unpack P); vm_compute; exact I
  end.

(** Closes an equation between closed terms by evaluating its two sides. *)
Ltac compute_eq :=
  lazymatch goal with
  | |- ?l = ?r => vm_cast_no_check (@eq_refl _ r)
  end.

(* ===================================================================== *)
(** * Python values                                                       *)
(* ===================================================================== *)

Module Py.

(** The exceptions the processor can let escape. *)
Inductive exn := AttributeError | TypeError | ValueError | OverflowError.

(** A Python computation either returns or raises. *)
Inductive result (A : Type) := Ok (a : A) | Raise (e : exn).
Arguments Ok {A} a.
Arguments Raise {A} e.

Definition bind {A B} (r : result A) (k : A -> result B) : result B :=
  match r with
  | Ok a => k a
  | Raise e => Raise e
  end.

Notation "'let*' x ':=' c 'in' k" := (bind c (fun x => k))
  (at level 10, x name, c at level 100, k at level 200).
Notation "'let*' ' pat ':=' c 'in' k" := (bind c (fun x => let 'pat := x in k))
  (at level 10, pat pattern, c at level 100, k at level 200).

Definition returns {A} (r : result A) : Prop := exists a, r = Ok a.

(** The values a scraped record can hold: the JSON scalars and arrays that
    the browser hands back.  [str] is modelled by [string], one [ascii]
    per code point, which covers the code points below 256; [float] is
    the IEEE double. *)
Inductive pyval :=
| VNone
| VBool (b : bool)
| VInt (z : Z)
| VFloat (f : float)
| VStr (s : string)
| VList (l : list pyval).

(** Python's truth value ([bool(v)]). *)
Definition truthy (v : pyval) : bool :=
  match v with
  | VNone => false
  | VBool b => b
  | VInt z => negb (z =? 0)
  | VFloat f => negb (f =? 0)%float
  | VStr s => negb (String.eqb s "")
  | VList l => match l with [] => false | _ :: _ => true end
  end.

Definition is_none (v : pyval) : bool :=
  match v with VNone => true | _ => false end.

(** ** Strings *)

Definition code (c : ascii) : N := N_of_ascii c.

Definition in_range (lo hi : N) (c : ascii) : bool :=
  ((lo <=? code c) && (code c <=? hi))%N.

(** [str.isspace] on one character; also the class [\s]. *)
Definition isspace (c : ascii) : bool :=
  in_range 9 13 c || in_range 28 32 c || (code c =? 133)%N || (code c =? 160)%N.

(** The class [\d]. *)
Definition isdigit (c : ascii) : bool := in_range 48 57 c.

(** The class [\w]: alphanumerics and the underscore. *)
Definition isword (c : ascii) : bool :=
  in_range 48 57 c || in_range 65 90 c || (code c =? 95)%N || in_range 97 122 c
  || (code c =? 170)%N || in_range 178 179 c || (code c =? 181)%N
  || in_range 185 186 c || in_range 188 190 c || in_range 192 214 c
  || in_range 216 246 c || in_range 248 255 c.

Fixpoint lstrip (s : string) : string :=
  match s with
  | EmptyString => EmptyString
  | String c s' => if isspace c then lstrip s' else s
  end.

Fixpoint rstrip (s : string) : string :=
  match s with
  | EmptyString => EmptyString
  | String c s' =>
      match rstrip s' with
      | EmptyString => if isspace c then EmptyString else String c EmptyString
      | r => String c r
      end
  end.

(** [s.strip()] *)
Definition strip (s : string) : string := rstrip (lstrip s).

(** [s.split(sep)[0]]: the text before the first separator. *)
Fixpoint split_first (sep : ascii) (s : string) : string :=
  match s with
  | EmptyString => EmptyString
  | String c s' => if Ascii.eqb c sep then EmptyString else String c (split_first sep s')
  end.

Definition lower_char (c : ascii) : ascii :=
  if in_range 65 90 c || in_range 192 214 c || in_range 216 222 c
  then ascii_of_N (code c + 32) else c.

(** [s.lower()] *)
Fixpoint lower (s : string) : string :=
  match s with
  | EmptyString => EmptyString
  | String c s' => String (lower_char c) (lower s')
  end.

(** The longest prefix whose characters satisfy [p], and the rest. *)
Fixpoint span (p : ascii -> bool) (s : string) : string * string :=
  match s with
  | EmptyString => (EmptyString, EmptyString)
  | String c s' =>
      if p c then let '(a, b) := span p s' in (String c a, b)
      else (EmptyString, s)
  end.

Definition nonempty (s : string) : bool := negb (String.eqb s "").

(** ** Integers and floats *)

Definition digit_char (d : Z) : ascii := ascii_of_N (48 + Z.to_N d).

(** The decimal digits of [n], most significant first, in front of [acc]. *)
Fixpoint digits_from (fuel : nat) (n : Z) (acc : list ascii) : list ascii :=
  match fuel with
  | O => acc
  | S fuel' =>
      let acc' := digit_char (n mod 10) :: acc in
      if n <? 10 then acc' else digits_from fuel' (n / 10) acc'
  end.

(** The decimal digits of [n], for [0 <= n]; a number has no more
    decimal digits than binary ones. *)
Definition digits (n : Z) : list ascii := digits_from (S (Z.to_nat (Z.log2 n))) n [].

Definition chars_of_Z (z : Z) : list ascii :=
  if z <? 0 then "-"%char :: digits (- z) else digits z.

(** [str(z)] for an [int]: decimal digits, with a leading minus sign. *)
Definition str_of_Z (z : Z) : string := string_of_list_ascii (chars_of_Z z).

(** The double nearest to the rational [n / d] (round half to even), for
    [0 <= n] and [0 < d]; the sign bit is [neg]. *)
Definition sf_of_ratio (neg : bool) (n d : Z) : spec_float :=
  match n, d with
  | Zpos pn, Zpos pd => SFdiv prec emax (S754_finite neg pn 0) (S754_finite false pd 0)
  | _, _ => S754_zero neg
  end.

Definition float_of_ratio (neg : bool) (n d : Z) : float := SF2Prim (sf_of_ratio neg n d).

(** [float(z)] for an [int]: the nearest double, [OverflowError] when the
    int is too large for one. *)
Definition float_of_int (z : Z) : result float :=
  match binary_normalize prec emax z 0 false with
  | S754_infinity _ => Raise OverflowError
  | sf => Ok (SF2Prim sf)
  end.

(** The nearest integer to [n / d], ties to even ([0 <= n], [0 < d]). *)
Definition round_half_even (n d : Z) : Z :=
  let q := n / d in
  match 2 * (n mod d) ?= d with
  | Lt => q
  | Gt => q + 1
  | Eq => if Z.even q then q else q + 1
  end.

(** [round(f, 2)] for a float: the exact value of [f] is rounded to two
    decimals (half to even) and the decimal is read back as a double;
    infinities and nan round to themselves. *)
Definition float_round2 (f : float) : float :=
  match Prim2SF f with
  | S754_finite s m e =>
      let n := if 0 <=? e then Zpos m * 2 ^ e * 100
               else round_half_even (Zpos m * 100) (2 ^ (- e)) in
      float_of_ratio s n 100
  | _ => f
  end.

Definition digit_val (c : ascii) : Z := Z.of_N (code c) - 48.

Fixpoint digits_val (acc : Z) (s : string) : Z :=
  match s with
  | EmptyString => acc
  | String c s' => digits_val (10 * acc + digit_val c) s'
  end.

(** [float(s)] for a string of digits and dots, which is what group 1 of
    the rate pattern holds: digits with at most one dot and at least one
    digit give the nearest double, anything else is a [ValueError]. *)
Definition float_of_decimal (s : string) : result float :=
  let '(ip, r) := span isdigit s in
  match r with
  | EmptyString =>
      if nonempty ip then Ok (float_of_ratio false (digits_val 0 ip) 1)
      else Raise ValueError
  | String c r' =>
      let '(fp, r'') := span isdigit r' in
      if Ascii.eqb c "." && negb (nonempty r'') && (nonempty ip || nonempty fp)
      then Ok (float_of_ratio false (digits_val (digits_val 0 ip) fp)
                 (10 ^ Z.of_nat (String.length fp)))
      else Raise ValueError
  end.

(** *** [repr] of a float: the shortest decimal that reads back as it *)

(** [10 ^ k <= n / d] *)
Definition pow10_le (k n d : Z) : bool :=
  if 0 <=? k then 10 ^ k * d <=? n else d <=? n * 10 ^ (- k).

(** The largest [E] from [E0] on with [10 ^ E <= n / d]. *)
Fixpoint dec_exp_from (fuel : nat) (E n d : Z) : Z :=
  match fuel with
  | O => E
  | S fuel' => if pow10_le (E + 1) n d then dec_exp_from fuel' (E + 1) n d else E
  end.

(** [c * 10 ^ k] read as a double. *)
Definition float_of_dec (c k : Z) : float :=
  if 0 <=? k then float_of_ratio false (c * 10 ^ k) 1
  else float_of_ratio false c (10 ^ (- k)).

(** [c * 10 ^ k] without the trailing zeros of [c]. *)
Fixpoint strip_zeros_from (fuel : nat) (c k : Z) : Z * Z :=
  match fuel with
  | O => (c, k)
  | S fuel' =>
      if (c mod 10 =? 0) && (0 <? c) then strip_zeros_from fuel' (c / 10) (k + 1)
      else (c, k)
  end.

Definition strip_zeros (c k : Z) : Z * Z :=
  strip_zeros_from (S (Z.to_nat (Z.log2 c))) c k.

(** Whether the decimal [c * 10 ^ k] reads back as [x]. *)
Definition reads_as (x : float) (ck : Z * Z) : bool :=
  (float_of_dec ck.1 ck.2 =? x)%float.

(** The [n]-digit decimals on either side of [num / den] (whose decimal
    exponent is [E]): the one that reads back as [x], and the nearer of
    the two when both do (the even one on a tie). *)
Definition candidate (x : float) (num den E : Z) (n : Z) : option (Z * Z) :=
  let k := E - (n - 1) in
  let yn := if 0 <=? k then num else num * 10 ^ (- k) in
  let yd := if 0 <=? k then den * 10 ^ k else den in
  let lo := strip_zeros (yn / yd) k in
  let hi := strip_zeros (yn / yd + 1) k in
  let lo_nearer :=
    match 2 * (yn mod yd) ?= yd with
    | Lt => true
    | Gt => false
    | Eq => Z.even (yn / yd)
    end in
  match reads_as x lo, reads_as x hi with
  | true, true => Some (if lo_nearer then lo else hi)
  | true, false => Some lo
  | false, true => Some hi
  | false, false => None
  end.

(** The first of the candidates of [n], [n + 1], ... digits. *)
Fixpoint shortest (fuel : nat) (x : float) (num den E n : Z) : option (Z * Z) :=
  match fuel with
  | O => None
  | S fuel' =>
      match candidate x num den E n with
      | Some r => Some r
      | None => shortest fuel' x num den E (n + 1)
      end
  end.

(** The exact value [m * 2 ^ e] as a fraction. *)
Definition numerator (m : positive) (e : Z) : Z := if 0 <=? e then Zpos m * 2 ^ e else Zpos m.
Definition denominator (e : Z) : Z := if 0 <=? e then 1 else 2 ^ (- e).

(** The shortest decimal of at most 17 digits that reads back as the
    double [x = m * 2 ^ e]. *)
Definition shortest_decimal (x : float) (m : positive) (e : Z) : option (Z * Z) :=
  let num := numerator m e in
  let den := denominator e in
  shortest 17 x num den (dec_exp_from 640 (-324) num den) 1.

(** The decimal of 17 digits nearest to [m * 2 ^ e].  Seventeen digits
    tell any two doubles apart, so that the search above does not fail
    and this is not used. *)
Definition nearest_decimal (m : positive) (e : Z) : Z * Z :=
  let num := numerator m e in
  let den := denominator e in
  let k := dec_exp_from 640 (-324) num den - 16 in
  strip_zeros
    (round_half_even (if 0 <=? k then num else num * 10 ^ (- k))
                     (if 0 <=? k then den * 10 ^ k else den)) k.

Definition pad2 (l : list ascii) : list ascii :=
  if (length l <? 2)%nat then "0"%char :: l else l.

Definition exponent_chars (e : Z) : list ascii :=
  "e"%char :: (if e <? 0 then "-"%char else "+"%char) :: pad2 (digits (Z.abs e)).

(** The digits [ds] with the decimal point after [decpt] of them, laid
    out as [repr] does: with an exponent when [decpt] is below -3 or
    above 16. *)
Definition layout (ds : list ascii) (decpt : Z) : list ascii :=
  let n := Z.of_nat (length ds) in
  if (decpt <=? -4) || (16 <? decpt) then
    match ds with
    | [] => []
    | [c] => [c]
    | c :: rest => c :: "."%char :: rest
    end ++ exponent_chars (decpt - 1)
  else if decpt <=? 0 then
    "0"%char :: "."%char :: replicate (Z.to_nat (- decpt)) "0"%char ++ ds
  else if n <=? decpt then
    ds ++ replicate (Z.to_nat (decpt - n)) "0"%char ++ ["."%char; "0"%char]
  else take (Z.to_nat decpt) ds ++ "."%char :: drop (Z.to_nat decpt) ds.

Definition float_chars (f : float) : list ascii :=
  match Prim2SF f with
  | S754_nan => list_ascii_of_string "nan"
  | S754_infinity s => list_ascii_of_string (if s then "-inf" else "inf")
  | S754_zero s => list_ascii_of_string (if s then "-0.0" else "0.0")
  | S754_finite s m e =>
      let '(c, k) := match shortest_decimal (abs f) m e with
                     | Some ck => ck
                     | None => nearest_decimal m e
                     end in
      let ds := digits c in
      (if s then ["-"%char] else []) ++ layout ds (Z.of_nat (length ds) + k)
  end.

(** [repr(f)], which is also [str(f)]. *)
Definition float_repr (f : float) : string := string_of_list_ascii (float_chars f).

(** ** [str] and [repr] *)

Definition hex_digit (n : N) : ascii :=
  if (n <? 10)%N then ascii_of_N (48 + n) else ascii_of_N (87 + n).

(** [str.isprintable] on one character. *)
Definition isprintable (c : ascii) : bool :=
  negb (in_range 0 31 c || in_range 127 160 c || (code c =? 173)%N).

Fixpoint contains (c : ascii) (s : string) : bool :=
  match s with
  | EmptyString => false
  | String c' s' => Ascii.eqb c c' || contains c s'
  end.

Definition squote : ascii := ascii_of_N 39.
Definition dquote : ascii := ascii_of_N 34.
Definition backslash : ascii := ascii_of_N 92.

Definition escape_char (q c : ascii) : string :=
  if Ascii.eqb c q || Ascii.eqb c backslash then String backslash (String c EmptyString)
  else if (code c =? 9)%N then String backslash "t"
  else if (code c =? 10)%N then String backslash "n"
  else if (code c =? 13)%N then String backslash "r"
  else if isprintable c then String c EmptyString
  else String backslash (String "x" (String (hex_digit (code c / 16))
         (String (hex_digit (code c mod 16)) EmptyString))).

Fixpoint escape (q : ascii) (s : string) : string :=
  match s with
  | EmptyString => EmptyString
  | String c s' => escape_char q c +:+ escape q s'
  end.

(** [repr(s)] for a [str]: single quotes, unless the text has a single
    quote and no double quote. *)
Definition str_repr (s : string) : string :=
  let q := if contains squote s && negb (contains dquote s) then dquote else squote in
  String q (escape q s) +:+ String q EmptyString.

(** [repr(v)] *)
Fixpoint py_repr (v : pyval) : string :=
  match v with
  | VNone => "None"
  | VBool b => if b then "True" else "False"
  | VInt z => str_of_Z z
  | VFloat f => float_repr f
  | VStr s => str_repr s
  | VList l =>
      "[" +:+ (fix items (l : list pyval) : string :=
                 match l with
                 | [] => EmptyString
                 | x :: l' =>
                     match l' with
                     | [] => py_repr x
                     | _ :: _ => py_repr x +:+ ", " +:+ items l'
                     end
                 end) l +:+ "]"
  end.

(** [str(v)], which is what an f-string field [{v}] renders. *)
Definition py_str (v : pyval) : string :=
  match v with
  | VStr s => s
  | _ => py_repr v
  end.

(** ** Numbers in the save-value rule *)

(** [v == 0] *)
Definition eq_zero (v : pyval) : bool :=
  match v with
  | VBool b => negb b
  | VInt z => z =? 0
  | VFloat f => (f =? 0)%float
  | _ => false
  end.

(** [v > 0]: a [TypeError] on anything but a number. *)
Definition gt_zero (v : pyval) : result bool :=
  match v with
  | VBool b => Ok b
  | VInt z => Ok (0 <? z)
  | VFloat f => Ok (0 <? f)%float
  | _ => Raise TypeError
  end.

Definition is_number (v : pyval) : bool :=
  match v with
  | VBool _ | VInt _ | VFloat _ => true
  | _ => false
  end.

Definition as_int (v : pyval) : option Z :=
  match v with
  | VBool b => Some (Z.b2z b)
  | VInt z => Some z
  | _ => None
  end.

Definition as_float (v : pyval) : result float :=
  match v with
  | VBool b => float_of_int (Z.b2z b)
  | VInt z => float_of_int z
  | VFloat f => Ok f
  | _ => Raise TypeError
  end.

(** [a - b]: exact on ints (a bool counts as 0 or 1), in doubles as soon
    as one side is a float. *)
Definition sub (a b : pyval) : result pyval :=
  if is_number a && is_number b then
    match as_int a, as_int b with
    | Some x, Some y => Ok (VInt (x - y))
    | _, _ =>
        bind (as_float a) (fun x =>
        bind (as_float b) (fun y =>
        Ok (VFloat (x - y)%float)))
    end
  else Raise TypeError.

(** [round(v, 2)]: an int rounds to itself. *)
Definition round2 (v : pyval) : result pyval :=
  match v with
  | VBool b => Ok (VInt (Z.b2z b))
  | VInt z => Ok (VInt z)
  | VFloat f => Ok (VFloat (float_round2 f))
  | _ => Raise TypeError
  end.

(** ** Hashing: the keys of a [set] or [dict] *)

(** Python looks a key up by hash and [==].  Equal numbers are one key
    whatever their type ([1 == 1.0 == True]), so a hashable value is
    sent to a normal form on which [==] is plain equality; nan equals
    nothing, itself included. *)
Inductive hkey :=
| KNone
| KInt (z : Z)
| KFloat (f : spec_float)
| KStr (s : string)
| KNaN.

#[global] Instance spec_float_eq_dec : EqDecision spec_float.
Proof. solve_decision. Defined.

#[global] Instance hkey_eq_dec : EqDecision hkey.
Proof. solve_decision. Defined.

Definition float_key (f : float) : hkey :=
  match Prim2SF f with
  | S754_zero _ => KInt 0
  | S754_nan => KNaN
  | S754_infinity s => KFloat (S754_infinity s)
  | S754_finite s m e =>
      if 0 <=? e then KInt (cond_Zopp s (Zpos m * 2 ^ e))
      else if Zpos m mod 2 ^ (- e) =? 0 then KInt (cond_Zopp s (Zpos m / 2 ^ (- e)))
      else KFloat (S754_finite s m e)
  end.

(** [hash(v)] raises a [TypeError] on a list. *)
Definition hash_key (v : pyval) : result hkey :=
  match v with
  | VNone => Ok KNone
  | VBool b => Ok (KInt (Z.b2z b))
  | VInt z => Ok (KInt z)
  | VFloat f => Ok (float_key f)
  | VStr s => Ok (KStr s)
  | VList _ => Raise TypeError
  end.

Definition key_eqb (a b : hkey) : bool :=
  match a with
  | KNaN => false
  | _ => bool_decide (a = b)
  end.

(** A [set], as the keys added so far. *)
Definition pyset := list hkey.

Definition set_contains (s : pyset) (k : hkey) : bool := existsb (key_eqb k) s.

Definition set_add (s : pyset) (k : hkey) : pyset := k :: s.

#[global] Arguments set_contains : simpl never.
#[global] Arguments set_add : simpl never.

(** [v in s] *)
Definition py_in (v : pyval) (s : pyset) : result bool :=
  bind (hash_key v) (fun k => Ok (set_contains s k)).

(** [s.replace(c, '')] for a single character [c]: every [c] is taken
    out of [s]. *)
Fixpoint remove_char (c : ascii) (s : string) : string :=
  match s with
  | EmptyString => EmptyString
  | String c' s' =>
      if Ascii.eqb c' c then remove_char c s' else String c' (remove_char c s')
  end.

(** The line feed that [join] puts between the lines of a report. *)
Definition newline : string := String (ascii_of_N 10) EmptyString.

End Py.

(* ===================================================================== *)
(** * The regular expressions                                             *)
(* ===================================================================== *)

Module Re.
Import Py.

(** [re.search(r'-(\d+)$', url)], returning group 1.  A match starts at a
    hyphen; the digits after it must run to the end of the text ([$] also
    matches before one final newline).  Digits and [$] cannot overlap, so
    the greedy run of digits is the only one to try. *)
Fixpoint search_url_id (url : string) : option string :=
  match url with
  | EmptyString => None
  | String c rest =>
      if Ascii.eqb c "-" then
        let '(ds, tail) := span isdigit rest in
        if nonempty ds && (String.eqb tail "" || String.eqb tail (String (ascii_of_N 10) ""))
        then Some ds
        else search_url_id rest
      else search_url_id rest
  end.

Definition isratechar (c : ascii) : bool := isdigit c || Ascii.eqb c ".".

(** The pattern after its leading dollar sign:
    [([\d\.]+)\s+per\s+(\w+)].  Each repetition is followed by a
    character outside its class, so only the longest runs can match. *)
Definition match_rate (s : string) : option (string * string) :=
  let '(num, r1) := span isratechar s in
  let '(ws1, r2) := span isspace r1 in
  match r2 with
  | String "p" (String "e" (String "r" r3)) =>
      let '(ws2, r4) := span isspace r3 in
      let '(unit, _) := span isword r4 in
      if nonempty num && nonempty ws1 && nonempty ws2 && nonempty unit
      then Some (num, unit)
      else None
  | _ => None
  end.

(** [re.search(r'\$([\d\.]+)\s+per\s+(\w+)', text)], returning groups 1
    and 2 of the leftmost match. *)
Fixpoint search_rate (text : string) : option (string * string) :=
  match text with
  | EmptyString => None
  | String c rest =>
      if Ascii.eqb c "$" then
        match match_rate rest with
        | Some g => Some g
        | None => search_rate rest
        end
      else search_rate rest
  end.

(** [re.search(r'(\d+\.\d+|\d+)', text)], returning group 1.  A match
    starts at the first digit of the text.  There the first alternative
    is tried first: its greedy run of digits can only be followed by the
    point if it is the whole run, so it matches when the run is followed
    by a point and a digit, and takes the digits after the point too;
    otherwise the second alternative takes the run. *)
Fixpoint search_number (text : string) : option string :=
  match text with
  | EmptyString => None
  | String c rest =>
      if isdigit c then
        let '(ds, tail) := span isdigit text in
        match tail with
        | String "." tail' =>
            let '(fs, _) := span isdigit tail' in
            if nonempty fs then Some (ds +:+ String "." fs) else Some ds
        | _ => Some ds
        end
      else search_number rest
  end.

End Re.

(* ===================================================================== *)
(** * The processor                                                       *)
(* ===================================================================== *)

Module ColesProductProcessor.
Import Py.

(** A product is a [dict] with [str] keys. *)
Abbreviation dict := (gmap string pyval).

(** [d.get(k, dflt)]; [d.get(k)] is [get d k VNone]. *)
Definition get (d : dict) (k : string) (dflt : pyval) : pyval := default dflt (d !! k).

(** ** [process_products] *)

(** Lines 41-46: an id taken from the end of the url when the record has
    none.  [re.search] wants a [str]. *)
Definition derive_id (product : dict) : result dict :=
  if negb (truthy (get product "id" VNone)) && truthy (get product "url" VNone) then
    match get product "url" (VStr "") with
    | VStr url =>
        match Re.search_url_id url with
        | Some digits => Ok (<["id" := VStr digits]> product)
        | None => Ok product
        end
    | _ => Raise TypeError
    end
  else Ok product.

(** Lines 52-56: the text before the first bar, trimmed.  The local
    [unit_price] is returned with the product. *)
Definition clean_unit_price (product : dict) : result (dict * pyval) :=
  let unit_price := get product "unit_price" (VStr "") in
  if truthy unit_price then
    match unit_price with
    | VStr u =>
        let unit_price := VStr (strip (split_first "|" u)) in
        Ok (<["unit_price" := unit_price]> product, unit_price)
    | _ => Raise AttributeError
    end
  else Ok (product, unit_price).

(** Lines 59-69: the rate, when the unit price shows one.  Whatever is
    raised inside the [try] is caught and logged. *)
Definition extract_rate (product : dict) (unit_price : pyval) : dict :=
  if truthy unit_price then
    match unit_price with
    | VStr u =>
        match Re.search_rate u with
        | Some (num, unit) =>
            match float_of_decimal num with
            | Ok rate_value =>
                <["rate_unit" := VStr (lower unit)]>
                  (<["rate_value" := VFloat rate_value]> product)
            | Raise _ => product
            end
        | None => product
        end
    | _ => product
    end
  else product.

(** Lines 72-77 *)
Definition parse_special (product : dict) : result dict :=
  let special_text := get product "special_text" (VStr "") in
  if truthy special_text then
    let product := <["is_on_special" := VBool true]> product in
    match special_text with
    | VStr s => Ok (<["special_text" := VStr (strip s)]> product)
    | _ => Raise AttributeError
    end
  else Ok (<["is_on_special" := VBool false]> product).

(** Line 85: [save_value == 0 and was_price > 0 and current_price > 0],
    evaluated left to right and no further than needed. *)
Definition save_due (product : dict) : result bool :=
  let was_price := get product "was_price_value" (VFloat 0) in
  let current_price := get product "price_value" (VFloat 0) in
  let save_value := get product "save_value" (VFloat 0) in
  if eq_zero save_value then
    let* w := gt_zero was_price in
    if w then gt_zero current_price else Ok false
  else Ok false.

(** Line 86: [round(was_price - current_price, 2)] *)
Definition saving (product : dict) : result pyval :=
  let* d := sub (get product "was_price_value" (VFloat 0))
           (get product "price_value" (VFloat 0)) in
  round2 d.

(** Lines 80-86 *)
Definition derive_save_value (product : dict) : result dict :=
  let* due := save_due product in
  if due then
    let* v := saving product in
    Ok (<["save_value" := v]> product)
  else Ok product.

(** Lines 89-106: the cleaned product, every field defaulted.  [now] is
    what [datetime.now().isoformat()] returns at this record. *)
Definition cleaned (product : dict) (now : string) : result dict :=
  let* title := match get product "title" (VStr "") with
           | VStr t => Ok (VStr (strip t))
           | _ => Raise AttributeError
           end in
  Ok (list_to_map
        [ ("id", get product "id" (VStr ""));
          ("title", title);
          ("price_value", get product "price_value" (VFloat 0));
          ("was_price_value", get product "was_price_value" (VFloat 0));
          ("save_value", get product "save_value" (VFloat 0));
          ("unit_price", get product "unit_price" (VStr ""));
          ("url", get product "url" (VStr ""));
          ("image_url", get product "image_url" (VStr ""));
          ("category", get product "category" (VStr ""));
          ("page", get product "page" (VInt 0));
          ("vendor", VStr "coles");
          ("is_on_special", get product "is_on_special" (VBool false));
          ("special_text", get product "special_text" (VStr ""));
          ("rate_value", get product "rate_value" (VFloat 0));
          ("rate_unit", get product "rate_unit" (VStr ""));
          ("scrapedAt", get product "scrapedAt" (VStr now)) ]).

(** Line 109: the fields whose value is [None] are dropped. *)
Definition drop_none (d : dict) : dict :=
  filter (fun kv : string * pyval => is_none kv.2 = false) d.

(** Lines 41-111: the loop body for a record that has a title.  The
    record is updated in place, so it is returned next to the processed
    product built from it. *)
Definition canonicalize (now : string) (product : dict) : result (dict * dict) :=
  let* product := derive_id product in
  let product := <["vendor" := VStr "coles"]> product in
  let* '(product, unit_price) := clean_unit_price product in
  let product := extract_rate product unit_price in
  let* product := parse_special product in
  let* product := derive_save_value product in
  let* processed_product := cleaned product now in
  Ok (product, drop_none processed_product).

(** Line 38: a record without a title is skipped. *)
Definition rejected (product : dict) : bool := negb (truthy (get product "title" VNone)).

(** One turn of the loop: the record as the turn leaves it, and the
    processed product it appends, if any. *)
Definition process_one (now : string) (product : dict) : result (dict * option dict) :=
  if rejected product then Ok (product, None)
  else
    let* '(product, processed_product) := canonicalize now product in
    Ok (product, Some processed_product).

(** The loop, from record [i] on; [clock i] is the time read at record
    [i].  Returns the input records as the loop leaves them and
    [processed_products]. *)
Fixpoint process_from (clock : nat -> string) (i : nat) (products : list dict)
  : result (list dict * list dict) :=
  match products with
  | [] => Ok ([], [])
  | product :: rest =>
      let* '(product, processed) := process_one (clock i) product in
      let* '(rest, processed_products) := process_from clock (S i) rest in
      Ok (product :: rest,
          match processed with
          | Some processed_product => processed_product :: processed_products
          | None => processed_products
          end)
  end.

Definition process_products (clock : nat -> string) (products : list dict)
  : result (list dict * list dict) :=
  process_from clock 0 products.

(** ** [remove_duplicates] *)

(** [self.product_stats] *)
Record stats := {
  total_before : Z;
  total_after : Z;
  duplicates_removed : Z
}.

(** Line 130: [f"{product.get('title', '')}-{product.get('price_value', 0)}"] *)
Definition pseudo_id (product : dict) : string :=
  py_str (get product "title" (VStr "")) +:+ "-"
    +:+ py_str (get product "price_value" (VInt 0)).

(** The three lists the loop updates. *)
Record dedup_state := {
  seen_ids : pyset;
  unique_products : list dict;
  duplicate_products : list dict
}.

(** Lines 122-135: one turn of the loop. *)
Definition dedup_step (st : dedup_state) (product : dict) : result dedup_state :=
  let product_id := get product "id" (VStr "") in
  let* fresh := if truthy product_id
                then let* found := py_in product_id (seen_ids st) in Ok (negb found)
                else Ok false in
  if fresh then
    let* k := hash_key product_id in
    Ok {| seen_ids := set_add (seen_ids st) k;
          unique_products := unique_products st ++ [product];
          duplicate_products := duplicate_products st |}
  else if truthy product_id then
    Ok {| seen_ids := seen_ids st;
          unique_products := unique_products st;
          duplicate_products := duplicate_products st ++ [product] |}
  else if negb (truthy product_id) then
    let k := KStr (pseudo_id product) in
    if negb (set_contains (seen_ids st) k) then
      Ok {| seen_ids := set_add (seen_ids st) k;
            unique_products := unique_products st ++ [product];
            duplicate_products := duplicate_products st |}
    else
      Ok {| seen_ids := seen_ids st;
            unique_products := unique_products st;
            duplicate_products := duplicate_products st ++ [product] |}
  else Ok st.

Fixpoint dedup_loop (st : dedup_state) (products : list dict) : result dedup_state :=
  match products with
  | [] => Ok st
  | product :: rest =>
      let* st := dedup_step st product in
      dedup_loop st rest
  end.

(** Returns [(unique_products, duplicate_products)] and the new value of
    [self.product_stats]. *)
Definition remove_duplicates (products : list dict)
  : result (list dict * list dict * stats) :=
  let* st := dedup_loop {| seen_ids := []; unique_products := [];
                           duplicate_products := [] |} products in
  let duplicates_removed :=
    Z.of_nat (length products) - Z.of_nat (length (unique_products st)) in
  Ok (unique_products st, duplicate_products st,
      {| total_before := Z.of_nat (length products);
         total_after := Z.of_nat (length (unique_products st));
         duplicates_removed := duplicates_removed |}).

(** ** [find_cross_category_duplicates] *)

(** One entry of [products_by_id]: the id under which the entry was
    created, its key, and the [(category, product)] pairs appended to it. *)
Record group := {
  group_key : hkey;
  group_id : pyval;
  group_products : list (string * dict)
}.

(** [products_by_id[product_id].append(pair)] on a [defaultdict(list)],
    whose entries are kept in the order they were created. *)
Fixpoint group_append (k : hkey) (product_id : pyval) (pair : string * dict)
    (groups : list group) : list group :=
  match groups with
  | [] => [ {| group_key := k; group_id := product_id; group_products := [pair] |} ]
  | g :: groups' =>
      if key_eqb k (group_key g)
      then {| group_key := group_key g; group_id := group_id g;
              group_products := group_products g ++ [pair] |} :: groups'
      else g :: group_append k product_id pair groups'
  end.

(** Lines 177-180 *)
Definition group_product (category : string) (groups : list group) (product : dict)
  : result (list group) :=
  let product_id := get product "id" VNone in
  if truthy product_id then
    let* k := hash_key product_id in
    Ok (group_append k product_id (category, product) groups)
  else Ok groups.

Fixpoint group_category (category : string) (groups : list group) (products : list dict)
  : result (list group) :=
  match products with
  | [] => Ok groups
  | product :: rest =>
      let* groups := group_product category groups product in
      group_category category groups rest
  end.

(** Lines 176-180, over the items of [all_category_products] in order. *)
Fixpoint group_all (groups : list group) (items : list (string * list dict))
  : result (list group) :=
  match items with
  | [] => Ok groups
  | (category, products) :: rest =>
      let* groups := group_category category groups products in
      group_all groups rest
  end.

(** Line 186: [len(set(category for category, _ in products))] *)
Definition category_count (pairs : list (string * dict)) : nat :=
  size (list_to_set (pairs.*1) : gset string).

(** The items of the returned dict, in order: the id and its pairs. *)
Definition find_cross_category_duplicates (all_category_products : list (string * list dict))
  : result (list (pyval * list (string * dict))) :=
  let* products_by_id := group_all [] all_category_products in
  Ok (map (fun g => (group_id g, group_products g))
        (filter (fun g => (1 < category_count (group_products g))%nat) products_by_id)).

(** ** [extract_price_value] *)

(** Lines 17-30.  The [replace] of line 21 is outside the [try], so that
    a value without that method raises; inside it, a [ValueError] or an
    [AttributeError] is passed over and the function returns [0.0]. *)
Definition extract_price_value (price_string : pyval) : result float :=
  if negb (truthy price_string) then Ok 0%float
  else
    match price_string with
    | VStr s =>
        let price_string := remove_char "$" s in
        match Re.search_number price_string with
        | Some number =>
            match float_of_decimal number with
            | Ok value => Ok value
            | Raise ValueError | Raise AttributeError => Ok 0%float
            | Raise e => Raise e
            end
        | None => Ok 0%float
        end
    | _ => Raise AttributeError
    end.

(** ** [generate_duplicate_report] *)

(** [self.product_stats.get(field, 0)]: the dict is empty until
    [remove_duplicates] has run, and holds its three figures after. *)
Definition stat (product_stats : option stats) (field : stats -> Z) : Z :=
  match product_stats with
  | Some st => field st
  | None => 0
  end.

(** Lines 163-167: the lines of the [i]-th duplicate. *)
Definition report_entry (i : nat) (product : dict) : list string :=
  [ str_of_Z (Z.of_nat i) +:+ ". ID: " +:+ py_str (get product "id" (VStr "Unknown"))
      +:+ " - " +:+ py_str (get product "title" (VStr "Unknown"));
    "   Price: $" +:+ py_str (get product "price_value" (VInt 0))
      +:+ ", Category: " +:+ py_str (get product "category" (VStr "N/A")) ]
  ++ (if truthy (get product "is_on_special" VNone)
      then [ "   Special: " +:+ py_str (get product "special_text" (VStr "Yes")) ]
      else [])
  ++ [ "" ].

(** Lines 162-167, [enumerate] counting from [i]. *)
Fixpoint report_entries (i : nat) (duplicate_products : list dict) : list string :=
  match duplicate_products with
  | [] => []
  | product :: rest => report_entry i product ++ report_entries (S i) rest
  end.

(** Lines 150-167: [report_lines].  [now] is what
    [datetime.now().strftime('%Y-%m-%d %H:%M:%S')] returns. *)
Definition report_lines (product_stats : option stats) (now : string)
    (duplicate_products : list dict) (category_name : pyval) : list string :=
  [ "Duplicate Removal Report for Coles " +:+ py_str category_name;
    "Generated on: " +:+ now;
    "";
    "Total products before removal: " +:+ str_of_Z (stat product_stats total_before);
    "Unique products after removal: " +:+ str_of_Z (stat product_stats total_after);
    "Duplicates removed: " +:+ str_of_Z (stat product_stats duplicates_removed);
    "" ]
  ++ match duplicate_products with
     | [] => []
     | _ :: _ => "Removed duplicate products:" :: report_entries 1 duplicate_products
     end.

(** Line 169.  The [timestamp] argument is not used. *)
Definition generate_duplicate_report (product_stats : option stats) (now : string)
    (duplicate_products : list dict) (category_name timestamp : pyval) : string :=
  String.concat newline (report_lines product_stats now duplicate_products category_name).

End ColesProductProcessor.

(* ===================================================================== *)
(** * Derived notions used by the statements                              *)
(* ===================================================================== *)

Module Notions.
Import Py ColesProductProcessor.

(** The number a run of decimal digits writes. *)
Definition value (l : list ascii) : Z :=
  fold_left (fun acc c => 10 * acc + digit_val c) l 0.

(** A character that a decimal number is written with. *)
Definition is_digit (c : ascii) : Prop := exists d, 0 <= d < 10 /\ c = digit_char d.

(** ** Reading a float's text back *)

(** The text before the first [c], and the text after it. *)
Fixpoint break (c : ascii) (l : list ascii) : list ascii * list ascii :=
  match l with
  | [] => ([], [])
  | x :: r =>
      if Ascii.eqb x c then ([], r)
      else let '(a, b) := break c r in (x :: a, b)
  end.

Fixpoint drop_zeros (l : list ascii) : list ascii :=
  match l with
  | [] => []
  | x :: r => if Ascii.eqb x "0" then drop_zeros r else l
  end.

Fixpoint count_zeros (l : list ascii) : nat :=
  match l with
  | [] => O
  | x :: r => if Ascii.eqb x "0" then S (count_zeros r) else O
  end.

(** The digits and the position of the decimal point that [layout]
    wrote. *)
Definition unlayout (s : list ascii) : list ascii * Z :=
  if existsb (Ascii.eqb "e") s then
    let '(mant, ex) := break "e" s in
    let e := match ex with
             | [] => 0
             | x :: r => if Ascii.eqb x "-" then - value r else value r
             end in
    (filter (fun c => c <> "."%char) mant, e + 1)
  else
    let '(ip, fp) := break "." s in
    if decide (ip = ["0"%char]) then (drop_zeros fp, - Z.of_nat (count_zeros fp))
    else if decide (fp = ["0"%char]) then (rev (drop_zeros (rev ip)), Z.of_nat (length ip))
    else (ip ++ fp, Z.of_nat (length ip)).

(** Digits as [layout] is given them: the digits of a positive number
    that does not end in zero. *)
Record significant (ds : list ascii) : Prop := {
  significant_digits : Forall is_digit ds;
  significant_head : exists c l, ds = c :: l /\ c <> "0"%char;
  significant_last : last ds <> Some "0"%char
}.

(** The sign a float's text starts with, and the text after it. *)
Definition unsign (s : list ascii) : bool * list ascii :=
  match s with
  | [] => (false, [])
  | c :: r => if Ascii.eqb c "-" then (true, r) else (false, s)
  end.

(** The sign, the digits and the place of the point that a text holds. *)
Definition parts (s : list ascii) : bool * (list ascii * Z) :=
  let '(sg, r) := unsign s in (sg, unlayout r).

(** A decimal as the search of [shortest_decimal] returns them: it
    reads back as [x] and has no trailing zero. *)
Definition found (x : float) (ck : Z * Z) : Prop :=
  reads_as x ck = true /\ (ck.1 <= 0 \/ ck.1 mod 10 <> 0).

(** [ck] is such a decimal for [f], when [f] is written with one. *)
Definition decimal_for (f : float) (ck : Z * Z) : Prop :=
  forall s m e, Prim2SF f = S754_finite s m e -> found (abs f) ck.

(** A float written with digits: neither a zero, nor an infinity, nor nan. *)
Definition is_finite (sf : spec_float) : Prop := exists s m e, sf = S754_finite s m e.

(** The text of a float, given its decimal. *)
Definition float_text (sf : spec_float) (ck : Z * Z) : list ascii :=
  match sf with
  | S754_nan => list_ascii_of_string "nan"
  | S754_infinity s => list_ascii_of_string (if s then "-inf" else "inf")
  | S754_zero s => list_ascii_of_string (if s then "-0.0" else "0.0")
  | S754_finite s m e =>
      let ds := digits ck.1 in
      (if s then ["-"%char] else []) ++ layout ds (Z.of_nat (length ds) + ck.2)
  end.

(** The decimal that [float_chars] writes. *)
Definition decimal_of (f : float) : Z * Z :=
  match Prim2SF f with
  | S754_finite _ m e =>
      match shortest_decimal (abs f) m e with
      | Some ck => ck
      | None => nearest_decimal m e
      end
  | _ => (0, 0)
  end.

(** The floats for which the search of [shortest_decimal] ends with a
    decimal.  Seventeen digits tell any two doubles apart, so that these
    are all of them; for a given float, evaluation decides it. *)
Definition round_trips (f : float) : bool :=
  match Prim2SF f with
  | S754_finite _ m e =>
      match shortest_decimal (abs f) m e with
      | Some _ => true
      | None => false
      end
  | _ => true
  end.

(** A price is a number: an int or a float. *)
Definition price (v : pyval) : Prop :=
  match v with
  | VInt _ => True
  | VFloat f => round_trips f = true
  | _ => False
  end.

(** The elements of [l] whose flag is set. *)
Fixpoint keep {A} (flags : list bool) (l : list A) : list A :=
  match flags, l with
  | b :: flags', x :: l' => if b then x :: keep flags' l' else keep flags' l'
  | _, _ => []
  end.

(** The key under which [remove_duplicates] files a record: its id when
    the id is truthy, the title-price text otherwise. *)
Definition dedup_key (product : dict) : result hkey :=
  let product_id := get product "id" (VStr "") in
  if truthy product_id then hash_key product_id
  else Ok (KStr (pseudo_id product)).

(** Two records have the same key, in the sense of set membership. *)
Definition same_key (p q : dict) : Prop :=
  exists k, dedup_key p = Ok k /\ dedup_key q = Ok k /\ k <> KNaN.

(** The id of the record can be hashed: it is not a non-empty list. *)
Definition hashable_id (product : dict) : Prop :=
  forall x l, get product "id" (VStr "") <> VList (x :: l).

(** The flags the loop gives to a run of keys, from the keys seen so far. *)
Fixpoint classify (seen : pyset) (keys : list hkey) : list bool :=
  match keys with
  | [] => []
  | k :: keys' =>
      let fresh := negb (set_contains seen k) in
      fresh :: classify (if fresh then set_add seen k else seen) keys'
  end.

(** The keys of a list of records, when every id can be hashed. *)
Fixpoint keys_of (products : list dict) : result (list hkey) :=
  match products with
  | [] => Ok []
  | p :: rest =>
      let* k := dedup_key p in
      let* ks := keys_of rest in
      Ok (k :: ks)
  end.

(** A text field of a well-typed record is absent, [None] or a [str]. *)
Definition text_field (o : option pyval) : Prop :=
  match o with
  | None | Some VNone | Some (VStr _) => True
  | Some _ => False
  end.

(** An amount is absent, a float, or an int that converts to a float. *)
Definition amount_field (o : option pyval) : Prop :=
  match o with
  | None | Some (VFloat _) => True
  | Some (VInt z) => returns (float_of_int z)
  | Some _ => False
  end.

(** What an amount field reads as. *)
Inductive amount : pyval -> Prop :=
| amount_float f : amount (VFloat f)
| amount_int z f : float_of_int z = Ok f -> amount (VInt z).

(** A record whose fields, where [process_products] reads them as text
    or as amounts, hold values of that type. *)
Record typed (product : dict) : Prop := {
  typed_id : text_field (product !! "id");
  typed_title : text_field (product !! "title");
  typed_url : text_field (product !! "url");
  typed_unit_price : text_field (product !! "unit_price");
  typed_special_text : text_field (product !! "special_text");
  typed_was_price_value : amount_field (product !! "was_price_value");
  typed_price_value : amount_field (product !! "price_value")
}.

(** The input records paired with their positions, from position [i]. *)
Definition indexed (i : nat) (products : list dict) : list (nat * dict) :=
  imap (fun j p => ((i + j)%nat, p)) products.

(** The records that pass line 38, with their positions. *)
Definition accepted (i : nat) (products : list dict) : list (nat * dict) :=
  filter (fun ip : nat * dict => rejected ip.2 = false) (indexed i products).

(** [d'] differs from [d] at most on the keys in [ks]. *)
Definition same_but (ks : list string) (d d' : dict) : Prop :=
  forall k, k ∉ ks -> d' !! k = d !! k.

(** The keys written between the title check and the save-value rule. *)
Definition early_keys : list string :=
  ["id"; "vendor"; "unit_price"; "rate_value"; "rate_unit"; "is_on_special"; "special_text"].

(** The key under which [find_cross_category_duplicates] files a
    product, if it files it at all. *)
Definition id_key (product : dict) : option hkey :=
  let product_id := get product "id" VNone in
  if truthy product_id then
    match hash_key product_id with
    | Ok k => Some k
    | Raise _ => None
    end
  else None.

(** Every [(category, product)] pair of the mapping, in iteration order. *)
Definition all_pairs (items : list (string * list dict)) : list (string * dict) :=
  items ≫= (fun item => (fun product => (item.1, product)) <$> item.2).

(** The pairs whose product is filed under [k]. *)
Definition pairs_with (k : hkey) (pairs : list (string * dict)) : list (string * dict) :=
  filter (fun cp : string * dict => id_key cp.2 = Some k) pairs.

(** Two of the pairs are of different categories: the product they are
    pairs of is listed under two categories or more. *)
Definition in_two_categories (pairs : list (string * dict)) : Prop :=
  exists c1 p1 c2 p2, (c1, p1) ∈ pairs /\ (c2, p2) ∈ pairs /\ c1 <> c2.

(** The [get('id')] of the product can be hashed. *)
Definition hashable_get_id (product : dict) : Prop :=
  forall x l, get product "id" VNone <> VList (x :: l).

(** The keys of the groups, nan apart. *)
Definition group_keys (groups : list group) : list hkey :=
  filter (fun k => k <> KNaN) (group_key <$> groups).

(** The grouping loop over a flat list of pairs. *)
Fixpoint group_pairs (groups : list group) (pairs : list (string * dict))
  : result (list group) :=
  match pairs with
  | [] => Ok groups
  | (category, product) :: rest =>
      let* groups := group_product category groups product in
      group_pairs groups rest
  end.

(** What appending a pair does to a group, and the group a new id opens. *)
Definition extended (g : group) (pair : string * dict) : group :=
  {| group_key := group_key g; group_id := group_id g;
     group_products := group_products g ++ [pair] |}.

Definition opened (k : hkey) (product_id : pyval) (pair : string * dict) : group :=
  {| group_key := k; group_id := product_id; group_products := [pair] |}.

(** The invariant of the grouping loop, [done] being the pairs it has
    gone through: each group is filed under the hash of a truthy id, no
    key has two groups, a group holds exactly the pairs of its key, and
    every key met has a group. *)
Record grouped (groups : list group) (done : list (string * dict)) : Prop := {
  grouped_ids : forall g, g ∈ groups ->
    truthy (group_id g) = true /\ hash_key (group_id g) = Ok (group_key g);
  grouped_nodup : NoDup (group_keys groups);
  grouped_products : forall g, g ∈ groups -> group_key g <> KNaN ->
    group_products g = pairs_with (group_key g) done;
  grouped_nan : forall g, g ∈ groups -> group_key g = KNaN ->
    length (group_products g) = 1%nat;
  grouped_all : forall k, k <> KNaN -> pairs_with k done <> [] ->
    k ∈ group_key <$> groups
}.

(** ** Processed products that a second pass leaves alone *)

(** The fields of a processed product other than [vendor]. *)
Record fields := {
  f_id : pyval;
  f_title : string;
  f_price_value : pyval;
  f_was_price_value : pyval;
  f_save_value : pyval;
  f_unit_price : pyval;
  f_url : pyval;
  f_image_url : pyval;
  f_category : pyval;
  f_page : pyval;
  f_is_on_special : pyval;
  f_special_text : pyval;
  f_rate_value : pyval;
  f_rate_unit : pyval;
  f_scrapedAt : pyval
}.

Definition to_dict (f : fields) : dict :=
  list_to_map
    [ ("id", f_id f);
      ("title", VStr (f_title f));
      ("price_value", f_price_value f);
      ("was_price_value", f_was_price_value f);
      ("save_value", f_save_value f);
      ("unit_price", f_unit_price f);
      ("url", f_url f);
      ("image_url", f_image_url f);
      ("category", f_category f);
      ("page", f_page f);
      ("vendor", VStr "coles");
      ("is_on_special", f_is_on_special f);
      ("special_text", f_special_text f);
      ("rate_value", f_rate_value f);
      ("rate_unit", f_rate_unit f);
      ("scrapedAt", f_scrapedAt f) ].

Definition values (f : fields) : list pyval :=
  [ f_id f; f_price_value f; f_was_price_value f; f_save_value f; f_unit_price f;
    f_url f; f_image_url f; f_category f; f_page f; f_is_on_special f;
    f_special_text f; f_rate_value f; f_rate_unit f; f_scrapedAt f ].

(** Line 85 and line 86, on the three values they read. *)
Definition due_for (save_value was_price current_price : pyval) : result bool :=
  if eq_zero save_value then
    let* w := gt_zero was_price in
    if w then gt_zero current_price else Ok false
  else Ok false.

Definition saving_for (was_price current_price : pyval) : result pyval :=
  let* d := sub was_price current_price in
  round2 d.

(** A processed product in canonical form: every step of a further pass
    finds its work done. *)
Record canonical (f : fields) : Prop := {
  canonical_values : Forall (fun v => is_none v = false) (values f);
  canonical_title : f_title f <> EmptyString /\ strip (f_title f) = f_title f;
  canonical_id : truthy (f_id f) = false -> truthy (f_url f) = true ->
    exists url, f_url f = VStr url /\ Re.search_url_id url = None;
  canonical_unit_price : truthy (f_unit_price f) = true ->
    exists u, f_unit_price f = VStr u /\ strip (split_first "|" u) = u /\
      forall num unit rate_value,
        Re.search_rate u = Some (num, unit) -> float_of_decimal num = Ok rate_value ->
        f_rate_value f = VFloat rate_value /\ f_rate_unit f = VStr (lower unit);
  canonical_special :
    f_is_on_special f = VBool (truthy (f_special_text f)) /\
    (truthy (f_special_text f) = true ->
     exists s, f_special_text f = VStr s /\ strip s = s);
  canonical_save : exists due,
    due_for (f_save_value f) (f_was_price_value f) (f_price_value f) = Ok due /\
    (due = true ->
     saving_for (f_was_price_value f) (f_price_value f) = Ok (f_save_value f))
}.

(** No field holds [None]. *)
Definition no_none (d : dict) : Prop := forall k, d !! k <> Some VNone.

(** The input records a second pass agrees with: no field holds [None],
    and neither the title nor a special text is all whitespace. *)
Record settled (product : dict) : Prop := {
  settled_none : no_none product;
  settled_title : forall t, product !! "title" = Some (VStr t) -> strip t <> EmptyString;
  settled_special : forall s, product !! "special_text" = Some (VStr s) ->
    s <> EmptyString -> strip s <> EmptyString
}.

(** ** The shape of a processed product *)

(** The fields of a processed product, lines 90-105. *)
Definition field_names : list string :=
  [ "id"; "title"; "price_value"; "was_price_value"; "save_value"; "unit_price";
    "url"; "image_url"; "category"; "page"; "vendor"; "is_on_special";
    "special_text"; "rate_value"; "rate_unit"; "scrapedAt" ].

(** The keys that [process_products] writes in the records it is given. *)
Definition written_keys : list string := "save_value" :: early_keys.

(** What line 109 leaves of a value. *)
Definition kept_value (v : pyval) : option pyval := if is_none v then None else Some v.

(** A text of decimal digits. *)
Fixpoint all_digits (s : string) : bool :=
  match s with
  | EmptyString => true
  | String c s' => isdigit c && all_digits s'
  end.

(** A text of word characters. *)
Fixpoint all_word (s : string) : bool :=
  match s with
  | EmptyString => true
  | String c s' => isword c && all_word s'
  end.

(** A unit price as the site shows it: a price with a fraction, per
    unit. *)
Definition unit_price_text (ip fp unit : string) : string :=
  "$" +:+ ip +:+ "." +:+ fp +:+ " per " +:+ unit.

(** A text without a decimal digit. *)
Fixpoint digit_free (s : string) : bool :=
  match s with
  | EmptyString => true
  | String c s' => negb (isdigit c) && digit_free s'
  end.

Definition starts_with_digit (s : string) : bool :=
  match s with
  | EmptyString => false
  | String c _ => isdigit c
  end.

(** The double nearest to the decimal number written [ip.fp]. *)
Definition decimal_value (ip fp : string) : float :=
  float_of_ratio false (digits_val (digits_val 0 ip) fp) (10 ^ Z.of_nat (String.length fp)).

(** ** The report *)


(** The first line of the [i]-th entry of the report. *)
Definition entry_head (i : nat) (product : dict) : string :=
  str_of_Z (Z.of_nat i) +:+ ". ID: " +:+ py_str (get product "id" (VStr "Unknown"))
    +:+ " - " +:+ py_str (get product "title" (VStr "Unknown")).

End Notions.


(* ===================================================================== *)
(** * Sample records                                                      *)
(* ===================================================================== *)

Module Examples.
Import Py ColesProductProcessor.

(** A clock that always reads the same time. *)
Definition clock0 (i : nat) : string := "2024-05-01T09:30:00".

(** A record as the scraper emits it, and what one pass makes of it. *)
Definition milk : dict :=
  list_to_map
    [ ("id", VStr ""); ("title", VStr " Milk 2L "); ("price_value", VFloat 4);
      ("was_price_value", VFloat 5); ("save_value", VInt 0);
      ("unit_price", VStr "$2.00 per L | Was $2.50 per L");
      ("url", VStr "https://www.coles.com.au/product/milk-2l-123");
      ("image_url", VStr ""); ("category", VStr "dairy"); ("special_text", VStr "");
      ("vendor", VStr "coles"); ("scrapedAt", VStr "2024-05-01T09:29:58") ].

Definition milk_after : dict :=
  list_to_map
    [ ("id", VStr "123"); ("title", VStr " Milk 2L "); ("price_value", VFloat 4);
      ("was_price_value", VFloat 5); ("save_value", VFloat 1);
      ("unit_price", VStr "$2.00 per L");
      ("url", VStr "https://www.coles.com.au/product/milk-2l-123");
      ("image_url", VStr ""); ("category", VStr "dairy"); ("special_text", VStr "");
      ("vendor", VStr "coles"); ("is_on_special", VBool false);
      ("rate_value", VFloat 2); ("rate_unit", VStr "l");
      ("scrapedAt", VStr "2024-05-01T09:29:58") ].

Definition milk_processed : dict :=
  list_to_map
    [ ("id", VStr "123"); ("title", VStr "Milk 2L"); ("price_value", VFloat 4);
      ("was_price_value", VFloat 5); ("save_value", VFloat 1);
      ("unit_price", VStr "$2.00 per L");
      ("url", VStr "https://www.coles.com.au/product/milk-2l-123");
      ("image_url", VStr ""); ("category", VStr "dairy"); ("page", VInt 0);
      ("vendor", VStr "coles"); ("is_on_special", VBool false);
      ("special_text", VStr ""); ("rate_value", VFloat 2); ("rate_unit", VStr "l");
      ("scrapedAt", VStr "2024-05-01T09:29:58") ].

(** A record without a title. *)
Definition untitled : dict :=
  list_to_map [ ("price_value", VInt 0); ("category", VStr "dairy") ].

(** A record whose special text is one space, after one pass and after
    two. *)
Definition bread : dict :=
  list_to_map [ ("title", VStr "Bread"); ("special_text", VStr " ") ].

Definition bread_after : dict :=
  list_to_map [ ("title", VStr "Bread"); ("special_text", VStr "");
                ("vendor", VStr "coles"); ("is_on_special", VBool true) ].

Definition bread_processed (is_on_special : bool) : dict :=
  list_to_map
    [ ("id", VStr ""); ("title", VStr "Bread"); ("price_value", VFloat 0);
      ("was_price_value", VFloat 0); ("save_value", VFloat 0);
      ("unit_price", VStr ""); ("url", VStr ""); ("image_url", VStr "");
      ("category", VStr ""); ("page", VInt 0); ("vendor", VStr "coles");
      ("is_on_special", VBool is_on_special); ("special_text", VStr "");
      ("rate_value", VFloat 0); ("rate_unit", VStr "");
      ("scrapedAt", VStr "2024-05-01T09:30:00") ].

(** Two records with one id and different titles. *)
Definition tea : dict :=
  list_to_map [ ("id", VStr "123"); ("title", VStr "Tea Bags 100 pack") ].

Definition tea_again : dict :=
  list_to_map [ ("id", VStr "123"); ("title", VStr "Tea Bags 100pk");
                ("price_value", VFloat 4.5) ].

(** Records without an id. *)
Definition milk_at (price_value : pyval) : dict :=
  list_to_map [ ("id", VStr ""); ("title", VStr "Milk 2L"); ("price_value", price_value) ].

(** A product listed under two categories, and one listed twice under
    one. *)
Definition bun : dict := list_to_map [ ("id", VStr "999"); ("title", VStr "Bun") ].
Definition roll : dict := list_to_map [ ("id", VStr "57"); ("title", VStr "Roll") ].

Definition shelves : list (string * list dict) :=
  [ ("bakery", [bun; roll; roll]); ("dairy", [bun]) ].

End Examples.

(* ===================================================================== *)
(** * Text                                                                *)
(* ===================================================================== *)

Module TextFacts.
Import Py.

Lemma nonempty_true s : nonempty s = true <-> s <> EmptyString.
Proof. unfold nonempty. destruct s; simpl; split; congruence. Qed.

Lemma truthy_str s : truthy (VStr s) = nonempty s.
Proof. reflexivity. Qed.

(** What [rstrip] returns does not end in whitespace: it is empty or
    stripping it again changes nothing. *)
Lemma rstrip_idem s : rstrip (rstrip s) = rstrip s.
Proof.
  induction s as [|c s IH]; simpl; [done|].
  destruct (rstrip s) as [|c' r] eqn:E.
  - destruct (isspace c) eqn:Hc; simpl; [done|]. by rewrite Hc.
  - simpl in *. by rewrite IH.
Qed.

Lemma rstrip_head c s :
  isspace c = false -> exists r, rstrip (String c s) = String c r.
Proof.
  intros Hc. simpl. destruct (rstrip s); rewrite ?Hc; eauto.
Qed.

Lemma lstrip_head s :
  lstrip s = EmptyString \/ exists c r, lstrip s = String c r /\ isspace c = false.
Proof.
  induction s as [|c s IH]; simpl; [by left|].
  destruct (isspace c) eqn:Hc; [done|]. right. eauto.
Qed.

Lemma lstrip_fixed c r : isspace c = false -> lstrip (String c r) = String c r.
Proof. intros Hc. simpl. by rewrite Hc. Qed.

(** [s.strip().strip() == s.strip()] *)
Lemma strip_idem s : strip (strip s) = strip s.
Proof.
  unfold strip. destruct (lstrip_head s) as [->|(c & r & -> & Hc)]; [done|].
  destruct (rstrip_head c r Hc) as [r' E]. rewrite E.
  rewrite (lstrip_fixed _ _ Hc), <- E. apply rstrip_idem.
Qed.

Lemma split_first_none sep s : contains sep s = false -> split_first sep s = s.
Proof.
  induction s as [|c s IH]; simpl; [done|].
  rewrite Ascii.eqb_sym. destruct (Ascii.eqb c sep); simpl; [done|].
  intros H. by rewrite IH.
Qed.

Lemma contains_split_first sep s : contains sep (split_first sep s) = false.
Proof.
  induction s as [|c s IH]; simpl; [done|].
  destruct (Ascii.eqb c sep) eqn:E; simpl; [done|].
  by rewrite Ascii.eqb_sym, E.
Qed.

Lemma contains_lstrip sep s : contains sep s = false -> contains sep (lstrip s) = false.
Proof.
  induction s as [|c s IH]; simpl; [done|].
  intros H. apply orb_false_iff in H as [H1 H2].
  destruct (isspace c); [by apply IH|]. simpl. by rewrite H1, H2.
Qed.

Lemma contains_rstrip sep s : contains sep s = false -> contains sep (rstrip s) = false.
Proof.
  induction s as [|c s IH]; simpl; [done|].
  intros H. apply orb_false_iff in H as [H1 H2]. specialize (IH H2).
  destruct (rstrip s); [destruct (isspace c)|]; simpl in *; by rewrite ?H1, ?IH.
Qed.

(** The cleaned unit price is a fixed point of the cleaning. *)
Lemma clean_idem s :
  strip (split_first "|" (strip (split_first "|" s))) = strip (split_first "|" s).
Proof.
  rewrite split_first_none, strip_idem; [done|].
  unfold strip. apply contains_rstrip, contains_lstrip, contains_split_first.
Qed.

End TextFacts.

(* ===================================================================== *)
(** * Decimal digits                                                      *)
(* ===================================================================== *)

Module DigitFacts.
Import Py Notions.

Lemma code_digit_char d : 0 <= d < 10 -> code (digit_char d) = (48 + Z.to_N d)%N.
Proof.
  intros Hd. unfold code, digit_char. apply N_ascii_embedding. lia.
Qed.

Lemma digit_val_char d : 0 <= d < 10 -> digit_val (digit_char d) = d.
Proof. intros Hd. unfold digit_val. rewrite code_digit_char by done. lia. Qed.

Lemma digit_char_inj d d' : 0 <= d < 10 -> 0 <= d' < 10 -> digit_char d = digit_char d' -> d = d'.
Proof.
  intros Hd Hd' E. apply (f_equal digit_val) in E. by rewrite !digit_val_char in E.
Qed.

Lemma digit_char_zero d : 0 <= d < 10 -> digit_char d = "0"%char <-> d = 0.
Proof.
  intros Hd. split; [|by intros ->].
  intros E. by apply (digit_char_inj d 0).
Qed.

Lemma digits_from_acc fuel : forall n acc,
  digits_from fuel n acc = digits_from fuel n [] ++ acc.
Proof.
  induction fuel as [|fuel IH]; intros n acc; simpl; [done|].
  destruct (n <? 10); [done|].
  rewrite (IH _ (_ :: acc)), (IH _ [_]), <- app_assoc. done.
Qed.

Lemma digits_from_fuel f1 : forall f2 n acc,
  0 <= n -> n < 2 ^ Z.of_nat f1 -> n < 2 ^ Z.of_nat f2 -> (0 < f1)%nat -> (0 < f2)%nat ->
  digits_from f1 n acc = digits_from f2 n acc.
Proof.
  induction f1 as [|f1 IH]; intros f2 n acc Hn H1 H2 Hf1 Hf2; [lia|].
  destruct f2 as [|f2]; [lia|]. simpl.
  destruct (n <? 10) eqn:E; [done|]. apply Z.ltb_ge in E.
  rewrite Nat2Z.inj_succ, Z.pow_succ_r in H1, H2 by lia.
  assert (n / 10 < 2 ^ Z.of_nat f1) by (apply Z.div_lt_upper_bound; lia).
  assert (n / 10 < 2 ^ Z.of_nat f2) by (apply Z.div_lt_upper_bound; lia).
  assert (1 <= n / 10) by (apply Z.div_le_lower_bound; lia).
  apply IH; try done; try lia.
  - destruct f1; [simpl in *; lia|lia].
  - destruct f2; [simpl in *; lia|lia].
Qed.

Lemma log2_fuel n : 0 <= n -> n < 2 ^ Z.of_nat (S (Z.to_nat (Z.log2 n))).
Proof.
  intros Hn. rewrite Nat2Z.inj_succ, Z2Nat.id by apply Z.log2_nonneg.
  destruct (decide (n = 0)) as [->|Hne]; [done|].
  apply Z.log2_spec. lia.
Qed.

(** The digits of a number are those of its tenth and its last digit. *)
Lemma digits_small n : 0 <= n < 10 -> digits n = [digit_char n].
Proof.
  intros Hn. unfold digits. simpl.
  rewrite Z.mod_small by done. by rewrite (proj2 (Z.ltb_lt n 10)) by lia.
Qed.

Lemma digits_step n : 10 <= n -> digits n = digits (n / 10) ++ [digit_char (n mod 10)].
Proof.
  intros Hn. unfold digits at 1. cbn [digits_from].
  rewrite (proj2 (Z.ltb_ge n 10)) by done.
  rewrite digits_from_acc. f_equal. unfold digits.
  assert (0 <= n / 10) by (apply Z.div_pos; lia).
  pose proof (log2_fuel n ltac:(lia)) as Hf.
  rewrite Nat2Z.inj_succ, Z.pow_succ_r in Hf by lia.
  assert (n / 10 < 2 ^ Z.of_nat (Z.to_nat (Z.log2 n)))
    by (apply Z.div_lt_upper_bound; lia).
  assert (1 <= n / 10) by (apply Z.div_le_lower_bound; lia).
  apply digits_from_fuel; [done|done|by apply log2_fuel| |lia].
  destruct (Z.to_nat (Z.log2 n)); [simpl in *; lia|lia].
Qed.

(** Induction along the digits. *)
Lemma digits_ind (P : Z -> Prop) :
  (forall n, 0 <= n < 10 -> P n) ->
  (forall n, 10 <= n -> P (n / 10) -> P n) ->
  forall n, 0 <= n -> P n.
Proof.
  intros Hsmall Hstep. apply Zlt_0_ind. intros n IH Hn.
  destruct (decide (n < 10)); [apply Hsmall; lia|].
  apply Hstep; [lia|]. apply IH. split; [apply Z.div_pos; lia|].
  apply Z.div_lt; lia.
Qed.

Lemma digits_nonempty n : 0 <= n -> digits n <> [].
Proof.
  intros Hn. destruct (decide (n < 10)).
  - by rewrite digits_small by lia.
  - rewrite digits_step by lia. by destruct (digits (n / 10)).
Qed.

Lemma digits_are_digits n : 0 <= n -> Forall is_digit (digits n).
Proof.
  revert n. apply digits_ind.
  - intros n Hn. rewrite digits_small by done. constructor; [|constructor]. by exists n.
  - intros n Hn IH. rewrite digits_step by done. apply Forall_app. split; [done|].
    constructor; [|constructor]. exists (n mod 10). split; [|done].
    apply Z.mod_pos_bound. lia.
Qed.

Lemma value_snoc l c : value (l ++ [c]) = 10 * value l + digit_val c.
Proof. unfold value. by rewrite fold_left_app. Qed.

(** The digits of a number write it. *)
Lemma value_digits n : 0 <= n -> value (digits n) = n.
Proof.
  revert n. apply digits_ind.
  - intros n Hn. rewrite digits_small by done. unfold value. simpl.
    rewrite digit_val_char by done. lia.
  - intros n Hn IH. rewrite digits_step, value_snoc, IH by done.
    rewrite digit_val_char by (apply Z.mod_pos_bound; lia).
    symmetry. apply Z.div_mod. lia.
Qed.

Lemma digits_inj n n' : 0 <= n -> 0 <= n' -> digits n = digits n' -> n = n'.
Proof.
  intros Hn Hn' E. apply (f_equal value) in E. by rewrite !value_digits in E.
Qed.

(** A positive number starts with a digit other than zero. *)
Lemma digits_head n : 1 <= n -> exists c l, digits n = c :: l /\ c <> "0"%char.
Proof.
  intros Hn. assert (0 <= n) as Hn0 by lia. revert n Hn0 Hn. apply (digits_ind (fun n => 1 <= n -> _)).
  - intros n Hn H1. rewrite digits_small by done. eexists _, _. split; [done|].
    rewrite digit_char_zero by done. lia.
  - intros n Hn IH _. rewrite digits_step by done.
    destruct IH as (c & l & -> & Hc); [apply Z.div_le_lower_bound; lia|].
    by exists c, (l ++ [digit_char (n mod 10)]).
Qed.

(** A number ends with its last digit. *)
Lemma digits_last n : 0 <= n -> last (digits n) = Some (digit_char (n mod 10)).
Proof.
  intros Hn. destruct (decide (n < 10)).
  - rewrite digits_small, Z.mod_small by lia. done.
  - rewrite digits_step by lia. apply last_snoc.
Qed.

Lemma digits_length_one n : 0 <= n -> (length (digits n) < 2)%nat <-> n < 10.
Proof.
  intros Hn. destruct (decide (n < 10)).
  - rewrite digits_small by lia. simpl. lia.
  - rewrite digits_step, length_app by lia. simpl.
    pose proof (digits_nonempty (n / 10) ltac:(apply Z.div_pos; lia)).
    destruct (digits (n / 10)); [done|]. simpl. lia.
Qed.

Lemma is_digit_not c : is_digit c -> c <> "-"%char /\ c <> "."%char /\ c <> "e"%char /\
  c <> "+"%char /\ c <> "n"%char /\ c <> "i"%char.
Proof.
  intros (d & Hd & ->).
  assert (d = 0 \/ d = 1 \/ d = 2 \/ d = 3 \/ d = 4 \/ d = 5 \/ d = 6 \/ d = 7 \/ d = 8 \/ d = 9)
    as H by lia.
  repeat (destruct H as [->|H]; [repeat split; discriminate|]). subst. repeat split; discriminate.
Qed.

Lemma digits_head_digit n : 0 <= n -> exists c l, digits n = c :: l /\ is_digit c.
Proof.
  intros Hn. pose proof (digits_nonempty n Hn). pose proof (digits_are_digits n Hn) as Hd.
  destruct (digits n) as [|c l]; [done|]. exists c, l. split; [done|].
  by apply Forall_cons in Hd as [? _].
Qed.

Lemma chars_of_Z_inj z z'  : chars_of_Z z = chars_of_Z z' -> z = z'.
Proof.
  unfold chars_of_Z. intros E.
  destruct (z <? 0) eqn:Hz, (z' <? 0) eqn:Hz';
    try apply Z.ltb_lt in Hz; try apply Z.ltb_lt in Hz';
    try apply Z.ltb_ge in Hz; try apply Z.ltb_ge in Hz'.
  - injection E as E. apply digits_inj in E; lia.
  - exfalso. destruct (digits_head_digit z' Hz') as (c & l & E' & Hc).
    rewrite E' in E. injection E as <- _. by destruct (is_digit_not _ Hc).
  - exfalso. destruct (digits_head_digit z Hz) as (c & l & E' & Hc).
    rewrite E' in E. injection E as -> _. by destruct (is_digit_not _ Hc).
  - by apply digits_inj.
Qed.

End DigitFacts.

(* ===================================================================== *)
(** * The layout of a float can be read back                              *)
(* ===================================================================== *)

Module LayoutFacts.
Import Py Notions DigitFacts.

Lemma break_app c l r : c ∉ l -> break c (l ++ c :: r) = (l, r).
Proof.
  induction l as [|x l IH]; intros Hc; simpl.
  - by rewrite Ascii.eqb_refl.
  - apply not_elem_of_cons in Hc as [Hx Hl].
    destruct (Ascii.eqb_spec x c) as [->|_]; [done|]. by rewrite IH.
Qed.

Lemma existsb_elem c (l : list ascii) : existsb (Ascii.eqb c) l = true <-> c ∈ l.
Proof.
  rewrite existsb_exists. split.
  - intros (x & Hin & ->%Ascii.eqb_eq). by apply list_elem_of_In.
  - intros Hin. exists c. split; [by apply list_elem_of_In|apply Ascii.eqb_refl].
Qed.

Lemma existsb_not_elem c (l : list ascii) : c ∉ l -> existsb (Ascii.eqb c) l = false.
Proof.
  intros Hc. destruct (existsb (Ascii.eqb c) l) eqn:E; [|done].
  by apply existsb_elem in E.
Qed.

Lemma digits_without c (l : list ascii) : Forall is_digit l -> ~ is_digit c -> c ∉ l.
Proof.
  intros Hl Hc Hin. rewrite list.Forall_forall in Hl. by apply Hc, Hl.
Qed.

Lemma not_digit_e : ~ is_digit "e".
Proof. intros H. by destruct (is_digit_not _ H) as (_ & _ & ? & _). Qed.

Lemma not_digit_dot : ~ is_digit ".".
Proof. intros H. by destruct (is_digit_not _ H) as (_ & ? & _). Qed.

Lemma not_digit_minus : ~ is_digit "-".
Proof. intros H. by destruct (is_digit_not _ H) as (? & _). Qed.

Lemma is_digit_zero : is_digit "0".
Proof. by exists 0. Qed.

Lemma drop_zeros_zeros a c l :
  c <> "0"%char -> drop_zeros (replicate a "0"%char ++ c :: l) = c :: l.
Proof.
  intros Hc. induction a as [|a IH]; simpl; [|done].
  by destruct (Ascii.eqb_spec c "0").
Qed.

Lemma count_zeros_zeros a c l :
  c <> "0"%char -> count_zeros (replicate a "0"%char ++ c :: l) = a.
Proof.
  intros Hc. induction a as [|a IH]; simpl; [|by rewrite IH].
  by destruct (Ascii.eqb_spec c "0").
Qed.

Lemma rev_replicate {A} n (x : A) : rev (replicate n x) = replicate n x.
Proof.
  induction n as [|n IH]; simpl; [done|]. rewrite IH.
  clear. induction n; simpl; [done|]. by f_equal.
Qed.

Lemma filter_all {A} (P : A -> Prop) `{forall x, Decision (P x)} (l : list A) :
  Forall P l -> filter P l = l.
Proof.
  induction 1 as [|x l Hx _ IH]; [done|]. by rewrite filter_cons, decide_True, IH.
Qed.

Lemma value_cons_zero l : value ("0"%char :: l) = value l.
Proof. reflexivity. Qed.

Lemma value_pad2 a : 0 <= a -> value (pad2 (digits a)) = a.
Proof.
  intros Ha. unfold pad2. destruct (length (digits a) <? 2)%nat;
    rewrite ?value_cons_zero; by apply value_digits.
Qed.

Section Layout.
Variable ds : list ascii.
Hypothesis Hds : significant ds.

Let n := Z.of_nat (length ds).

Lemma significant_no c : ~ is_digit c -> c ∉ ds.
Proof. apply digits_without, Hds. Qed.

Lemma unlayout_exponent decpt :
  decpt <= -4 \/ 16 < decpt -> unlayout (layout ds decpt) = (ds, decpt).
Proof.
  intros Hd. unfold layout.
  replace ((decpt <=? -4) || (16 <? decpt)) with true
    by (symmetry; apply orb_true_iff; lia).
  set (mant := match ds with [] => [] | [c] => [c] | c :: rest => c :: "."%char :: rest end).
  assert (("e"%char ∉ mant) /\ filter (fun c => c <> "."%char) mant = ds) as [He Hf].
  { destruct Hds as [Hdig (c & l & -> & Hc) _]. subst mant.
    apply Forall_cons in Hdig as [Hc' Hl].
    assert (c <> "e"%char /\ c <> "."%char) as [? ?]
      by (destruct (is_digit_not _ Hc') as (? & ? & ? & _); done).
    assert (Forall (fun c => c <> "."%char) l).
    { eapply Forall_impl; [exact Hl|]. intros x Hx. by destruct (is_digit_not _ Hx) as (? & ? & _). }
    pose proof (digits_without "e" l Hl not_digit_e).
    destruct l as [|c' l'].
    - split; [set_solver|]. by rewrite filter_cons, decide_True, filter_nil.
    - split; [rewrite !not_elem_of_cons; set_solver|].
      rewrite filter_cons, decide_True, filter_cons, decide_False by (done || tauto).
      f_equal. by apply filter_all. }
  unfold unlayout, exponent_chars.
  replace (existsb _ _) with true by (symmetry; apply existsb_elem; set_solver).
  rewrite break_app, Hf by done. f_equal.
  destruct (decpt - 1 <? 0) eqn:E.
  - apply Z.ltb_lt in E. simpl. rewrite value_pad2 by lia. lia.
  - apply Z.ltb_ge in E. simpl. rewrite value_pad2 by lia. lia.
Qed.

Lemma unlayout_fraction decpt :
  -4 < decpt <= 0 -> unlayout (layout ds decpt) = (ds, decpt).
Proof.
  intros Hd. unfold layout.
  replace ((decpt <=? -4) || (16 <? decpt)) with false
    by (symmetry; apply orb_false_iff; lia).
  replace (decpt <=? 0) with true by (symmetry; apply Z.leb_le; lia).
  destruct Hds as [Hdig (c & l & E & Hc) _].
  unfold unlayout.
  rewrite existsb_not_elem.
  2:{ rewrite !not_elem_of_cons, not_elem_of_app. repeat split; try discriminate.
      - intros Hin%elem_of_replicate. by destruct Hin.
      - by apply digits_without, not_digit_e. }
  change ("0"%char :: "."%char :: ?r) with (["0"%char] ++ "."%char :: r).
  rewrite break_app by (rewrite list_elem_of_singleton; discriminate).
  rewrite decide_True by done. rewrite E.
  rewrite drop_zeros_zeros, count_zeros_zeros by done. f_equal. lia.
Qed.

Lemma unlayout_integer decpt :
  n <= decpt <= 16 -> unlayout (layout ds decpt) = (ds, decpt).
Proof.
  intros Hd. unfold layout. fold n.
  assert (0 < n).
  { subst n. destruct Hds as [_ (c & l & -> & _) _]. simpl. lia. }
  replace ((decpt <=? -4) || (16 <? decpt)) with false
    by (symmetry; apply orb_false_iff; lia).
  replace (decpt <=? 0) with false by (symmetry; apply Z.leb_gt; lia).
  replace (n <=? decpt) with true by (symmetry; apply Z.leb_le; lia).
  set (a := Z.to_nat (decpt - n)).
  unfold unlayout. rewrite existsb_not_elem.
  2:{ rewrite !not_elem_of_app, !not_elem_of_cons. repeat split; try discriminate.
      - by apply significant_no, not_digit_e.
      - intros Hin%elem_of_replicate. by destruct Hin.
      - apply not_elem_of_nil. }
  rewrite app_assoc, break_app.
  2:{ rewrite not_elem_of_app. split; [by apply significant_no, not_digit_dot|].
      intros Hin%elem_of_replicate. by destruct Hin. }
  destruct Hds as [Hdig (c & l & E & Hc) Hlast].
  rewrite decide_False, decide_True; [| done |].
  2:{ rewrite E. simpl. intros [= -> _]. done. }
  f_equal.
  - rewrite rev_app_distr, rev_replicate.
    destruct (rev ds) as [|x r] eqn:Er.
    { apply (f_equal (@rev _)) in Er. rewrite rev_involutive in Er. by rewrite Er in E. }
    assert (x <> "0"%char).
    { intros ->. apply Hlast. apply (f_equal (@rev _)) in Er. rewrite rev_involutive in Er.
      rewrite Er. simpl. by rewrite last_snoc. }
    rewrite drop_zeros_zeros by done. rewrite <- Er. apply rev_involutive.
  - rewrite length_app, length_replicate. subst a n. lia.
Qed.

Lemma unlayout_point decpt :
  0 < decpt < n -> decpt <= 16 -> unlayout (layout ds decpt) = (ds, decpt).
Proof.
  intros Hd Hd'. unfold layout. fold n.
  replace ((decpt <=? -4) || (16 <? decpt)) with false
    by (symmetry; apply orb_false_iff; lia).
  replace (decpt <=? 0) with false by (symmetry; apply Z.leb_gt; lia).
  replace (n <=? decpt) with false by (symmetry; apply Z.leb_gt; lia).
  set (d := Z.to_nat decpt).
  assert (d < length ds)%nat by (subst d n; lia). assert (0 < d)%nat by (subst d; lia).
  destruct Hds as [Hdig (c & l & E & Hc) Hlast].
  assert (Forall is_digit (take d ds)) by by apply Forall_take.
  assert (Forall is_digit (drop d ds)) by by apply Forall_drop.
  unfold unlayout. rewrite existsb_not_elem.
  2:{ rewrite not_elem_of_app, not_elem_of_cons. repeat split; try discriminate;
        by apply digits_without, not_digit_e. }
  rewrite break_app by by apply digits_without, not_digit_dot.
  rewrite decide_False.
  2:{ rewrite E. destruct d; [lia|]. simpl. intros [= -> _]. done. }
  rewrite decide_False.
  2:{ intros Ed. apply Hlast. rewrite <- (take_drop d ds), Ed. by rewrite last_snoc. }
  rewrite take_drop. f_equal. rewrite length_take. subst d. lia.
Qed.

(** [layout] can be undone. *)
Lemma unlayout_layout decpt : unlayout (layout ds decpt) = (ds, decpt).
Proof.
  destruct (decide (decpt <= -4 \/ 16 < decpt)); [by apply unlayout_exponent|].
  destruct (decide (decpt <= 0)); [apply unlayout_fraction; lia|].
  destruct (decide (n <= decpt)); [apply unlayout_integer; lia|].
  apply unlayout_point; lia.
Qed.

(** A layout starts with a digit. *)
Lemma layout_head decpt : exists c l, layout ds decpt = c :: l /\ is_digit c.
Proof.
  destruct Hds as [Hdig (c & l & E & Hc) _].
  assert (is_digit c) as Hc' by (rewrite E in Hdig; by apply Forall_cons in Hdig as [? _]).
  unfold layout. fold n.
  destruct ((decpt <=? -4) || (16 <? decpt)).
  { rewrite E. destruct l; simpl; eauto. }
  destruct (decpt <=? 0) eqn:E0; [exists "0"%char; eexists; split; [done|apply is_digit_zero]|].
  destruct (n <=? decpt) eqn:En; [rewrite E; simpl; eauto|].
  apply Z.leb_gt in E0. rewrite E.
  destruct (Z.to_nat decpt) eqn:Ed; [lia|]. simpl. eauto.
Qed.

End Layout.

(** A layout has a point or an exponent, whatever it lays out. *)
Lemma layout_mark ds decpt : "."%char ∈ layout ds decpt \/ "e"%char ∈ layout ds decpt.
Proof.
  unfold layout, exponent_chars.
  destruct ((decpt <=? -4) || (16 <? decpt)); [right; set_solver|].
  destruct (decpt <=? 0); [left; set_solver|].
  destruct (_ <=? decpt); left; set_solver.
Qed.
End LayoutFacts.

(* ===================================================================== *)
(** * The text of a float tells which float it is                         *)
(* ===================================================================== *)

Module FloatFacts.
Import Py Notions DigitFacts LayoutFacts.

(** ** The decimal that the search returns *)

Lemma strip_zeros_from_last fuel : forall c k c' k',
  c < 2 ^ Z.of_nat fuel -> strip_zeros_from fuel c k = (c', k') ->
  c' <= 0 \/ c' mod 10 <> 0.
Proof.
  induction fuel as [|fuel IH]; intros c k c' k' Hc E.
  - simpl in E. injection E as <- <-. simpl in Hc. lia.
  - cbn [strip_zeros_from] in E.
    destruct ((c mod 10 =? 0) && (0 <? c)) eqn:Ec.
    + apply andb_true_iff in Ec as [Hm%Z.eqb_eq Hp%Z.ltb_lt].
      apply (IH _ _ _ _) in E; [done|].
      rewrite Nat2Z.inj_succ, Z.pow_succ_r in Hc by lia.
      apply Z.div_lt_upper_bound; lia.
    + injection E as <- <-. apply andb_false_iff in Ec as [Hm%Z.eqb_neq|Hp%Z.ltb_ge]; lia.
Qed.

Lemma strip_zeros_last c k c' k' :
  strip_zeros c k = (c', k') -> c' <= 0 \/ c' mod 10 <> 0.
Proof.
  unfold strip_zeros. apply strip_zeros_from_last.
  destruct (decide (0 <= c)); [by apply log2_fuel|].
  assert (0 < 2 ^ Z.of_nat (S (Z.to_nat (Z.log2 c)))) by (apply Z.pow_pos_nonneg; lia). lia.
Qed.

Lemma candidate_found x num den E n ck :
  candidate x num den E n = Some ck -> found x ck.
Proof.
  unfold candidate.
  set (k := E - (n - 1)). set (yn := if 0 <=? k then _ else _). set (yd := if 0 <=? k then _ else _).
  destruct (strip_zeros (yn / yd) k) as [c1 k1] eqn:E1.
  destruct (strip_zeros (yn / yd + 1) k) as [c2 k2] eqn:E2.
  apply strip_zeros_last in E1, E2.
  destruct (reads_as x (c1, k1)) eqn:R1, (reads_as x (c2, k2)) eqn:R2; intros [= <-];
    try (by split).
  destruct (match 2 * (yn mod yd) ?= yd with Lt => true | Gt => false | Eq => Z.even (yn / yd) end);
    by split.
Qed.

Lemma shortest_found fuel x num den E : forall n ck,
  shortest fuel x num den E n = Some ck -> found x ck.
Proof.
  induction fuel as [|fuel IH]; intros n ck H; [done|].
  cbn [shortest] in H. destruct (candidate x num den E n) eqn:Ec.
  - injection H as <-. by eapply candidate_found.
  - by eapply IH.
Qed.

(** ** Reading a decimal *)

Lemma float_of_dec_zero c k : c <= 0 -> float_of_dec c k = SF2Prim (S754_zero false).
Proof.
  intros Hc. unfold float_of_dec, float_of_ratio, sf_of_ratio.
  destruct (0 <=? k) eqn:Ek.
  - apply Z.leb_le in Ek. assert (c * 10 ^ k <= 0) by (apply Z.mul_nonpos_nonneg; lia).
    by destruct (c * 10 ^ k); [| lia |].
  - by destruct c; [| lia |].
Qed.

Lemma eqb_finite x y m e :
  Prim2SF y = S754_finite false m e -> (x =? y)%float = true -> x = y.
Proof.
  intros Hy E. rewrite FloatAxioms.eqb_spec, Hy in E.
  apply FloatAxioms.Prim2SF_inj. rewrite Hy.
  unfold SFeqb, SFcompare in E.
  destruct (Prim2SF x) as [s| s| |s m' e']; try done; try (by destruct s).
  destruct s; [done|].
  destruct (e' ?= e) eqn:Ee; try done. apply Z.compare_eq in Ee as ->.
  destruct (Pos.compare_cont Eq m' m) eqn:Em; try done.
  by apply Pos.compare_eq in Em as ->.
Qed.

Lemma reads_as_positive x m e c k :
  Prim2SF x = S754_finite false m e -> reads_as x (c, k) = true -> 0 < c.
Proof.
  intros Hx E. destruct (decide (0 < c)); [done|]. exfalso.
  unfold reads_as in E. cbn [fst snd] in E.
  apply (eqb_finite _ _ _ _ Hx) in E. rewrite float_of_dec_zero in E by lia.
  rewrite <- E in Hx. by vm_compute in Hx.
Qed.

(** Two floats that one decimal reads back as are one float. *)
Lemma reads_as_inj x y m e m' e' ck :
  Prim2SF x = S754_finite false m e -> Prim2SF y = S754_finite false m' e' ->
  reads_as x ck = true -> reads_as y ck = true -> x = y.
Proof.
  intros Hx Hy Ex Ey. unfold reads_as in *.
  apply (eqb_finite _ _ _ _ Hx) in Ex. apply (eqb_finite _ _ _ _ Hy) in Ey. congruence.
Qed.

(** ** The digits of a decimal *)

Lemma digits_significant c : 0 < c -> c mod 10 <> 0 -> significant (digits c).
Proof.
  intros Hc Hm. split.
  - apply digits_are_digits. lia.
  - apply digits_head. lia.
  - rewrite digits_last by lia. intros [= E].
    apply digit_char_zero in E; [done|]. apply Z.mod_pos_bound. lia.
Qed.

(** ** The text *)

Lemma float_chars_text f : float_chars f = float_text (Prim2SF f) (decimal_of f).
Proof.
  unfold float_chars, float_text, decimal_of.
  destruct (Prim2SF f) as [s| s| |s m e]; try done.
  by destruct (match shortest_decimal (abs f) m e with Some ck => ck | None => _ end).
Qed.

Lemma shortest_decimal_found x m e ck : shortest_decimal x m e = Some ck -> found x ck.
Proof. unfold shortest_decimal. apply shortest_found. Qed.

Lemma round_trips_decimal f : round_trips f = true -> decimal_for f (decimal_of f).
Proof.
  intros H s m e E. unfold round_trips in H. unfold decimal_of. rewrite E in H |- *.
  destruct (shortest_decimal (abs f) m e) as [ck|] eqn:Es; [|discriminate H].
  exact (shortest_decimal_found _ _ _ _ Es).
Qed.

Lemma unsign_digit c l : is_digit c -> unsign (c :: l) = (false, c :: l).
Proof.
  intros Hc. unfold unsign. destruct (Ascii.eqb_spec c "-") as [->|_]; [|done].
  by apply not_digit_minus in Hc.
Qed.

Section Finite.
Variables (f : float) (s : bool) (m : positive) (e : Z) (ck : Z * Z).
Hypothesis Hf : Prim2SF f = S754_finite s m e.
Hypothesis Hck : found (abs f) ck.

Lemma abs_finite : Prim2SF (abs f) = S754_finite false m e.
Proof. by rewrite FloatAxioms.abs_spec, Hf. Qed.

Lemma found_positive : 0 < ck.1.
Proof.
  destruct ck as [c k], Hck as [Hr _]. by eapply reads_as_positive; [apply abs_finite|].
Qed.

Lemma found_significant : significant (digits ck.1).
Proof.
  pose proof found_positive. destruct Hck as [_ Hz]. apply digits_significant; lia.
Qed.

Lemma parts_finite :
  parts (float_text (S754_finite s m e) ck) =
  (s, (digits ck.1, Z.of_nat (length (digits ck.1)) + ck.2)).
Proof.
  pose proof found_significant as Hs.
  unfold parts, float_text. destruct s; cbn [app].
  - unfold unsign. rewrite Ascii.eqb_refl. by rewrite unlayout_layout.
  - destruct (layout_head _ Hs (Z.of_nat (length (digits ck.1)) + ck.2)) as (d & l & E & Hd).
    rewrite E, unsign_digit by done. rewrite <- E. by rewrite unlayout_layout.
Qed.

End Finite.

(** The texts of nan, the infinities and the zeros hold no digits of a
    decimal. *)
Lemma parts_special sf ck :
  (forall s m e, sf <> S754_finite s m e) ->
  ~ significant (parts (float_text sf ck)).2.1.
Proof.
  intros Hsf [Hd (c & l & Hh & _) _].
  destruct sf as [s| s| |s m e]; [| | |by destruct (Hsf s m e)]; cbn [float_text] in *.
  - by destruct s; vm_compute in Hh.
  - assert ((parts (list_ascii_of_string (if s then "-inf" else "inf"))).2.1
            = list_ascii_of_string "inf") as E by (by destruct s; vm_compute).
    rewrite E in Hd. apply Forall_cons in Hd as [Hi _].
    by destruct (is_digit_not _ Hi) as (_ & _ & _ & _ & _ & ?).
  - assert ((parts (list_ascii_of_string "nan")).2.1 = list_ascii_of_string "nan") as E
      by (by vm_compute).
    rewrite E in Hd. apply Forall_cons in Hd as [Hi _].
    by destruct (is_digit_not _ Hi) as (_ & _ & _ & _ & ? & _).
Qed.

Lemma special_text_inj sf1 sf2 ck1 ck2 :
  ~ is_finite sf1 -> ~ is_finite sf2 ->
  float_text sf1 ck1 = float_text sf2 ck2 -> sf1 = sf2.
Proof.
  intros H1 H2.
  destruct sf1 as [s1| s1| |s1 m1 e1]; [| | |destruct H1; by eexists _, _, _];
  (destruct sf2 as [s2| s2| |s2 m2 e2]; [| | |destruct H2; by eexists _, _, _]);
  cbn [float_text]; try destruct s1; try destruct s2; intros E; vm_compute in E;
    (discriminate || reflexivity).
Qed.

Lemma special_finite_text sf f s m e ck1 ck2 :
  ~ is_finite sf -> Prim2SF f = S754_finite s m e -> found (abs f) ck2 ->
  float_text sf ck1 <> float_text (S754_finite s m e) ck2.
Proof.
  intros H1 Hf Hck E. apply (f_equal (fun t => (parts t).2.1)) in E.
  rewrite (parts_finite _ _ _ _ _ Hf Hck) in E. cbn [fst snd] in E.
  eapply (parts_special sf ck1).
  - intros s' m' e' ->. apply H1. by eexists _, _, _.
  - rewrite E. by eapply found_significant.
Qed.

Lemma finite_text_inj f1 f2 s1 m1 e1 s2 m2 e2 ck1 ck2 :
  Prim2SF f1 = S754_finite s1 m1 e1 -> found (abs f1) ck1 ->
  Prim2SF f2 = S754_finite s2 m2 e2 -> found (abs f2) ck2 ->
  float_text (S754_finite s1 m1 e1) ck1 = float_text (S754_finite s2 m2 e2) ck2 ->
  S754_finite s1 m1 e1 = S754_finite s2 m2 e2.
Proof.
  intros E1 Hck1 E2 Hck2 E. apply (f_equal parts) in E.
  rewrite (parts_finite _ _ _ _ _ E1 Hck1), (parts_finite _ _ _ _ _ E2 Hck2) in E.
  injection E as -> Ed Ek.
  pose proof (found_positive _ _ _ _ _ E1 Hck1). pose proof (found_positive _ _ _ _ _ E2 Hck2).
  rewrite Ed in Ek. apply digits_inj in Ed; [|lia..].
  assert (ck1 = ck2) as -> by (destruct ck1, ck2; simpl in *; f_equal; lia).
  assert (abs f1 = abs f2) as Ea.
  { destruct Hck1 as [R1 _], Hck2 as [R2 _].
    eapply reads_as_inj; [by eapply abs_finite|by eapply abs_finite|done..]. }
  apply (f_equal Prim2SF) in Ea. rewrite !FloatAxioms.abs_spec, E1, E2 in Ea.
  by injection Ea as -> ->.
Qed.

Lemma finite_dec sf : is_finite sf \/ ~ is_finite sf.
Proof.
  destruct sf; try (right; intros (? & ? & ? & ?); discriminate). left. by eexists _, _, _.
Qed.

(** Two floats with one text are one float. *)
Lemma float_text_inj f1 f2 ck1 ck2 :
  decimal_for f1 ck1 -> decimal_for f2 ck2 ->
  float_text (Prim2SF f1) ck1 = float_text (Prim2SF f2) ck2 -> f1 = f2.
Proof.
  intros H1 H2 E. apply FloatAxioms.Prim2SF_inj.
  destruct (finite_dec (Prim2SF f1)) as [(s1 & m1 & e1 & E1)|N1],
           (finite_dec (Prim2SF f2)) as [(s2 & m2 & e2 & E2)|N2].
  - rewrite E1, E2 in *. eapply finite_text_inj; eauto.
  - exfalso. rewrite E1 in E. symmetry in E. revert E. eapply special_finite_text; eauto.
  - exfalso. rewrite E2 in E. revert E. eapply special_finite_text; eauto.
  - by eapply special_text_inj.
Qed.

(** [repr] tells any two floats apart. *)
Lemma float_repr_inj f1 f2 :
  round_trips f1 = true -> round_trips f2 = true ->
  float_repr f1 = float_repr f2 -> f1 = f2.
Proof.
  intros H1 H2 E. unfold float_repr in E.
  apply (f_equal list_ascii_of_string) in E.
  rewrite !list_ascii_of_string_of_list_ascii, !float_chars_text in E.
  eapply float_text_inj; [by apply round_trips_decimal..|done].
Qed.

(** The text of a float has a character that none of an int has. *)
Lemma float_text_mark sf ck :
  exists c, c ∈ float_text sf ck /\ ~ is_digit c /\ c <> "-"%char.
Proof.
  destruct sf as [s| s| |s m e]; cbn [float_text].
  - exists "."%char. split; [destruct s; vm_compute; set_solver|]. split; [apply not_digit_dot|done].
  - exists "i"%char. split; [destruct s; vm_compute; set_solver|]. split; [|done].
    intros H. by destruct (is_digit_not _ H) as (_ & _ & _ & _ & _ & ?).
  - exists "n"%char. split; [vm_compute; set_solver|]. split; [|done].
    intros H. by destruct (is_digit_not _ H) as (_ & _ & _ & _ & ? & _).
  - destruct (layout_mark (digits ck.1) (Z.of_nat (length (digits ck.1)) + ck.2)) as [H|H].
    + exists "."%char. split; [set_solver|]. split; [apply not_digit_dot|done].
    + exists "e"%char. split; [set_solver|]. split; [apply not_digit_e|done].
Qed.

Lemma chars_of_Z_plain z c : c ∈ chars_of_Z z -> is_digit c \/ c = "-"%char.
Proof.
  unfold chars_of_Z. destruct (z <? 0) eqn:Ez.
  - apply Z.ltb_lt in Ez. intros [->|H]%elem_of_cons; [by right|left].
    pose proof (digits_are_digits (- z)) as Hd. rewrite list.Forall_forall in Hd.
    apply Hd; [lia|done].
  - apply Z.ltb_ge in Ez. intros H. left.
    pose proof (digits_are_digits z Ez) as Hd. rewrite list.Forall_forall in Hd. by apply Hd.
Qed.

Lemma float_repr_not_int f z : float_repr f <> str_of_Z z.
Proof.
  unfold float_repr, str_of_Z. intros E.
  apply (f_equal list_ascii_of_string) in E.
  rewrite !list_ascii_of_string_of_list_ascii, float_chars_text in E.
  destruct (float_text_mark (Prim2SF f) (decimal_of f)) as (c & Hc & Hd & Hm).
  rewrite E in Hc. by apply chars_of_Z_plain in Hc as [?|?].
Qed.

End FloatFacts.
(* ===================================================================== *)
(** * Deduplication                                                       *)
(* ===================================================================== *)

Module DedupFacts.
Import Py ColesProductProcessor Notions.

Lemma keep_length {A} (flags : list bool) (l : list A) :
  length flags = length l ->
  (length (keep flags l) + length (keep (negb <$> flags) l))%nat = length l.
Proof.
  revert l. induction flags as [|b flags IH]; intros [|x l] Hlen; cbn in *; try lia.
  specialize (IH l ltac:(lia)). destruct b; cbn; lia.
Qed.

Lemma keep_perm {A} (flags : list bool) (l : list A) :
  length flags = length l ->
  keep flags l ++ keep (negb <$> flags) l ≡ₚ l.
Proof.
  revert l. induction flags as [|b flags IH]; intros [|x l] Hlen; cbn in *;
    try discriminate; [reflexivity|].
  specialize (IH l ltac:(lia)). destruct b; cbn.
  - by constructor.
  - rewrite <- Permutation_middle. by constructor.
Qed.

Lemma keep_snoc {A} (flags : list bool) (l : list A) b x :
  length flags = length l ->
  keep (flags ++ [b]) (l ++ [x]) = keep flags l ++ (if b then [x] else []).
Proof.
  revert l. induction flags as [|c flags IH]; intros [|y l] Hlen; cbn in *;
    try discriminate.
  - by destruct b.
  - rewrite IH by lia. by destruct c.
Qed.

(** Membership in a [set] is membership of the key, nan apart. *)
Lemma set_contains_spec (s : pyset) (k : hkey) :
  set_contains s k = true <-> k <> KNaN /\ k ∈ s.
Proof.
  unfold set_contains. rewrite existsb_exists. split.
  - intros (k' & Hin & Heq). unfold key_eqb in Heq.
    destruct k; try discriminate; apply bool_decide_eq_true in Heq;
      rewrite <- Heq in Hin; (split; [discriminate | by apply list_elem_of_In]).
  - intros [Hnan Hin]. exists k. split; [by apply list_elem_of_In|].
    unfold key_eqb. destruct k; try done; by apply bool_decide_eq_true.
Qed.

Lemma classify_length seen keys : length (classify seen keys) = length keys.
Proof. revert seen. induction keys; intros; simpl; auto. Qed.

Lemma classify_ext seen seen' keys :
  (forall k, set_contains seen k = set_contains seen' k) ->
  classify seen keys = classify seen' keys.
Proof.
  revert seen seen'. induction keys as [|k keys IH]; intros seen seen' Hext; simpl; [done|].
  rewrite (Hext k). f_equal. apply IH. intros k'.
  destruct (set_contains seen' k) eqn:Hk; simpl; [apply Hext|].
  unfold set_add, set_contains in *. simpl. by rewrite Hext.
Qed.


Lemma set_contains_add_seen seen k k' :
  set_contains seen k = true ->
  set_contains (set_add seen k) k' = set_contains seen k'.
Proof.
  intros Hk. apply eq_true_iff_eq. rewrite !set_contains_spec.
  apply set_contains_spec in Hk as [_ Hin]. unfold set_add.
  rewrite elem_of_cons. naive_solver.
Qed.

(** A record is flagged fresh exactly when its key is in none of the
    keys before it (and not in the keys the loop started from). *)
Lemma classify_lookup seen keys i k :
  keys !! i = Some k ->
  classify seen keys !! i = Some (negb (set_contains (take i keys ++ seen) k)).
Proof.
  revert seen i. induction keys as [|k0 keys IH]; intros seen i Hi; [done|].
  destruct i as [|i]; simpl in *.
  - by inversion Hi; subst.
  - rewrite (IH _ _ Hi). do 2 f_equal.
    apply eq_true_iff_eq. rewrite !set_contains_spec.
    destruct (set_contains seen k0) eqn:Hk0; simpl.
    + apply set_contains_spec in Hk0 as [_ Hin].
      repeat (rewrite elem_of_cons || rewrite elem_of_app). naive_solver.
    + unfold set_add. repeat (rewrite elem_of_cons || rewrite elem_of_app). naive_solver.
Qed.

(** One turn of the loop, in terms of the record's key. *)
Lemma dedup_step_key st product :
  dedup_step st product =
  let* k := dedup_key product in
  Ok (if set_contains (seen_ids st) k
      then {| seen_ids := seen_ids st;
              unique_products := unique_products st;
              duplicate_products := duplicate_products st ++ [product] |}
      else {| seen_ids := set_add (seen_ids st) k;
              unique_products := unique_products st ++ [product];
              duplicate_products := duplicate_products st |}).
Proof.
  unfold dedup_step, dedup_key, py_in.
  destruct (truthy (get product "id" (VStr ""))) eqn:Ht; simpl.
  - destruct (hash_key (get product "id" (VStr ""))) as [k|e]; simpl; [|done].
    by destruct (set_contains (seen_ids st) k).
  - by destruct (set_contains (seen_ids st) (KStr (pseudo_id product))).
Qed.

Lemma dedup_key_hashable product :
  hashable_id product -> exists k, dedup_key product = Ok k.
Proof.
  unfold hashable_id, dedup_key. intros H.
  destruct (get product "id" (VStr "")) as [| | | | |[|x l]] eqn:E; simpl; eauto.
  - destruct b; eauto.
  - destruct (negb (z =? 0)); eauto.
  - destruct (negb (f =? 0)%float); eauto.
  - destruct (negb (String.eqb s "")); eauto.
  - by destruct (H x l).
Qed.

Lemma dedup_key_returns_hashable product k :
  dedup_key product = Ok k -> hashable_id product.
Proof.
  unfold hashable_id, dedup_key. intros H x l E. rewrite E in H. discriminate.
Qed.

Lemma keys_of_hashable products :
  Forall hashable_id products -> exists keys, keys_of products = Ok keys.
Proof.
  induction 1 as [|p rest Hp _ [keys IH]]; simpl; [eauto|].
  destruct (dedup_key_hashable p Hp) as [k ->]. rewrite IH. simpl. eauto.
Qed.

Lemma keys_of_length products keys :
  keys_of products = Ok keys -> length keys = length products.
Proof.
  revert keys. induction products as [|p rest IH]; intros keys; simpl.
  - by intros [= <-].
  - destruct (dedup_key p); simpl; [|done].
    destruct (keys_of rest); simpl; [|done].
    intros [= <-]. simpl. f_equal. by apply IH.
Qed.

Lemma keys_of_lookup products keys i p :
  keys_of products = Ok keys -> products !! i = Some p ->
  exists k, keys !! i = Some k /\ dedup_key p = Ok k.
Proof.
  revert keys i. induction products as [|p0 rest IH]; intros keys i; simpl; [done|].
  destruct (dedup_key p0) eqn:Hk; simpl; [|done].
  destruct (keys_of rest); simpl; [|done].
  intros [= <-]. destruct i; simpl.
  - intros [= <-]. eauto.
  - by apply IH.
Qed.

(** The loop, in terms of the flags. *)
Lemma dedup_loop_spec products : forall st keys,
  keys_of products = Ok keys ->
  dedup_loop st products =
  Ok {| seen_ids := seen_ids
          (fold_left (fun st k => {| seen_ids := if set_contains (seen_ids st) k
                                                then seen_ids st else set_add (seen_ids st) k;
                                     unique_products := []; duplicate_products := [] |})
             keys {| seen_ids := seen_ids st; unique_products := [];
                     duplicate_products := [] |});
        unique_products := unique_products st ++ keep (classify (seen_ids st) keys) products;
        duplicate_products :=
          duplicate_products st ++ keep (negb <$> classify (seen_ids st) keys) products |}.
Proof.
  induction products as [|p rest IH]; intros st keys; simpl.
  - intros [= <-]. simpl. rewrite !app_nil_r. by destruct st.
  - destruct (dedup_key p) as [k|] eqn:Hk; simpl; [|done].
    destruct (keys_of rest) as [ks|] eqn:Hks; simpl; [|done].
    intros [= <-]. rewrite dedup_step_key, Hk. simpl.
    rewrite (IH _ ks eq_refl). simpl.
    destruct (set_contains (seen_ids st) k); simpl; by rewrite <- ?app_assoc.
Qed.

Lemma dedup_loop_raises products : forall st,
  (exists e, keys_of products = Raise e) -> exists e, dedup_loop st products = Raise e.
Proof.
  induction products as [|p rest IH]; intros st [e He]; simpl in *; [done|].
  rewrite dedup_step_key.
  destruct (dedup_key p) as [k|] eqn:Hk; simpl in *; [|eauto].
  destruct (keys_of rest) eqn:Hks; simpl in *; [done|]. apply IH. eauto.
Qed.

End DedupFacts.

(* ===================================================================== *)
(** * Canonicalisation, step by step                                      *)
(* ===================================================================== *)

Module ProcessFacts.
Import Py ColesProductProcessor Notions TextFacts.

Lemma same_but_refl ks d : same_but ks d d.
Proof. by intros k _. Qed.

Lemma same_but_insert ks d k v : k ∈ ks -> same_but ks d (<[k := v]> d).
Proof.
  intros Hk k' Hk'. apply lookup_insert_ne. intros ->. done.
Qed.

Lemma same_but_trans ks d1 d2 d3 :
  same_but ks d1 d2 -> same_but ks d2 d3 -> same_but ks d1 d3.
Proof. intros H1 H2 k Hk. by rewrite H2, H1. Qed.

Lemma same_but_mono ks ks' d d' : ks ⊆ ks' -> same_but ks d d' -> same_but ks' d d'.
Proof. intros Hs H k Hk. apply H. set_solver. Qed.

Lemma same_but_get ks d d' k dflt :
  same_but ks d d' -> k ∉ ks -> get d' k dflt = get d k dflt.
Proof. intros H Hk. unfold get. by rewrite H. Qed.

(** The outcomes of each step. *)

Lemma derive_id_cases product product' :
  derive_id product = Ok product' ->
  product' = product \/
  (truthy (get product "id" VNone) = false /\
   exists url digits,
     product !! "url" = Some (VStr url) /\ Re.search_url_id url = Some digits /\
     product' = <["id" := VStr digits]> product).
Proof.
  unfold derive_id.
  destruct (truthy (get product "id" VNone)) eqn:Hid; simpl; [intros [= <-]; by left|].
  destruct (truthy (get product "url" VNone)) eqn:Hurl; simpl; [|intros [= <-]; by left].
  unfold get in *. destruct (product !! "url") as [[]|] eqn:E; simpl in *; try done.
  destruct (Re.search_url_id s) as [digits|] eqn:Hs; intros [= <-]; [|by left].
  right. split; [done|]. eauto.
Qed.

Lemma clean_unit_price_cases product product' unit_price :
  clean_unit_price product = Ok (product', unit_price) ->
  (truthy unit_price = false /\ product' = product /\
   unit_price = get product "unit_price" (VStr "")) \/
  (exists u, product !! "unit_price" = Some (VStr u) /\ u <> EmptyString /\
     unit_price = VStr (strip (split_first "|" u)) /\
     product' = <["unit_price" := unit_price]> product).
Proof.
  unfold clean_unit_price.
  destruct (truthy (get product "unit_price" (VStr ""))) eqn:Ht; simpl.
  - unfold get in *. destruct (product !! "unit_price") as [[]|] eqn:E; simpl in *; try done.
    intros [= <- <-]. right. exists s. split; [done|]. split; [|done].
    by apply nonempty_true.
  - intros [= <- <-]. by left.
Qed.

Lemma extract_rate_cases product unit_price :
  extract_rate product unit_price = product \/
  (exists u num unit rate_value,
     unit_price = VStr u /\ Re.search_rate u = Some (num, unit) /\
     float_of_decimal num = Ok rate_value /\
     extract_rate product unit_price =
       <["rate_unit" := VStr (lower unit)]> (<["rate_value" := VFloat rate_value]> product)).
Proof.
  unfold extract_rate. destruct (truthy unit_price); [|by left].
  destruct unit_price; try by left.
  destruct (Re.search_rate s) as [[num unit]|] eqn:Hs; [|by left].
  destruct (float_of_decimal num) as [r|] eqn:Hf; [|by left].
  right. by exists s, num, unit, r.
Qed.

Lemma parse_special_cases product product' :
  parse_special product = Ok product' ->
  (truthy (get product "special_text" (VStr "")) = false /\
   product' = <["is_on_special" := VBool false]> product) \/
  (exists s, product !! "special_text" = Some (VStr s) /\ s <> EmptyString /\
     product' = <["special_text" := VStr (strip s)]>
                  (<["is_on_special" := VBool true]> product)).
Proof.
  unfold parse_special.
  destruct (truthy (get product "special_text" (VStr ""))) eqn:Ht; simpl.
  - unfold get in *. destruct (product !! "special_text") as [[]|] eqn:E; simpl in *; try done.
    intros [= <-]. right. exists s. split; [done|]. split; [|done].
    by apply nonempty_true.
  - intros [= <-]. by left.
Qed.

Lemma derive_save_value_cases product product' :
  derive_save_value product = Ok product' ->
  (save_due product = Ok false /\ product' = product) \/
  (save_due product = Ok true /\
   exists v, saving product = Ok v /\ product' = <["save_value" := v]> product).
Proof.
  unfold derive_save_value.
  destruct (save_due product) as [[]|]; simpl; try done.
  - destruct (saving product) as [v|]; simpl; [|done].
    intros [= <-]. right. eauto.
  - intros [= <-]. by left.
Qed.

(** The keys each step may write. *)

Lemma derive_id_frame product product' :
  derive_id product = Ok product' -> same_but ["id"] product product'.
Proof.
  intros [->|(_ & url & digits & _ & _ & ->)]%derive_id_cases.
  - apply same_but_refl.
  - apply same_but_insert. decided.
Qed.

Lemma clean_unit_price_frame product product' unit_price :
  clean_unit_price product = Ok (product', unit_price) ->
  same_but ["unit_price"] product product'.
Proof.
  intros [(_ & -> & _)|(u & _ & _ & _ & ->)]%clean_unit_price_cases.
  - apply same_but_refl.
  - apply same_but_insert. decided.
Qed.

Lemma extract_rate_frame product unit_price :
  same_but ["rate_value"; "rate_unit"] product (extract_rate product unit_price).
Proof.
  destruct (extract_rate_cases product unit_price) as [->|(u & num & unit & r & _ & _ & _ & ->)].
  - apply same_but_refl.
  - eapply same_but_trans; apply same_but_insert; decided.
Qed.

Lemma parse_special_frame product product' :
  parse_special product = Ok product' ->
  same_but ["is_on_special"; "special_text"] product product'.
Proof.
  intros [(_ & ->)|(s & _ & _ & ->)]%parse_special_cases.
  - apply same_but_insert. decided.
  - eapply same_but_trans; apply same_but_insert; decided.
Qed.

Lemma derive_save_value_frame product product' :
  derive_save_value product = Ok product' -> same_but ["save_value"] product product'.
Proof.
  intros [(_ & ->)|(_ & v & _ & ->)]%derive_save_value_cases.
  - apply same_but_refl.
  - apply same_but_insert. decided.
Qed.

(** [canonicalize], unfolded into its steps. *)
Lemma canonicalize_steps now product product' processed :
  canonicalize now product = Ok (product', processed) ->
  exists p1 p3 unit_price p5 raw,
    derive_id product = Ok p1 /\
    clean_unit_price (<["vendor" := VStr "coles"]> p1) = Ok (p3, unit_price) /\
    parse_special (extract_rate p3 unit_price) = Ok p5 /\
    derive_save_value p5 = Ok product' /\
    cleaned product' now = Ok raw /\
    processed = drop_none raw.
Proof.
  unfold canonicalize.
  destruct (derive_id product) as [p1|] eqn:H1; simpl; [|done].
  destruct (clean_unit_price _) as [[p3 unit_price]|] eqn:H3; simpl; [|done].
  destruct (parse_special _) as [p5|] eqn:H5; simpl; [|done].
  destruct (derive_save_value p5) as [p6|] eqn:H6; simpl; [|done].
  destruct (cleaned p6 now) as [raw|] eqn:H7; simpl; [|done].
  intros [= <- <-]. by exists p1, p3, unit_price, p5, raw.
Qed.

Lemma drop_none_lookup (d : dict) k :
  drop_none d !! k =
  match d !! k with
  | Some v => if is_none v then None else Some v
  | None => None
  end.
Proof.
  unfold drop_none. rewrite map_lookup_filter.
  destruct (d !! k) as [v|]; simpl; [|done].
  case_guard as Hg; simpl in Hg; by rewrite ?Hg; destruct (is_none v).
Qed.

Lemma canonicalize_frames now product product' processed :
  canonicalize now product = Ok (product', processed) ->
  exists p5, same_but early_keys product p5 /\ derive_save_value p5 = Ok product' /\
    same_but ("save_value" :: early_keys) product product'.
Proof.
  intros (p1 & p3 & u & p5 & raw & H1 & H3 & H5 & H6 & _)%canonicalize_steps.
  assert (same_but early_keys product p5) as Hf.
  { eapply same_but_trans; [eapply same_but_mono; [|exact (derive_id_frame _ _ H1)]; decided|].
    eapply same_but_trans; [apply (same_but_insert _ _ "vendor"); decided|].
    eapply same_but_trans;
      [eapply same_but_mono; [|exact (clean_unit_price_frame _ _ _ H3)]; decided|].
    eapply same_but_trans;
      [eapply same_but_mono; [|exact (extract_rate_frame _ u)]; decided|].
    eapply same_but_mono; [|exact (parse_special_frame _ _ H5)]. decided. }
  exists p5. split; [done|]. split; [done|].
  eapply same_but_trans; [eapply same_but_mono; [|exact Hf]; decided|].
  eapply same_but_mono; [|exact (derive_save_value_frame _ _ H6)]. decided.
Qed.

Lemma cleaned_cases product now raw :
  cleaned product now = Ok raw ->
  exists t, get product "title" (VStr "") = VStr t /\
    raw = list_to_map
        [ ("id", get product "id" (VStr ""));
          ("title", VStr (strip t));
          ("price_value", get product "price_value" (VFloat 0));
          ("was_price_value", get product "was_price_value" (VFloat 0));
          ("save_value", get product "save_value" (VFloat 0));
          ("unit_price", get product "unit_price" (VStr ""));
          ("url", get product "url" (VStr ""));
          ("image_url", get product "image_url" (VStr ""));
          ("category", get product "category" (VStr ""));
          ("page", get product "page" (VInt 0));
          ("vendor", VStr "coles");
          ("is_on_special", get product "is_on_special" (VBool false));
          ("special_text", get product "special_text" (VStr ""));
          ("rate_value", get product "rate_value" (VFloat 0));
          ("rate_unit", get product "rate_unit" (VStr ""));
          ("scrapedAt", get product "scrapedAt" (VStr now)) ].
Proof.
  unfold cleaned. destruct (get product "title" (VStr "")); cbv [bind]; try discriminate.
  intros [= <-]. eauto.
Qed.

Lemma save_due_same d d' :
  same_but early_keys d d' -> save_due d' = save_due d /\ saving d' = saving d.
Proof.
  intros H. unfold save_due, saving.
  rewrite !(same_but_get _ _ _ _ _ H); [done|..]; unfold early_keys; decided.
Qed.

Lemma round2_not_none d v : round2 d = Ok v -> is_none v = false.
Proof. destruct d; simpl; try done; by intros [= <-]. Qed.

Lemma save_due_true product :
  save_due product = Ok true <->
  eq_zero (get product "save_value" (VFloat 0)) = true /\
  gt_zero (get product "was_price_value" (VFloat 0)) = Ok true /\
  gt_zero (get product "price_value" (VFloat 0)) = Ok true.
Proof.
  unfold save_due.
  destruct (eq_zero _); simpl; [|naive_solver].
  destruct (gt_zero (get product "was_price_value" _)) as [[]|]; simpl; naive_solver.
Qed.

End ProcessFacts.

(* ===================================================================== *)
(** * Well-typed records raise nothing                                    *)
(* ===================================================================== *)

Module ReturnFacts.
Import Py ColesProductProcessor Notions TextFacts ProcessFacts.

Lemma text_field_truthy (d : dict) k dflt :
  text_field (d !! k) -> truthy (get d k dflt) = true ->
  (exists s, d !! k = Some (VStr s)) \/ d !! k = None.
Proof.
  unfold get. destruct (d !! k) as [[]|]; simpl; try done; eauto.
Qed.

Lemma derive_id_returns product :
  text_field (product !! "url") -> exists p1, derive_id product = Ok p1.
Proof.
  intros Hu. unfold derive_id.
  destruct (negb _ && truthy (get product "url" VNone)) eqn:Hc; [|eauto].
  apply andb_true_iff in Hc as [_ Hc].
  destruct (text_field_truthy _ _ _ Hu Hc) as [[s E]|E]; unfold get in *; rewrite E in *;
    [|done].
  simpl. destruct (Re.search_url_id s); eauto.
Qed.

Lemma clean_unit_price_returns product :
  text_field (product !! "unit_price") ->
  exists p3 u, clean_unit_price product = Ok (p3, u).
Proof.
  intros Hu. unfold clean_unit_price.
  destruct (truthy (get product "unit_price" (VStr ""))) eqn:Hc; [|eauto].
  destruct (text_field_truthy _ _ _ Hu Hc) as [[s E]|E]; unfold get in *; rewrite E in *;
    simpl; eauto.
Qed.

Lemma parse_special_returns product :
  text_field (product !! "special_text") -> exists p5, parse_special product = Ok p5.
Proof.
  intros Hu. unfold parse_special.
  destruct (truthy (get product "special_text" (VStr ""))) eqn:Hc; [|eauto].
  destruct (text_field_truthy _ _ _ Hu Hc) as [[s E]|E]; unfold get in *; rewrite E in *;
    simpl; eauto.
Qed.

Lemma amount_field_get (d : dict) k :
  amount_field (d !! k) -> amount (get d k (VFloat 0)).
Proof.
  unfold get. destruct (d !! k) as [[]|]; simpl; try done; try constructor.
  intros [f Hf]. by econstructor.
Qed.

Lemma gt_zero_amount v : amount v -> exists b, gt_zero v = Ok b.
Proof. destruct 1; simpl; eauto. Qed.

Lemma sub_amount a b : amount a -> amount b -> exists d, sub a b = Ok d /\ is_number d = true.
Proof.
  destruct 1 as [f|z f Hf], 1 as [g|y g Hg]; unfold sub; simpl; rewrite ?Hf, ?Hg; simpl; eauto.
Qed.

Lemma round2_number d : is_number d = true -> exists v, round2 d = Ok v.
Proof. destruct d; simpl; try done; eauto. Qed.

Lemma derive_save_value_returns product :
  amount_field (product !! "was_price_value") ->
  amount_field (product !! "price_value") ->
  exists p6, derive_save_value product = Ok p6.
Proof.
  intros Hw%amount_field_get Hp%amount_field_get.
  unfold derive_save_value, save_due, saving.
  destruct (gt_zero_amount _ Hw) as [bw Ew], (gt_zero_amount _ Hp) as [bp Ep].
  destruct (sub_amount _ _ Hw Hp) as (d & Ed & Hd).
  destruct (round2_number _ Hd) as [v Ev].
  rewrite Ew, Ep, Ed. simpl. rewrite Ev.
  destruct (eq_zero _); simpl; [|eauto].
  destruct bw; simpl; [|eauto]. destruct bp; simpl; eauto.
Qed.

Lemma cleaned_returns product now :
  text_field (product !! "title") -> rejected product = false ->
  exists raw, cleaned product now = Ok raw.
Proof.
  intros Ht Hr. unfold rejected in Hr. apply negb_false_iff in Hr.
  unfold cleaned.
  destruct (text_field_truthy _ _ _ Ht Hr) as [[s E]|E]; unfold get in *; rewrite E in *;
    cbv [bind default]; [eauto|done].
Qed.

(** A well-typed record that has a title is canonicalised without a
    fault, and the id of the result is a [str] if it has one. *)
Lemma canonicalize_returns now product :
  typed product -> rejected product = false ->
  exists product' processed,
    canonicalize now product = Ok (product', processed) /\
    text_field (processed !! "id").
Proof.
  intros [Hid Htitle Hurl Hunit Hspecial Hwas Hprice] Hrej.
  destruct (derive_id_returns product Hurl) as [p1 H1].
  pose proof (derive_id_frame _ _ H1) as F1.
  set (p2 := <["vendor" := VStr "coles"]> p1).
  assert (same_but ["id"; "vendor"] product p2) as F2.
  { eapply same_but_trans; [eapply same_but_mono; [|exact F1]; decided|].
    apply same_but_insert. decided. }
  destruct (clean_unit_price_returns p2) as (p3 & u & H3).
  { rewrite (F2 "unit_price"); [done|decided]. }
  pose proof (clean_unit_price_frame _ _ _ H3) as F3.
  pose proof (extract_rate_frame p3 u) as F4.
  set (p4 := extract_rate p3 u) in *.
  assert (same_but ["id"; "vendor"; "unit_price"; "rate_value"; "rate_unit"] product p4) as F4'.
  { eapply same_but_trans; [eapply same_but_mono; [|exact F2]; decided|].
    eapply same_but_trans; [eapply same_but_mono; [|exact F3]; decided|].
    eapply same_but_mono; [|exact F4]. decided. }
  destruct (parse_special_returns p4) as [p5 H5].
  { rewrite (F4' "special_text"); [done|decided]. }
  pose proof (parse_special_frame _ _ H5) as F5.
  assert (same_but early_keys product p5) as F5'.
  { eapply same_but_trans; [eapply same_but_mono; [|exact F4']; unfold early_keys; decided|].
    eapply same_but_mono; [|exact F5]. unfold early_keys; decided. }
  destruct (derive_save_value_returns p5) as [p6 H6].
  { rewrite (F5' "was_price_value"); [done|unfold early_keys; decided]. }
  { rewrite (F5' "price_value"); [done|unfold early_keys; decided]. }
  pose proof (derive_save_value_frame _ _ H6) as F6.
  assert (same_but ("save_value" :: early_keys) product p6) as F6'.
  { eapply same_but_trans; [eapply same_but_mono; [|exact F5']; decided|].
    eapply same_but_mono; [|exact F6]. decided. }
  destruct (cleaned_returns p6 now) as [raw H7].
  { rewrite (F6' "title"); [done|unfold early_keys; decided]. }
  { unfold rejected, get in *. rewrite (F6' "title"); [done|unfold early_keys; decided]. }
  exists p6, (drop_none raw). split.
  - unfold canonicalize. rewrite H1. simpl. fold p2. rewrite H3. simpl. fold p4.
    rewrite H5. simpl. rewrite H6. simpl. by rewrite H7.
  - apply cleaned_cases in H7 as (t & _ & ->). rewrite drop_none_lookup.
    change (_ !! "id") with (Some (get p6 "id" (VStr ""))).
    assert (text_field (p6 !! "id")) as Hid6.
    { assert (p6 !! "id" = p1 !! "id") as ->.
      { rewrite (F6 "id"), (F5 "id"), (F4 "id"), (F3 "id") by decided.
        unfold p2. by rewrite lookup_insert_ne. }
      apply derive_id_cases in H1 as [->|(_ & url & digits & _ & _ & ->)]; [done|].
      by rewrite lookup_insert_eq. }
    unfold get. by destruct (p6 !! "id") as [[]|].
Qed.

Lemma process_one_returns now product :
  typed product ->
  exists product' out,
    process_one now product = Ok (product', out) /\
    forall processed, out = Some processed -> text_field (processed !! "id").
Proof.
  intros Ht. unfold process_one. destruct (rejected product) eqn:Hr.
  - eexists _, _. split; [done|]. intros ? [=].
  - destruct (canonicalize_returns now _ Ht Hr) as (p' & o & -> & Hid). simpl.
    eexists _, _. split; [done|]. by intros ? [= <-].
Qed.

Lemma process_from_returns clock products : forall i,
  Forall typed products ->
  exists products' processed,
    process_from clock i products = Ok (products', processed) /\
    Forall (fun p : dict => text_field (p !! "id")) processed.
Proof.
  induction products as [|p rest IH]; intros i Ht; simpl.
  - eexists _, _. split; [done|]. constructor.
  - inversion Ht as [|? ? Hp Hrest]; subst.
    destruct (process_one_returns (clock i) p Hp) as (p' & o & -> & Hid). simpl.
    destruct (IH (S i) Hrest) as (ps' & os & -> & Hos). simpl.
    eexists _, _. split; [done|]. destruct o; [constructor; auto|done].
Qed.


End ReturnFacts.

(* ===================================================================== *)
(** * Cross-category duplicates                                           *)
(* ===================================================================== *)

Module CrossFacts.
Import Py ColesProductProcessor Notions.

Lemma key_eqb_true a b : key_eqb a b = true <-> a = b /\ a <> KNaN.
Proof.
  unfold key_eqb. destruct a; rewrite ?bool_decide_eq_true; naive_solver.
Qed.

Lemma key_eqb_false a b : key_eqb a b = false <-> a <> b \/ a = KNaN.
Proof.
  destruct (key_eqb a b) eqn:E.
  - apply key_eqb_true in E. naive_solver.
  - split; [|done]. intros _. destruct (decide (a = KNaN)); [by right|left].
    intros ->. assert (key_eqb b b = true) by (apply key_eqb_true; done). congruence.
Qed.

(** The loop over the mapping is the loop over its pairs. *)
Lemma group_category_pairs category products : forall groups,
  group_category category groups products =
  group_pairs groups ((fun product => (category, product)) <$> products).
Proof.
  induction products as [|p rest IH]; intros groups; simpl; [done|].
  destruct (group_product category groups p); simpl; [apply IH|done].
Qed.

Lemma group_pairs_app l1 l2 : forall groups,
  group_pairs groups (l1 ++ l2) =
  let* groups := group_pairs groups l1 in group_pairs groups l2.
Proof.
  induction l1 as [|[c p] l1 IH]; intros groups; simpl; [done|].
  destruct (group_product c groups p); simpl; [apply IH|done].
Qed.

Lemma group_all_pairs items : forall groups,
  group_all groups items = group_pairs groups (all_pairs items).
Proof.
  induction items as [|[c ps] rest IH]; intros groups; simpl; [done|].
  unfold all_pairs. simpl. rewrite group_pairs_app, group_category_pairs.
  destruct (group_pairs groups _); simpl; [apply IH|done].
Qed.

Lemma group_append_cases k product_id pair groups :
  (k <> KNaN /\ exists l1 g l2,
     groups = l1 ++ g :: l2 /\ group_key g = k /\
     group_append k product_id pair groups = l1 ++ extended g pair :: l2) \/
  ((k = KNaN \/ k ∉ group_key <$> groups) /\
   group_append k product_id pair groups = groups ++ [opened k product_id pair]).
Proof.
  induction groups as [|g groups IH]; simpl.
  - right. split; [|done]. right. set_solver.
  - destruct (key_eqb k (group_key g)) eqn:E.
    + apply key_eqb_true in E as [-> Hn]. left. split; [done|].
      by exists [], g, groups.
    + apply key_eqb_false in E.
      destruct IH as [(Hn & l1 & g' & l2 & -> & Hk & ->)|[Hc ->]].
      * left. split; [done|]. by exists (g :: l1), g', l2.
      * right. split; [|done]. destruct Hc as [Hc|Hc]; [by left|].
        destruct E as [E|E]; [right|by left]. set_solver.
Qed.


Lemma pairs_with_snoc k done cp :
  pairs_with k (done ++ [cp]) =
  pairs_with k done ++ (if decide (id_key cp.2 = Some k) then [cp] else []).
Proof.
  unfold pairs_with. by rewrite filter_app.
Qed.

Lemma group_keys_app l1 l2 : group_keys (l1 ++ l2) = group_keys l1 ++ group_keys l2.
Proof. unfold group_keys. by rewrite fmap_app, filter_app. Qed.

Lemma elem_of_group_keys k groups :
  k ∈ group_keys groups <-> k <> KNaN /\ k ∈ group_key <$> groups.
Proof. unfold group_keys. by rewrite list_elem_of_filter. Qed.

Lemma grouped_nil : grouped [] [].
Proof.
  split; try (intros g Hg; by apply not_elem_of_nil in Hg).
  - constructor.
  - intros k _ H. by destruct H.
Qed.

Lemma grouped_skip groups done cp :
  id_key cp.2 = None -> grouped groups done -> grouped groups (done ++ [cp]).
Proof.
  intros Hk [H1 H2 H3 H4 H5].
  assert (forall k, pairs_with k (done ++ [cp]) = pairs_with k done) as E.
  { intros k. rewrite pairs_with_snoc, Hk. rewrite decide_False by done. apply app_nil_r. }
  split; auto.
  - intros g Hg Hn. rewrite E. auto.
  - intros k Hn. rewrite E. auto.
Qed.

Lemma grouped_extend l1 g l2 done cp :
  id_key cp.2 = Some (group_key g) -> group_key g <> KNaN ->
  grouped (l1 ++ g :: l2) done ->
  grouped (l1 ++ extended g cp :: l2) (done ++ [cp]).
Proof.
  intros Hk Hn [H1 H2 H3 H4 H5].
  assert (group_key <$> (l1 ++ extended g cp :: l2) = group_key <$> (l1 ++ g :: l2)) as Ekeys.
  { by rewrite !fmap_app, !fmap_cons. }
  assert (forall g', g' ∈ l1 ++ l2 -> group_key g' <> KNaN -> group_key g' <> group_key g)
    as Hother.
  { intros g' Hg' Hn' E.
    rewrite group_keys_app in H2. unfold group_keys at 2 in H2.
    rewrite fmap_cons, filter_cons in H2. rewrite decide_True in H2 by done.
    apply NoDup_app in H2 as (_ & Hd & Hnd). apply NoDup_cons in Hnd as [Hnd _].
    apply elem_of_app in Hg' as [Hg'|Hg'].
    - apply (Hd (group_key g)); [|left].
      apply elem_of_group_keys. split; [done|]. rewrite <- E. by apply list_elem_of_fmap_2.
    - apply Hnd. apply list_elem_of_filter. split; [done|].
      rewrite <- E. by apply list_elem_of_fmap_2. }
  assert (forall g', g' ∈ l1 ++ extended g cp :: l2 ->
            g' = extended g cp \/ (g' ∈ l1 ++ g :: l2 /\ g' ∈ l1 ++ l2)) as Hin.
  { intros g'. rewrite !elem_of_app, !elem_of_cons. naive_solver. }
  split.
  - intros g' [->|[Hg' _]]%Hin; [simpl; apply H1; set_solver|by apply H1].
  - unfold group_keys. by rewrite Ekeys.
  - intros g' [->|[Hg' Ho]]%Hin Hn'; simpl.
    + rewrite pairs_with_snoc, decide_True by done. f_equal. apply H3; [set_solver|done].
    + rewrite pairs_with_snoc, decide_False, app_nil_r; [by apply H3|].
      rewrite Hk. intros [= E]. by apply (Hother g').
  - intros g' [->|[Hg' _]]%Hin Hn'; [done|by apply H4].
  - intros k Hn'. rewrite Ekeys, pairs_with_snoc. case_decide as Hd.
    + intros _. rewrite Hk in Hd. injection Hd as <-. set_solver.
    + rewrite app_nil_r. by apply H5.
Qed.

Lemma grouped_open groups done cp product_id k :
  id_key cp.2 = Some k -> truthy product_id = true -> hash_key product_id = Ok k ->
  k = KNaN \/ k ∉ group_key <$> groups ->
  grouped groups done ->
  grouped (groups ++ [opened k product_id cp]) (done ++ [cp]).
Proof.
  intros Hk Ht Hh Hfresh [H1 H2 H3 H4 H5].
  assert (forall g, g ∈ groups -> group_key g <> KNaN -> group_key g <> k) as Hother.
  { intros g Hg Hn E. destruct Hfresh as [->|Hf]; [done|].
    apply Hf. rewrite <- E. by apply list_elem_of_fmap_2. }
  split.
  - intros g [Hg| ->%list_elem_of_singleton]%elem_of_app; [by apply H1|done].
  - rewrite group_keys_app. apply NoDup_app. split; [done|]. split.
    + intros k' Hk' Hin. unfold group_keys in Hin. simpl in Hin.
      rewrite filter_cons, filter_nil in Hin. case_decide; [|by apply not_elem_of_nil in Hin].
      apply list_elem_of_singleton in Hin as ->.
      apply elem_of_group_keys in Hk' as [_ Hk']. destruct Hfresh; done.
    + unfold group_keys. simpl. rewrite filter_cons, filter_nil.
      case_decide; [apply NoDup_singleton|constructor].
  - intros g [Hg| ->%list_elem_of_singleton]%elem_of_app Hn; simpl.
    + rewrite pairs_with_snoc, decide_False, app_nil_r; [by apply H3|].
      rewrite Hk. intros [= E]. by apply (Hother g).
    + simpl in Hn. rewrite pairs_with_snoc, decide_True by done.
      destruct (pairs_with k done) eqn:E; [done|].
      destruct Hfresh as [->|Hf]; [done|]. destruct Hf. apply H5; [done|]. by rewrite E.
  - intros g [Hg| ->%list_elem_of_singleton]%elem_of_app Hn; [by apply H4|done].
  - intros k' Hn. rewrite fmap_app, elem_of_app, pairs_with_snoc. case_decide as Hd.
    + intros _. rewrite Hk in Hd. injection Hd as <-. right. simpl. set_solver.
    + rewrite app_nil_r. intros. left. by apply H5.
Qed.

Lemma id_key_none (p : dict) : truthy (get p "id" VNone) = false -> id_key p = None.
Proof. unfold id_key. by intros ->. Qed.

Lemma id_key_some (p : dict) k :
  truthy (get p "id" VNone) = true -> hash_key (get p "id" VNone) = Ok k -> id_key p = Some k.
Proof. unfold id_key. by intros -> ->. Qed.

Lemma hash_key_returns (p : dict) :
  hashable_get_id p -> truthy (get p "id" VNone) = true ->
  exists k, hash_key (get p "id" VNone) = Ok k.
Proof.
  unfold hashable_get_id. intros H Ht.
  destruct (get p "id" VNone) as [| | | | |[|x l]]; simpl in *; try done; eauto.
  by destruct (H x l).
Qed.

(** One turn of the grouping loop keeps the invariant. *)
Lemma group_product_grouped category groups done product :
  hashable_get_id product -> grouped groups done ->
  exists groups', group_product category groups product = Ok groups' /\
    grouped groups' (done ++ [(category, product)]).
Proof.
  intros Hh Hg. unfold group_product.
  destruct (truthy (get product "id" VNone)) eqn:Ht.
  - destruct (hash_key_returns _ Hh Ht) as [k Hk]. rewrite Hk. simpl.
    eexists. split; [done|].
    pose proof (id_key_some _ _ Ht Hk) as Hid.
    destruct (group_append_cases k (get product "id" VNone) (category, product) groups)
      as [(Hn & l1 & g & l2 & -> & <- & ->)|[Hf ->]].
    + by apply grouped_extend.
    + by apply grouped_open.
  - eexists. split; [done|]. apply grouped_skip; [|done]. by apply id_key_none.
Qed.

Lemma group_pairs_grouped pairs : forall groups done,
  Forall (fun cp : string * dict => hashable_get_id cp.2) pairs ->
  grouped groups done ->
  exists groups', group_pairs groups pairs = Ok groups' /\ grouped groups' (done ++ pairs).
Proof.
  induction pairs as [|[c p] rest IH]; intros groups done Hh Hg; simpl.
  - exists groups. by rewrite app_nil_r.
  - inversion Hh as [|? ? Hp Hrest]; subst. simpl in Hp.
    destruct (group_product_grouped c groups done p Hp Hg) as (groups1 & -> & Hg1). simpl.
    destruct (IH groups1 _ Hrest Hg1) as (groups' & -> & Hg').
    exists groups'. split; [done|]. by rewrite <- app_assoc in Hg'.
Qed.

Lemma all_pairs_hashable items :
  Forall (fun item : string * list dict => Forall hashable_get_id item.2) items ->
  Forall (fun cp : string * dict => hashable_get_id cp.2) (all_pairs items).
Proof.
  intros H. unfold all_pairs. apply list.Forall_forall. intros [c p] Hin.
  apply list_elem_of_bind in Hin as ([c' ps] & Hin & Hitem).
  apply list_elem_of_fmap in Hin as (p' & [= -> ->] & Hp'). simpl in *.
  rewrite list.Forall_forall in H. specialize (H _ Hitem).
  simpl in H. rewrite list.Forall_forall in H. by apply H.
Qed.

Lemma category_count_one (pairs : list (string * dict)) :
  length pairs = 1%nat -> category_count pairs = 1%nat.
Proof.
  destruct pairs as [|cp [|]]; try done. intros _. unfold category_count.
  rewrite fmap_cons, fmap_nil, list_to_set_cons, list_to_set_nil, union_empty_r_L.
  apply size_singleton.
Qed.


Lemma category_count_nil : category_count [] = 0%nat.
Proof. unfold category_count. by rewrite fmap_nil, list_to_set_nil, size_empty. Qed.

Lemma group_keys_cons g groups :
  group_keys (g :: groups) =
  (if decide (group_key g <> KNaN) then [group_key g] else []) ++ group_keys groups.
Proof. unfold group_keys. rewrite fmap_cons, filter_cons. by case_decide. Qed.

Lemma group_keys_filter (Q : group -> Prop) `{forall g, Decision (Q g)} groups :
  NoDup (group_keys groups) -> NoDup (group_keys (filter Q groups)).
Proof.
  induction groups as [|g groups IH]; [done|].
  rewrite group_keys_cons, filter_cons. intros Hnd.
  destruct (decide (Q g)) as [HQ|HQ].
  - rewrite group_keys_cons.
    destruct (decide (group_key g <> KNaN)) as [Hn|Hn]; simpl in *; [|by apply IH].
    apply NoDup_cons in Hnd as [Hnotin Hnd']. apply NoDup_cons. split; [|by apply IH].
    intros Hin. apply Hnotin.
    apply elem_of_group_keys in Hin as [_ Hin]. apply elem_of_group_keys. split; [done|].
    apply list_elem_of_fmap in Hin as (g' & -> & Hg'). apply list_elem_of_fmap_2.
    by apply list_elem_of_filter in Hg' as [_ ?].
  - apply IH. destruct (decide (group_key g <> KNaN)); simpl in Hnd; [|done].
    by apply NoDup_cons in Hnd as [_ ?].
Qed.

Lemma group_keys_all groups :
  (forall g, g ∈ groups -> group_key g <> KNaN) -> group_keys groups = group_key <$> groups.
Proof.
  induction groups as [|g groups IH]; intros H; [done|].
  rewrite group_keys_cons, fmap_cons, decide_True by (apply H; left).
  simpl. f_equal. apply IH. intros g' Hg'. apply H. by right.
Qed.

(** What line 186 counts: there are two categories or more exactly when
    two of the pairs are of different categories. *)
Lemma category_count_two (pairs : list (string * dict)) :
  (2 <= category_count pairs)%nat <-> in_two_categories pairs.
Proof.
  unfold category_count, in_two_categories. split.
  - intros Hsize. destruct pairs as [|[c p] rest].
    { rewrite fmap_nil, list_to_set_nil, size_empty in Hsize. lia. }
    destruct (decide (Forall (fun cp : string * dict => cp.1 = c) rest)) as [Hall|Hex].
    + exfalso.
      assert ((list_to_set ((c, p) :: rest).*1 : gset string) ⊆ {[ c ]}) as Hsub.
      { intros c' Hc'. apply elem_of_list_to_set in Hc'.
        apply list_elem_of_fmap in Hc' as (cp & -> & Hin).
        apply elem_of_singleton. apply elem_of_cons in Hin as [->|Hin]; [done|].
        rewrite list.Forall_forall in Hall. by apply Hall. }
      apply subseteq_size in Hsub. rewrite size_singleton in Hsub. lia.
    + apply not_Forall_Exists in Hex; [|solve_decision].
      apply list.Exists_exists in Hex as ([c' p'] & Hin & Hne). simpl in Hne.
      exists c, p, c', p'. split; [apply list_elem_of_here|].
      split; [by apply list_elem_of_further|congruence].
  - intros (c1 & p1 & c2 & p2 & H1 & H2 & Hne).
    assert (({[ c1 ]} ∪ {[ c2 ]} : gset string) ⊆ list_to_set pairs.*1) as Hsub.
    { intros c [Hc|Hc]%elem_of_union; apply elem_of_singleton in Hc as ->;
        apply elem_of_list_to_set, list_elem_of_fmap; eexists (_, _); eauto. }
    apply subseteq_size in Hsub.
    rewrite size_union, !size_singleton in Hsub by set_solver. lia.
Qed.

End CrossFacts.

Module DedupTheorems.
Import Py ColesProductProcessor Notions DedupFacts.

Lemma remove_duplicates_spec products keys :
  keys_of products = Ok keys ->
  exists st,
    remove_duplicates products =
    Ok (keep (classify [] keys) products, keep (negb <$> classify [] keys) products, st).
Proof.
  intros Hk. unfold remove_duplicates.
  rewrite (dedup_loop_spec _ _ _ Hk). simpl. eauto.
Qed.

Lemma same_key_keys products keys i j p q ki kj :
  keys_of products = Ok keys ->
  products !! i = Some p -> products !! j = Some q ->
  keys !! i = Some ki -> keys !! j = Some kj ->
  same_key p q <-> ki = kj /\ kj <> KNaN.
Proof.
  intros Hk Hp Hq Hi Hj.
  destruct (keys_of_lookup _ _ _ _ Hk Hp) as (ki' & Hi' & Hpk).
  destruct (keys_of_lookup _ _ _ _ Hk Hq) as (kj' & Hj' & Hqk).
  assert (ki' = ki) by congruence. assert (kj' = kj) by congruence. subst.
  unfold same_key. rewrite Hpk, Hqk. split.
  - intros (k & [= <-] & [= <-] & Hn). done.
  - intros [-> Hn]. eauto.
Qed.

(** Whether a record is kept, by the records before it. *)
Lemma kept_first products keys i p :
  keys_of products = Ok keys ->
  products !! i = Some p ->
  (classify [] keys !! i = Some true <->
     forall j q, (j < i)%nat -> products !! j = Some q -> ~ same_key q p) /\
  (classify [] keys !! i = Some false <->
     exists j q, (j < i)%nat /\ products !! j = Some q /\ same_key q p).
Proof.
  intros Hk Hp.
  destruct (keys_of_lookup _ _ _ _ Hk Hp) as (k & Hi & Hpk).
  rewrite (classify_lookup _ _ _ _ Hi), app_nil_r.
  assert (Hin : set_contains (take i keys) k = true <->
                exists j q, (j < i)%nat /\ products !! j = Some q /\ same_key q p).
  { rewrite set_contains_spec, list_elem_of_lookup. split.
    - intros [Hn [j Hj]]. apply lookup_take_Some in Hj as [Hj Hlt].
      assert (is_Some (products !! j)) as [q Hq].
      { apply lookup_lt_is_Some. rewrite <- (keys_of_length _ _ Hk).
        by eapply lookup_lt_Some. }
      exists j, q. split; [done|]. split; [done|].
      by apply (same_key_keys _ _ _ _ _ _ _ _ Hk Hq Hp Hj Hi).
    - intros (j & q & Hlt & Hq & Hsame).
      destruct (keys_of_lookup _ _ _ _ Hk Hq) as (kj & Hj & _).
      destruct (proj1 (same_key_keys _ _ _ _ _ _ _ _ Hk Hq Hp Hj Hi) Hsame) as [Heq Hn].
      subst kj. split; [done|]. exists j. by rewrite lookup_take_lt. }
  destruct (set_contains (take i keys) k) eqn:Hc; simpl; split; split;
    try done; try naive_solver.
Qed.

Lemma remove_duplicates_shape products :
  Forall hashable_id products ->
  exists keys st,
    keys_of products = Ok keys /\
    remove_duplicates products =
    Ok (keep (classify [] keys) products, keep (negb <$> classify [] keys) products, st) /\
    length (classify [] keys) = length products.
Proof.
  intros H. destruct (keys_of_hashable _ H) as [keys Hk].
  destruct (remove_duplicates_spec _ _ Hk) as [st Hr].
  exists keys, st. split; [done|]. split; [done|].
  by rewrite classify_length, (keys_of_length _ _ Hk).
Qed.

(** C2.  [remove_duplicates] splits its input: every record goes, by
    its position, to exactly one of [unique] and [duplicates]; the two
    lists together are a permutation of the input and their lengths add
    up to its length. *)
Theorem remove_duplicates_partition (products : list dict) :
  Forall hashable_id products ->
  exists unique duplicates st kept,
    remove_duplicates products = Ok (unique, duplicates, st) /\
    length kept = length products /\
    unique = keep kept products /\
    duplicates = keep (negb <$> kept) products /\
    unique ++ duplicates ≡ₚ products /\
    (length unique + length duplicates)%nat = length products.
Proof.
  intros H. destruct (remove_duplicates_shape _ H) as (keys & st & Hk & Hr & Hlen).
  eexists _, _, st, (classify [] keys). split; [exact Hr|].
  split; [done|]. split; [done|]. split; [done|]. split.
  - by apply keep_perm.
  - by apply keep_length.
Qed.

Lemma str_id_key (r : dict) s :
  s <> EmptyString -> r !! "id" = Some (VStr s) -> dedup_key r = Ok (KStr s).
Proof.
  intros Hs Hr. unfold dedup_key, get. rewrite Hr. simpl.
  destruct s; [done|]. reflexivity.
Qed.

(** C3.  The first record with a given key is kept and every later
    record with that key is a duplicate, whatever its other fields: a
    record is in [unique] exactly when no record before it has its key.
    In particular, of two records with the same non-empty id, the first
    is in [unique] and the second in [duplicates]. *)
Theorem remove_duplicates_first_wins :
  (forall products : list dict,
     Forall hashable_id products ->
     exists unique duplicates st kept,
       remove_duplicates products = Ok (unique, duplicates, st) /\
       length kept = length products /\
       unique = keep kept products /\
       duplicates = keep (negb <$> kept) products /\
       forall i p, products !! i = Some p ->
         (kept !! i = Some true <->
            forall j q, (j < i)%nat -> products !! j = Some q -> ~ same_key q p) /\
         (kept !! i = Some false <->
            exists j q, (j < i)%nat /\ products !! j = Some q /\ same_key q p)) /\
  (forall (r1 r2 : dict) (s : string),
     s <> EmptyString ->
     r1 !! "id" = Some (VStr s) -> r2 !! "id" = Some (VStr s) ->
     exists st, remove_duplicates [r1; r2] = Ok ([r1], [r2], st)).
Proof.
  split.
  - intros products H.
    destruct (remove_duplicates_shape _ H) as (keys & st & Hk & Hr & Hlen).
    eexists _, _, st, (classify [] keys). split; [exact Hr|].
    split; [done|]. split; [done|]. split; [done|].
    intros i p Hp. by apply kept_first.
  - intros r1 r2 s Hs H1 H2.
    assert (Hk : keys_of [r1; r2] = Ok [KStr s; KStr s]).
    { simpl. by rewrite (str_id_key r1 s), (str_id_key r2 s). }
    destruct (remove_duplicates_spec _ _ Hk) as [st Hr]. exists st.
    rewrite Hr. simpl. unfold set_contains, set_add. simpl.
    by rewrite bool_decide_eq_true_2.
Qed.

Lemma string_of_list_ascii_inj l1 l2 :
  string_of_list_ascii l1 = string_of_list_ascii l2 -> l1 = l2.
Proof.
  intros H. apply (f_equal list_ascii_of_string) in H.
  by rewrite !list_ascii_of_string_of_list_ascii in H.
Qed.

Lemma str_of_Z_inj z1 z2 : str_of_Z z1 = str_of_Z z2 -> z1 = z2.
Proof.
  unfold str_of_Z. intros H%string_of_list_ascii_inj. by apply DigitFacts.chars_of_Z_inj.
Qed.

Lemma falsy_id_key (r : dict) :
  truthy (get r "id" (VStr "")) = false -> dedup_key r = Ok (KStr (pseudo_id r)).
Proof. unfold dedup_key. by intros ->. Qed.

Lemma pseudo_id_eq (r1 r2 : dict) :
  get r1 "title" (VStr "") = get r2 "title" (VStr "") ->
  pseudo_id r1 = pseudo_id r2 <->
  py_str (get r1 "price_value" (VInt 0)) = py_str (get r2 "price_value" (VInt 0)).
Proof.
  intros Ht. unfold pseudo_id. rewrite Ht. split; [|by intros ->].
  intros H. by do 2 apply String.app_inj in H.
Qed.

(** C4, as amended.  A record whose id is empty is filed under the text
    [title-price_value].  Of two records with empty ids and the same
    title, the second is a duplicate exactly when the two price values
    read the same under [str()]: it is one when the values are the
    same, and both records are kept when the texts differ, as they do
    for two different ints. *)
Theorem pseudo_key_fallback (r1 r2 : dict) :
  truthy (get r1 "id" (VStr "")) = false ->
  truthy (get r2 "id" (VStr "")) = false ->
  get r1 "title" (VStr "") = get r2 "title" (VStr "") ->
  let price1 := get r1 "price_value" (VInt 0) in
  let price2 := get r2 "price_value" (VInt 0) in
  dedup_key r1 = Ok (KStr (py_str (get r1 "title" (VStr "")) +:+ "-" +:+ py_str price1)) /\
  (price1 = price2 -> exists st, remove_duplicates [r1; r2] = Ok ([r1], [r2], st)) /\
  (py_str price1 = py_str price2 ->
     exists st, remove_duplicates [r1; r2] = Ok ([r1], [r2], st)) /\
  (py_str price1 <> py_str price2 ->
     exists st, remove_duplicates [r1; r2] = Ok ([r1; r2], [], st)) /\
  (forall z1 z2, price1 = VInt z1 -> price2 = VInt z2 -> z1 <> z2 ->
     py_str price1 <> py_str price2).
Proof.
  intros H1 H2 Ht price1 price2.
  pose proof (falsy_id_key _ H1) as K1. pose proof (falsy_id_key _ H2) as K2.
  assert (Hk : keys_of [r1; r2] = Ok [KStr (pseudo_id r1); KStr (pseudo_id r2)]).
  { simpl. by rewrite K1, K2. }
  destruct (remove_duplicates_spec _ _ Hk) as [st Hr].
  assert (Hsame : py_str price1 = py_str price2 ->
                  exists st, remove_duplicates [r1; r2] = Ok ([r1], [r2], st)).
  { intros E%(pseudo_id_eq r1 r2 Ht). exists st. rewrite Hr, E. simpl.
    unfold set_contains, set_add. simpl. by rewrite bool_decide_eq_true_2. }
  split; [done|]. split; [|split; [done|split]].
  - intros E. apply Hsame. by rewrite E.
  - intros E. exists st. rewrite Hr. simpl. unfold set_contains, set_add. simpl.
    rewrite bool_decide_eq_false_2; [done|].
    intros [= E']. symmetry in E'. apply (pseudo_id_eq r1 r2 Ht) in E'. by apply E.
  - intros z1 z2 -> -> Hz E. simpl in E. by apply str_of_Z_inj in E.
Qed.

(** C9.  Ids and title-price keys go into one set: a record with an
    empty id is classified a duplicate because its title-price text is
    the id of an earlier record, whose title is another. *)
Theorem shared_seen_set :
  exists (r0 r1 : dict) (st : stats),
    get r1 "id" (VStr "") = VStr "" /\
    get r0 "id" (VStr "") = VStr (pseudo_id r1) /\
    get r0 "title" (VStr "") <> get r1 "title" (VStr "") /\
    get r0 "price_value" (VInt 0) <> get r1 "price_value" (VInt 0) /\
    remove_duplicates [r0; r1] = Ok ([r0], [r1], st).
Proof.
  exists (list_to_map [("id", VStr "Milk 2L-3.5"); ("title", VStr "Full Cream Milk");
                       ("price_value", VFloat 4.25)]),
         (list_to_map [("id", VStr ""); ("title", VStr "Milk 2L");
                       ("price_value", VFloat 3.5)]),
         {| total_before := 2; total_after := 1; duplicates_removed := 1 |}.
  split; [compute_eq|]. split; [compute_eq|]. split; [|split].
  - vm_compute. discriminate.
  - vm_compute. intros [= H].
  - compute_eq.
Qed.

End DedupTheorems.

(* ===================================================================== *)
(** * Canonicalisation: the theorems                                      *)
(* ===================================================================== *)

Module ProcessTheorems.
Import Py ColesProductProcessor Notions TextFacts ProcessFacts ReturnFacts DedupFacts.

(** C5.  [process_products] sets [save_value] to
    [round(was_price_value - price_value, 2)] exactly when the raw
    [save_value] is zero ([== 0]; an absent field reads as its default
    [0.0]) and both prices are above zero; otherwise the record's
    [save_value] is left as it is and goes to the output unchanged (a
    [None] being dropped there with every other [None]). *)
Theorem save_value_rule (now : string) (product product' processed : dict) :
  process_one now product = Ok (product', Some processed) ->
  let was_price := get product "was_price_value" (VFloat 0) in
  let current_price := get product "price_value" (VFloat 0) in
  let save_value := get product "save_value" (VFloat 0) in
  exists due,
    save_due product = Ok due /\
    (due = true <->
       eq_zero save_value = true /\ gt_zero was_price = Ok true /\
       gt_zero current_price = Ok true) /\
    (due = true ->
       exists d v, sub was_price current_price = Ok d /\ round2 d = Ok v /\
         product' !! "save_value" = Some v /\ processed !! "save_value" = Some v) /\
    (due = false ->
       product' !! "save_value" = product !! "save_value" /\
       processed !! "save_value" = if is_none save_value then None else Some save_value).
Proof.
  unfold process_one. destruct (rejected product); [done|].
  destruct (canonicalize now product) as [[p o]|] eqn:Hc; simpl; [|done].
  intros [= -> ->].
  destruct (canonicalize_frames _ _ _ _ Hc) as (p5 & Hf & H6 & _).
  apply canonicalize_steps in Hc as (_ & _ & _ & _ & raw & _ & _ & _ & _ & Hraw & ->).
  apply cleaned_cases in Hraw as (t & _ & ->).
  destruct (save_due_same _ _ Hf) as [Hdue Hsav].
  apply derive_save_value_cases in H6 as [[Hd ->]|(Hd & v & Hv & ->)];
    rewrite Hdue in Hd; rewrite ?Hsav in *.
  - exists false. split; [done|]. split.
    { rewrite <- (save_due_true product), Hd. naive_solver. }
    split; [done|]. intros _. split; [apply Hf; unfold early_keys; decided|].
    rewrite drop_none_lookup.
    change (_ !! "save_value") with (Some (get p5 "save_value" (VFloat 0))).
    rewrite (same_but_get _ _ _ _ _ Hf); [done|unfold early_keys; decided].
  - exists true. split; [done|]. split.
    { by rewrite <- (save_due_true product), Hd. }
    split; [|done]. intros _. unfold saving in Hv.
    destruct (sub _ _) as [d|] eqn:Hs; simpl in Hv; [|done].
    exists d, v. split; [done|]. split; [done|]. split; [by simplify_map_eq|].
    rewrite drop_none_lookup.
    change (_ !! "save_value") with
      (Some (get (<["save_value" := v]> p5) "save_value" (VFloat 0))).
    unfold get. rewrite lookup_insert_eq. simpl. by rewrite (round2_not_none _ _ Hv).
Qed.

Lemma indexed_cons i p rest : indexed i (p :: rest) = (i, p) :: indexed (S i) rest.
Proof.
  unfold indexed. simpl. rewrite Nat.add_0_r. f_equal.
  apply imap_ext. intros j x _. simpl. f_equal. lia.
Qed.

Lemma accepted_cons i p rest :
  accepted i (p :: rest) =
  if rejected p then accepted (S i) rest else (i, p) :: accepted (S i) rest.
Proof.
  unfold accepted. rewrite indexed_cons, filter_cons. simpl.
  destruct (rejected p); by case_decide.
Qed.

Lemma process_from_image clock products : forall i products' processed,
  process_from clock i products = Ok (products', processed) ->
  Forall2 (fun (ip : nat * dict) o => exists p', canonicalize (clock ip.1) ip.2 = Ok (p', o))
    (accepted i products) processed /\
  length products' = length products.
Proof.
  induction products as [|p rest IH]; intros i products' processed; simpl.
  - intros [= <- <-]. split; [constructor|done].
  - rewrite accepted_cons. unfold process_one.
    destruct (rejected p) eqn:Hr; simpl.
    + destruct (process_from clock (S i) rest) as [[ps os]|] eqn:Hrest; simpl; [|done].
      intros [= <- <-]. destruct (IH _ _ _ Hrest) as [IH1 IH2]. simpl. auto.
    + destruct (canonicalize (clock i) p) as [[p' o]|] eqn:Hc; simpl; [|done].
      destruct (process_from clock (S i) rest) as [[ps os]|] eqn:Hrest; simpl; [|done].
      intros [= <- <-]. destruct (IH _ _ _ Hrest) as [IH1 IH2]. simpl. split; [|auto].
      constructor; [|done]. simpl. eauto.
Qed.

Lemma rejected_no_title (p : dict) :
  p !! "title" = None \/ p !! "title" = Some (VStr "") -> rejected p = true.
Proof. unfold rejected, get. by intros [-> | ->]. Qed.

Lemma accepted_title (p : dict) t :
  p !! "title" = Some (VStr t) -> t <> EmptyString -> rejected p = false.
Proof.
  unfold rejected, get. intros -> Ht. simpl. destruct t; [done|reflexivity].
Qed.

Lemma elem_of_accepted i products j p :
  (j, p) ∈ accepted i products -> rejected p = false /\ p ∈ products.
Proof.
  unfold accepted, indexed. intros [Hr Hin]%list_elem_of_filter. split; [done|].
  apply list_elem_of_lookup in Hin as [n Hn].
  rewrite list_lookup_imap in Hn.
  destruct (products !! n) as [q|] eqn:Hq; simpl in Hn; [|done].
  injection Hn as _ ->. by eapply list_elem_of_lookup_2.
Qed.

(** C6.  The output of [process_products] is the in-order image of the
    input records that have a title: the records whose title is absent
    or empty are left out, every other record that is left out has a
    title that is false in Python's sense, and the processed products
    are, one for one and in the same order, the canonical forms of the
    records that remain.  On well-typed records the call returns. *)
Theorem process_products_image (clock : nat -> string) (products : list dict) :
  (Forall typed products -> returns (process_products clock products)) /\
  (forall products' processed,
     process_products clock products = Ok (products', processed) ->
     Forall2 (fun (ip : nat * dict) o =>
                exists p', canonicalize (clock ip.1) ip.2 = Ok (p', o))
       (accepted 0 products) processed /\
     length processed = length (accepted 0 products)) /\
  (forall i p, (i, p) ∈ accepted 0 products ->
     p !! "title" <> None /\ p !! "title" <> Some (VStr "")) /\
  (forall i p t, products !! i = Some p -> p !! "title" = Some (VStr t) ->
     t <> EmptyString -> (i, p) ∈ accepted 0 products).
Proof.
  split; [|split; [|split]].
  - intros Ht. destruct (process_from_returns clock products 0 Ht) as (ps & os & H & _).
    unfold returns, process_products. eauto.
  - intros products' processed H.
    destruct (process_from_image _ _ _ _ _ H) as [HF _]. split; [done|].
    symmetry. by eapply Forall2_length.
  - intros i p [Hr _]%elem_of_accepted. split; intros E;
      rewrite rejected_no_title in Hr; auto; discriminate.
  - intros i p t Hp Ht Hne. unfold accepted, indexed.
    apply list_elem_of_filter. split; [by eapply accepted_title|].
    apply list_elem_of_lookup. exists i. by rewrite list_lookup_imap, Hp.
Qed.

(** C10.  The title is tested before it is trimmed: a record whose
    title is a single space is not rejected, and its processed product
    has the empty title. *)
Theorem whitespace_title_not_rejected :
  exists product : dict,
    product !! "title" = Some (VStr " ") /\
    forall clock, exists product' processed,
      process_products clock [product] = Ok ([product'], [processed]) /\
      processed !! "title" = Some (VStr "").
Proof.
  exists {[ "title" := VStr " " ]}. split; [reflexivity|].
  intros clock.
  exists (list_to_map [ ("title", VStr " "); ("vendor", VStr "coles");
                        ("is_on_special", VBool false) ]).
  exists (list_to_map
            [ ("id", VStr ""); ("title", VStr ""); ("price_value", VFloat 0);
              ("was_price_value", VFloat 0); ("save_value", VFloat 0);
              ("unit_price", VStr ""); ("url", VStr ""); ("image_url", VStr "");
              ("category", VStr ""); ("page", VInt 0); ("vendor", VStr "coles");
              ("is_on_special", VBool false); ("special_text", VStr "");
              ("rate_value", VFloat 0); ("rate_unit", VStr "");
              ("scrapedAt", VStr (clock 0%nat)) ]).
  split; compute_eq.
Qed.

Lemma remove_duplicates_returns products :
  Forall hashable_id products <-> returns (remove_duplicates products).
Proof.
  split.
  - intros H. destruct (keys_of_hashable _ H) as [keys Hk].
    unfold returns, remove_duplicates. rewrite (dedup_loop_spec _ _ _ Hk). simpl. eauto.
  - intros [r Hr]. unfold remove_duplicates in Hr.
    destruct (keys_of products) as [keys|e] eqn:Hk.
    + clear Hr. revert keys Hk. induction products as [|p rest IH]; intros keys; simpl;
        [constructor|].
      destruct (dedup_key p) as [k|] eqn:Hp; simpl; [|done].
      destruct (keys_of rest) as [ks|] eqn:Hks; simpl; [|done].
      intros _. constructor; [by eapply dedup_key_returns_hashable|by eapply IH].
    + destruct (dedup_loop_raises products
                  {| seen_ids := []; unique_products := []; duplicate_products := [] |})
        as [e' He']; [eauto|].
      rewrite He' in Hr. done.
Qed.



End ProcessTheorems.

(* ===================================================================== *)
(** * Cross-category duplicates: the theorem                              *)
(* ===================================================================== *)

Module CrossTheorems.
Import Py ColesProductProcessor Notions CrossFacts.

(** C7.  [find_cross_category_duplicates] groups the products by id,
    leaving out those whose id is empty or absent, and returns exactly
    the ids found under two or more distinct categories, each with all
    its [(category, product)] pairs in iteration order: an id is
    returned if and only if two of the pairs filed under it are of
    different categories, so that an id seen in one category only,
    however often, is not returned.  Ids are compared as dict keys are,
    and no id is returned twice. *)
Theorem cross_category_duplicates (items : list (string * list dict)) :
  Forall (fun item : string * list dict => Forall hashable_get_id item.2) items ->
  exists result,
    find_cross_category_duplicates items = Ok result /\
    (forall product_id pairs, (product_id, pairs) ∈ result ->
       truthy product_id = true /\
       exists k, hash_key product_id = Ok k /\ k <> KNaN /\
         pairs = pairs_with k (all_pairs items) /\
         in_two_categories pairs) /\
    (forall k, k <> KNaN ->
       in_two_categories (pairs_with k (all_pairs items)) ->
       exists product_id, hash_key product_id = Ok k /\
         (product_id, pairs_with k (all_pairs items)) ∈ result) /\
    (forall product_id pairs category, (product_id, pairs) ∈ result ->
       ~ Forall (fun cp : string * dict => cp.1 = category) pairs) /\
    (forall i j e e' k, result !! i = Some e -> result !! j = Some e' ->
       hash_key e.1 = Ok k -> hash_key e'.1 = Ok k -> i = j).
Proof.
  intros Hh. apply all_pairs_hashable in Hh.
  destruct (group_pairs_grouped _ [] [] Hh grouped_nil) as (groups & Hg & Inv).
  simpl in Inv. destruct Inv as [H1 H2 H3 H4 H5].
  unfold find_cross_category_duplicates. rewrite group_all_pairs, Hg. simpl.
  set (kept := filter (fun g => (1 < category_count (group_products g))%nat) groups).
  assert (forall g, g ∈ kept -> g ∈ groups /\ group_key g <> KNaN /\
            in_two_categories (group_products g)) as Hkept.
  { intros g [Hc Hin]%list_elem_of_filter. split; [done|]. split.
    - intros Hn. rewrite (category_count_one _ (H4 g Hin Hn)) in Hc. lia.
    - apply category_count_two. lia. }
  eexists. split; [done|]. split; [|split; [|split]].
  - intros product_id pairs (g & [= -> ->] & Hin)%list_elem_of_fmap.
    destruct (Hkept g Hin) as (Hg' & Hn & Hc). destruct (H1 g Hg') as [Ht Hk].
    split; [done|]. exists (group_key g). rewrite <- (H3 g Hg' Hn). done.
  - intros k Hn Hc.
    assert (pairs_with k (all_pairs items) <> []) as Hne.
    { intros E. rewrite E in Hc. destruct Hc as (c1 & p1 & _ & _ & Hin & _).
      by apply elem_of_nil in Hin. }
    apply H5 in Hne; [|done]. apply list_elem_of_fmap in Hne as (g & -> & Hin).
    exists (group_id g). split; [by apply H1|].
    apply list_elem_of_fmap. exists g. split; [by rewrite (H3 g Hin Hn)|].
    apply list_elem_of_filter. split; [|done]. rewrite (H3 g Hin Hn).
    apply category_count_two in Hc. lia.
  - intros product_id pairs category (g & [= -> ->] & Hin)%list_elem_of_fmap Hall.
    destruct (Hkept g Hin) as (_ & _ & c1 & p1 & c2 & p2 & Hin1 & Hin2 & Hne).
    rewrite list.Forall_forall in Hall.
    pose proof (Hall _ Hin1) as E1. pose proof (Hall _ Hin2) as E2.
    apply Hne. simpl in E1, E2. congruence.
  - intros i j e e' k Hi Hj Hk Hk'.
    rewrite list_lookup_fmap in Hi, Hj.
    destruct (kept !! i) as [g|] eqn:Ei; simpl in Hi; [|done].
    destruct (kept !! j) as [g'|] eqn:Ej; simpl in Hj; [|done].
    injection Hi as <-. injection Hj as <-. simpl in *.
    destruct (Hkept g (list_elem_of_lookup_2 _ _ _ Ei)) as (Hg1 & Hn1 & _).
    destruct (Hkept g' (list_elem_of_lookup_2 _ _ _ Ej)) as (Hg2 & Hn2 & _).
    destruct (H1 g Hg1) as [_ E1]. destruct (H1 g' Hg2) as [_ E2].
    assert (group_key g = k) by congruence. assert (group_key g' = k) by congruence.
    assert (NoDup (group_key <$> kept)) as Hnd.
    { rewrite <- group_keys_all; [by apply group_keys_filter|].
      intros g0 Hg0. by apply Hkept. }
    eapply NoDup_lookup; [exact Hnd| |]; rewrite list_lookup_fmap.
    + by rewrite Ei.
    + rewrite Ej. simpl. congruence.
Qed.

End CrossTheorems.

(* ===================================================================== *)
(** * A second pass                                                       *)
(* ===================================================================== *)

Module SecondPass.
Import Py ColesProductProcessor Notions TextFacts ProcessFacts.

Section Fields.
Variable f : fields.

(** Reading the fields back. *)
Lemma get_id d : get (to_dict f) "id" d = f_id f. Proof. compute_eq. Qed.
Lemma get_title d : get (to_dict f) "title" d = VStr (f_title f). Proof. compute_eq. Qed.
Lemma get_price_value d : get (to_dict f) "price_value" d = f_price_value f.
Proof. compute_eq. Qed.
Lemma get_was_price_value d : get (to_dict f) "was_price_value" d = f_was_price_value f.
Proof. compute_eq. Qed.
Lemma get_save_value d : get (to_dict f) "save_value" d = f_save_value f.
Proof. compute_eq. Qed.
Lemma get_unit_price d : get (to_dict f) "unit_price" d = f_unit_price f.
Proof. compute_eq. Qed.
Lemma get_url d : get (to_dict f) "url" d = f_url f. Proof. compute_eq. Qed.
Lemma get_image_url d : get (to_dict f) "image_url" d = f_image_url f.
Proof. compute_eq. Qed.
Lemma get_category d : get (to_dict f) "category" d = f_category f. Proof. compute_eq. Qed.
Lemma get_page d : get (to_dict f) "page" d = f_page f. Proof. compute_eq. Qed.
Lemma get_vendor d : get (to_dict f) "vendor" d = VStr "coles". Proof. compute_eq. Qed.
Lemma get_is_on_special d : get (to_dict f) "is_on_special" d = f_is_on_special f.
Proof. compute_eq. Qed.
Lemma get_special_text d : get (to_dict f) "special_text" d = f_special_text f.
Proof. compute_eq. Qed.
Lemma get_rate_value d : get (to_dict f) "rate_value" d = f_rate_value f.
Proof. compute_eq. Qed.
Lemma get_rate_unit d : get (to_dict f) "rate_unit" d = f_rate_unit f.
Proof. compute_eq. Qed.
Lemma get_scrapedAt d : get (to_dict f) "scrapedAt" d = f_scrapedAt f.
Proof. compute_eq. Qed.

Lemma get_lookup (d : dict) k v dflt : get d k dflt = v -> d !! k <> None -> d !! k = Some v.
Proof. unfold get. destruct (d !! k); simpl; congruence. Qed.

(** Writing a field its own value back changes nothing. *)
Lemma put_vendor : <["vendor" := VStr "coles"]> (to_dict f) = to_dict f.
Proof. compute_eq. Qed.
Lemma put_unit_price : <["unit_price" := f_unit_price f]> (to_dict f) = to_dict f.
Proof. compute_eq. Qed.
Lemma put_rate :
  <["rate_unit" := f_rate_unit f]> (<["rate_value" := f_rate_value f]> (to_dict f)) = to_dict f.
Proof. compute_eq. Qed.
Lemma put_is_on_special : <["is_on_special" := f_is_on_special f]> (to_dict f) = to_dict f.
Proof. compute_eq. Qed.
Lemma put_special_text : <["special_text" := f_special_text f]> (to_dict f) = to_dict f.
Proof. compute_eq. Qed.
Lemma put_save_value : <["save_value" := f_save_value f]> (to_dict f) = to_dict f.
Proof. compute_eq. Qed.

Hypothesis Hc : canonical f.

Lemma second_derive_id : derive_id (to_dict f) = Ok (to_dict f).
Proof.
  unfold derive_id. rewrite !get_id, !get_url.
  destruct (truthy (f_id f)) eqn:Hid; cbv [negb andb]; [done|].
  destruct (truthy (f_url f)) eqn:Hurl; [|done].
  destruct (canonical_id f Hc Hid Hurl) as (url & -> & ->). done.
Qed.

Lemma second_clean_unit_price :
  clean_unit_price (to_dict f) = Ok (to_dict f, f_unit_price f).
Proof.
  unfold clean_unit_price. rewrite !get_unit_price.
  destruct (truthy (f_unit_price f)) eqn:Hu; [|done].
  destruct (canonical_unit_price f Hc Hu) as (u & E & Hclean & _).
  rewrite E, Hclean. by rewrite <- E, put_unit_price.
Qed.

Lemma second_extract_rate : extract_rate (to_dict f) (f_unit_price f) = to_dict f.
Proof.
  unfold extract_rate.
  destruct (truthy (f_unit_price f)) eqn:Hu; [|done].
  destruct (canonical_unit_price f Hc Hu) as (u & -> & _ & Hrate).
  destruct (Re.search_rate u) as [[num unit]|] eqn:Hs; [|done].
  destruct (float_of_decimal num) as [r|] eqn:Hf; [|done].
  destruct (Hrate num unit r eq_refl Hf) as [<- <-]. apply put_rate.
Qed.

Lemma second_parse_special : parse_special (to_dict f) = Ok (to_dict f).
Proof.
  unfold parse_special. rewrite !get_special_text.
  destruct (canonical_special f Hc) as [His Hs].
  destruct (truthy (f_special_text f)) eqn:Ht.
  - destruct (Hs eq_refl) as (s & E & Hstrip). rewrite E, Hstrip, <- E.
    rewrite <- His at 1. by rewrite put_is_on_special, put_special_text.
  - rewrite <- His. by rewrite put_is_on_special.
Qed.

Lemma second_derive_save_value : derive_save_value (to_dict f) = Ok (to_dict f).
Proof.
  unfold derive_save_value, save_due, saving.
  rewrite !get_save_value, !get_was_price_value, !get_price_value.
  destruct (canonical_save f Hc) as (due & Hdue & Hsave).
  unfold due_for in Hdue. rewrite Hdue. simpl. destruct due; [|done].
  unfold saving_for in Hsave. rewrite (Hsave eq_refl). simpl. by rewrite put_save_value.
Qed.

Lemma second_cleaned now : cleaned (to_dict f) now = Ok (to_dict f).
Proof.
  unfold cleaned.
  rewrite get_id, get_title, get_price_value, get_was_price_value, get_save_value,
    get_unit_price, get_url, get_image_url, get_category, get_page, get_is_on_special,
    get_special_text, get_rate_value, get_rate_unit, get_scrapedAt.
  cbv [bind]. by rewrite (proj2 (canonical_title f Hc)).
Qed.

Lemma second_drop_none : drop_none (to_dict f) = to_dict f.
Proof.
  unfold drop_none. apply map_filter_id. intros k v Hk. simpl.
  apply elem_of_list_to_map_2 in Hk.
  pose proof (canonical_values f Hc) as Hv. rewrite list.Forall_forall in Hv.
  unfold values in Hv.
  repeat (apply elem_of_cons in Hk as [[= -> ->]|Hk]; [try done; apply Hv; set_solver|]).
  by apply not_elem_of_nil in Hk.
Qed.

(** A canonical product is a fixed point of the loop body. *)
Lemma second_canonicalize now :
  canonicalize now (to_dict f) = Ok (to_dict f, to_dict f).
Proof.
  unfold canonicalize. rewrite second_derive_id. cbv [bind].
  rewrite put_vendor, second_clean_unit_price.
  rewrite second_extract_rate, second_parse_special.
  rewrite second_derive_save_value.
  rewrite second_cleaned. by rewrite second_drop_none.
Qed.

Lemma second_rejected : rejected (to_dict f) = false.
Proof.
  unfold rejected. rewrite get_title. simpl.
  destruct (f_title f) eqn:E; [|done]. by destruct (canonical_title f Hc).
Qed.

Lemma second_process_one now :
  process_one now (to_dict f) = Ok (to_dict f, Some (to_dict f)).
Proof. unfold process_one. by rewrite second_rejected, second_canonicalize. Qed.

End Fields.
End SecondPass.

Module FirstPass.
Import Py ColesProductProcessor Notions TextFacts ProcessFacts SecondPass.

Lemma no_none_insert d k v : no_none d -> is_none v = false -> no_none (<[k := v]> d).
Proof.
  intros Hd Hv k'. destruct (decide (k = k')) as [->|Hne].
  - rewrite lookup_insert_eq. intros [= ->]. done.
  - rewrite lookup_insert_ne by done. apply Hd.
Qed.

Lemma no_none_get d k dflt : no_none d -> is_none dflt = false -> is_none (get d k dflt) = false.
Proof.
  intros Hd Hdf. unfold get. specialize (Hd k).
  destruct (d !! k) as [[]|]; simpl; try done.
Qed.

Lemma truthy_get_default (d : dict) k :
  truthy (get d k (VStr "")) = truthy (get d k VNone).
Proof. unfold get. by destruct (d !! k). Qed.

Lemma search_url_id_nonempty url digits :
  Re.search_url_id url = Some digits -> digits <> EmptyString.
Proof.
  induction url as [|c url IH]; simpl; [done|].
  destruct (Ascii.eqb c "-"); [|done].
  destruct (span isdigit url) as [ds tail].
  destruct (nonempty ds && _) eqn:E; [|done].
  intros [= <-]. apply andb_true_iff in E as [E _]. by apply nonempty_true.
Qed.

Lemma save_due_for d :
  save_due d = due_for (get d "save_value" (VFloat 0)) (get d "was_price_value" (VFloat 0))
                 (get d "price_value" (VFloat 0)).
Proof. reflexivity. Qed.

Lemma saving_for_get d :
  saving d = saving_for (get d "was_price_value" (VFloat 0)) (get d "price_value" (VFloat 0)).
Proof. reflexivity. Qed.

(** What the id step leaves behind. *)
Lemma derive_id_settled product p1 :
  derive_id product = Ok p1 ->
  no_none product ->
  no_none p1 /\
  (truthy (get p1 "id" (VStr "")) = false -> truthy (get p1 "url" (VStr "")) = true ->
   exists url, get p1 "url" (VStr "") = VStr url /\ Re.search_url_id url = None).
Proof.
  unfold derive_id. intros H Hn. rewrite <- !truthy_get_default in H.
  destruct (truthy (get product "id" (VStr ""))) eqn:Hid; simpl in H.
  { injection H as <-. split; [done|]. congruence. }
  destruct (truthy (get product "url" (VStr ""))) eqn:Hurl; simpl in H.
  2:{ injection H as <-. split; [done|]. congruence. }
  destruct (get product "url" (VStr "")) as [| | | |url|] eqn:E; try done.
  destruct (Re.search_url_id url) as [digits|] eqn:Hs; injection H as <-.
  - split; [by apply no_none_insert|].
    unfold get at 1. rewrite lookup_insert_eq. simpl.
    apply search_url_id_nonempty in Hs. destruct digits; done.
  - split; [done|]. intros _ _. eauto.
Qed.

(** What the unit-price steps leave behind. *)
Lemma unit_price_settled p2 p3 unit_price :
  clean_unit_price p2 = Ok (p3, unit_price) ->
  no_none p2 ->
  let p4 := extract_rate p3 unit_price in
  no_none p4 /\
  (truthy (get p4 "unit_price" (VStr "")) = true ->
   exists u, get p4 "unit_price" (VStr "") = VStr u /\ strip (split_first "|" u) = u /\
     forall num unit rate_value,
       Re.search_rate u = Some (num, unit) -> float_of_decimal num = Ok rate_value ->
       get p4 "rate_value" (VFloat 0) = VFloat rate_value /\
       get p4 "rate_unit" (VStr "") = VStr (lower unit)).
Proof.
  intros H Hn p4.
  assert (get p4 "unit_price" (VStr "") = get p3 "unit_price" (VStr "")) as Eu.
  { apply (same_but_get _ _ _ _ _ (extract_rate_frame p3 unit_price)). decided. }
  rewrite Eu.
  apply clean_unit_price_cases in H as [(Hf & -> & ->)|(u0 & Hu0 & Hne & -> & ->)].
  - split; [|congruence]. subst p4. unfold extract_rate. by rewrite Hf.
  - set (u := strip (split_first "|" u0)) in *.
    assert (no_none (<["unit_price" := VStr u]> p2)) as Hn3 by by apply no_none_insert.
    unfold get at 1 2. rewrite lookup_insert_eq. simpl. split.
    + subst p4.
      destruct (extract_rate_cases (<["unit_price" := VStr u]> p2) (VStr u))
        as [->|(? & num & unit & r & _ & _ & _ & ->)]; [done|].
      repeat (apply no_none_insert; [|done]). done.
    + intros Ht. exists u. split; [done|]. split; [apply clean_idem|].
      intros num unit r Hs Hf. subst p4. unfold extract_rate.
      change (truthy (VStr u) = true) in Ht. rewrite Ht, Hs, Hf.
      unfold get. by simplify_map_eq.
Qed.

(** What the special-text step leaves behind. *)
Lemma parse_special_settled p4 p5 :
  parse_special p4 = Ok p5 ->
  no_none p4 ->
  (forall s, p4 !! "special_text" = Some (VStr s) -> s <> EmptyString ->
     strip s <> EmptyString) ->
  no_none p5 /\
  get p5 "is_on_special" (VBool false) = VBool (truthy (get p5 "special_text" (VStr ""))) /\
  (truthy (get p5 "special_text" (VStr "")) = true ->
   exists s, get p5 "special_text" (VStr "") = VStr s /\ strip s = s).
Proof.
  intros H Hn Hs.
  apply parse_special_cases in H as [(Hf & ->)|(s & E & Hne & ->)].
  - split; [by apply no_none_insert|].
    assert (get (<["is_on_special" := VBool false]> p4) "special_text" (VStr "")
            = get p4 "special_text" (VStr "")) as ->.
    { unfold get. by rewrite lookup_insert_ne. }
    rewrite Hf. split; [|done]. unfold get. by rewrite lookup_insert_eq.
  - split; [repeat (apply no_none_insert; [|done]); done|].
    unfold get. rewrite lookup_insert_eq, lookup_insert_ne, lookup_insert_eq by done.
    simpl. specialize (Hs s E Hne).
    assert (nonempty (strip s) = true) as Hst by by apply nonempty_true.
    unfold nonempty in Hst. rewrite Hst. split; [done|].
    intros _. exists (strip s). split; [done|apply strip_idem].
Qed.

Lemma round2_eq_zero_number d v : round2 d = Ok v -> is_none v = false.
Proof. apply round2_not_none. Qed.

(** What the save-value step leaves behind. *)
Lemma derive_save_value_settled p5 p6 :
  derive_save_value p5 = Ok p6 ->
  no_none p5 ->
  no_none p6 /\
  exists due,
    due_for (get p6 "save_value" (VFloat 0)) (get p6 "was_price_value" (VFloat 0))
      (get p6 "price_value" (VFloat 0)) = Ok due /\
    (due = true ->
     saving_for (get p6 "was_price_value" (VFloat 0)) (get p6 "price_value" (VFloat 0))
     = Ok (get p6 "save_value" (VFloat 0))).
Proof.
  intros H Hn.
  apply derive_save_value_cases in H as [(Hd & ->)|(Hd & v & Hv & ->)].
  - split; [done|]. exists false. rewrite <- save_due_for. done.
  - split; [apply no_none_insert; [done|]; unfold saving in Hv;
            destruct (sub _ _); simpl in Hv; [by eapply round2_not_none|done]|].
    rewrite save_due_for in Hd. rewrite saving_for_get in Hv.
    unfold get at 1 2 3 4 5 6.
    rewrite lookup_insert_eq, !lookup_insert_ne by done. simpl.
    fold (get p5 "was_price_value" (VFloat 0)). fold (get p5 "price_value" (VFloat 0)).
    unfold due_for in *.
    destruct (eq_zero v); [|by exists false].
    destruct (eq_zero (get p5 "save_value" (VFloat 0))); [|done].
    exists true. split; [exact Hd|]. by rewrite Hv.
Qed.


Lemma accepted_title_str (product : dict) t :
  rejected product = false -> get product "title" (VStr "") = VStr t ->
  product !! "title" = Some (VStr t).
Proof.
  unfold rejected, get. destruct (product !! "title"); simpl; [congruence|done].
Qed.

(** The processed product of a settled record is in canonical form. *)
Lemma first_pass_canonical now product product' processed :
  canonicalize now product = Ok (product', processed) ->
  settled product -> rejected product = false ->
  exists f, processed = to_dict f /\ canonical f.
Proof.
  intros (p1 & p3 & u & p5 & raw & H1 & H3 & H5 & H6 & H7 & ->)%canonicalize_steps
    [Hnone Htitle Hspecial] Hrej.
  rename product' into p6.
  set (p2 := <["vendor" := VStr "coles"]> p1) in *.
  set (p4 := extract_rate p3 u) in *.
  pose proof (derive_id_frame _ _ H1) as F1.
  pose proof (clean_unit_price_frame _ _ _ H3) as F3.
  pose proof (extract_rate_frame p3 u) as F4. fold p4 in F4.
  pose proof (parse_special_frame _ _ H5) as F5.
  pose proof (derive_save_value_frame _ _ H6) as F6.
  assert (same_but ["vendor"] p1 p2) as F2 by (apply same_but_insert; decided).
  destruct (derive_id_settled _ _ H1 Hnone) as [N1 Cid].
  assert (no_none p2) as N2 by by apply no_none_insert.
  destruct (unit_price_settled _ _ _ H3 N2) as [N4 Cunit]. fold p4 in N4, Cunit.
  assert (p4 !! "special_text" = product !! "special_text") as Esp.
  { rewrite (F4 "special_text"), (F3 "special_text"), (F2 "special_text"),
      (F1 "special_text") by decided. done. }
  destruct (parse_special_settled _ _ H5 N4) as (N5 & Cis & Csp).
  { rewrite Esp. apply Hspecial. }
  destruct (derive_save_value_settled _ _ H6 N5) as (N6 & due & Cdue & Csave).
  apply cleaned_cases in H7 as (t & Et & ->).
  assert (same_but ["vendor"; "unit_price"; "rate_value"; "rate_unit"; "is_on_special";
                    "special_text"; "save_value"] p1 p6) as G1.
  { eapply same_but_trans; [eapply same_but_mono; [|exact F2]; decided|].
    eapply same_but_trans; [eapply same_but_mono; [|exact F3]; decided|].
    eapply same_but_trans; [eapply same_but_mono; [|exact F4]; decided|].
    eapply same_but_trans; [eapply same_but_mono; [|exact F5]; decided|].
    eapply same_but_mono; [|exact F6]. decided. }
  assert (same_but ["is_on_special"; "special_text"; "save_value"] p4 p6) as G4.
  { eapply same_but_trans; [eapply same_but_mono; [|exact F5]; decided|].
    eapply same_but_mono; [|exact F6]. decided. }
  assert (product !! "title" = Some (VStr t)) as Ept.
  { apply accepted_title_str; [done|]. rewrite <- Et. symmetry.
    unfold get. rewrite (G1 "title"), (F1 "title") by decided. done. }
  set (f := {| f_id := get p6 "id" (VStr "");
            f_title := strip t;
            f_price_value := get p6 "price_value" (VFloat 0);
            f_was_price_value := get p6 "was_price_value" (VFloat 0);
            f_save_value := get p6 "save_value" (VFloat 0);
            f_unit_price := get p6 "unit_price" (VStr "");
            f_url := get p6 "url" (VStr "");
            f_image_url := get p6 "image_url" (VStr "");
            f_category := get p6 "category" (VStr "");
            f_page := get p6 "page" (VInt 0);
            f_is_on_special := get p6 "is_on_special" (VBool false);
            f_special_text := get p6 "special_text" (VStr "");
            f_rate_value := get p6 "rate_value" (VFloat 0);
            f_rate_unit := get p6 "rate_unit" (VStr "");
            f_scrapedAt := get p6 "scrapedAt" (VStr now) |}).
  match goal with |- context [drop_none ?m] => change m with (to_dict f) end.
  assert (canonical f) as Hc.
  { subst f. split; simpl.
    - unfold values. simpl. repeat (constructor; [by apply no_none_get|]). constructor.
    - split; [by apply Htitle|apply strip_idem].
    - rewrite !(same_but_get _ _ _ _ _ G1) by decided. apply Cid.
    - rewrite !(same_but_get _ _ _ _ _ G4) by decided. apply Cunit.
    - rewrite !(same_but_get _ _ _ _ _ F6) by decided. split; [apply Cis|apply Csp].
    - exists due. split; [apply Cdue|apply Csave]. }
  exists f. split; [|done]. apply (second_drop_none _ Hc).
Qed.

End FirstPass.

(* ===================================================================== *)
(** * A second pass: the theorem                                          *)
(* ===================================================================== *)

Module SecondPassTheorems.
Import Py ColesProductProcessor Notions TextFacts ProcessFacts SecondPass FirstPass.
Import ProcessTheorems.

Lemma second_process_from clock processed : forall i,
  Forall (fun o => exists f, o = to_dict f /\ canonical f) processed ->
  process_from clock i processed = Ok (processed, processed).
Proof.
  induction processed as [|o rest IH]; intros i Hc; simpl; [done|].
  inversion Hc as [|? ? (f & -> & Hf) Hrest]; subst.
  rewrite (second_process_one f Hf). simpl. by rewrite (IH _ Hrest).
Qed.

(** C8, as amended.  On the output of a pass over records that hold no
    [None] and whose title and special text are not all whitespace, a
    second pass returns the same processed products, field for field,
    and leaves the records it was given as they were. *)
Theorem second_pass_identity (clock clock' : nat -> string)
    (products products' processed : list dict) :
  process_products clock products = Ok (products', processed) ->
  Forall (fun p => rejected p = false -> settled p) products ->
  process_products clock' processed = Ok (processed, processed).
Proof.
  intros H Hs. apply second_process_from.
  destruct (process_from_image _ _ _ _ _ H) as [HF _].
  apply list.Forall_forall. intros o Ho.
  apply list_elem_of_lookup in Ho as [n Hn].
  destruct (Forall2_lookup_r _ _ _ _ _ HF Hn) as ([i p] & Hip & p' & Hcan).
  apply list_elem_of_lookup_2 in Hip. apply elem_of_accepted in Hip as [Hrej Hin].
  rewrite list.Forall_forall in Hs. simpl in *.
  by eapply first_pass_canonical; [exact Hcan|apply Hs|].
Qed.

End SecondPassTheorems.

(* ===================================================================== *)
(** * Deduplication: what the two lists are                               *)
(* ===================================================================== *)

Module DedupMore.
Import Py ColesProductProcessor Notions DedupFacts DedupTheorems FloatFacts.

Lemma keep_sublist {A} (flags : list bool) (l : list A) : sublist (keep flags l) l.
Proof.
  revert l. induction flags as [|b flags IH]; intros [|x l]; simpl;
    try apply sublist_nil_l.
  destruct b; [by apply sublist_skip|by apply sublist_cons].
Qed.

Lemma elem_of_keep {A} (flags : list bool) (l : list A) x :
  x ∈ keep flags l <-> exists i, flags !! i = Some true /\ l !! i = Some x.
Proof.
  revert l. induction flags as [|b flags IH]; intros [|y l]; simpl.
  - rewrite elem_of_nil. naive_solver.
  - rewrite elem_of_nil. naive_solver.
  - rewrite elem_of_nil. split; [done|]. by intros (i & _ & ?).
  - destruct b.
    + rewrite elem_of_cons, IH. split.
      * intros [->|(i & ? & ?)]; [by exists 0%nat|by exists (S i)].
      * intros ([|i] & ? & ?); simpl in *; [left; congruence|right; eauto].
    + rewrite IH. split.
      * intros (i & ? & ?). by exists (S i).
      * intros ([|i] & ? & ?); simpl in *; [done|eauto].
Qed.

Lemma keys_of_keep flags : forall products keys,
  keys_of products = Ok keys -> keys_of (keep flags products) = Ok (keep flags keys).
Proof.
  induction flags as [|b flags IH]; intros [|p rest] keys; simpl; try by intros [= <-].
  - destruct (dedup_key p); simpl; [|done]. by destruct (keys_of rest).
  - destruct (dedup_key p) as [k|] eqn:Hk; simpl; [|done].
    destruct (keys_of rest) as [ks|] eqn:Hks; simpl; [|done].
    intros [= <-]. destruct b; simpl; rewrite ?Hk; rewrite (IH _ _ Hks); done.
Qed.

(** The keys that were kept are all fresh when gone through again. *)
Lemma classify_keep keys : forall seen,
  classify seen (keep (classify seen keys) keys) =
  replicate (length (keep (classify seen keys) keys)) true.
Proof.
  induction keys as [|k keys IH]; intros seen; simpl; [done|].
  destruct (set_contains seen k) eqn:Hk; simpl; [apply IH|].
  rewrite Hk. simpl. f_equal. apply IH.
Qed.

Lemma keep_all {A} (l : list A) :
  keep (replicate (length l) true) l = l /\
  keep (negb <$> replicate (length l) true) l = [].
Proof.
  induction l as [|x l [IH1 IH2]]; [done|]. split.
  - cbn. by rewrite IH1.
  - exact IH2.
Qed.

Lemma same_key_trans p q r : same_key p q -> same_key q r -> same_key p r.
Proof.
  intros (k & Hp & Hq & Hn) (k' & Hq' & Hr & _).
  assert (k' = k) as -> by congruence. by exists k.
Qed.

(** What [remove_duplicates] returns, with the keys of its input. *)
Lemma remove_duplicates_keys products :
  Forall hashable_id products ->
  exists keys,
    keys_of products = Ok keys /\
    let kept := classify [] keys in
    let unique := keep kept products in
    let duplicates := keep (negb <$> kept) products in
    length kept = length products /\
    remove_duplicates products =
    Ok (unique, duplicates,
        {| total_before := Z.of_nat (length products);
           total_after := Z.of_nat (length unique);
           duplicates_removed := Z.of_nat (length products) - Z.of_nat (length unique) |}).
Proof.
  intros H. destruct (keys_of_hashable _ H) as [keys Hk]. exists keys.
  split; [done|]. split; [by rewrite classify_length, (keys_of_length _ _ Hk)|].
  unfold remove_duplicates. by rewrite (dedup_loop_spec _ _ _ Hk).
Qed.

(** X1.  The figures that [remove_duplicates] leaves in [product_stats]
    are the sizes of its input and of its two outputs: the number of
    duplicates removed is the length of the list of duplicates. *)
Theorem remove_duplicates_stats (products : list dict) :
  Forall hashable_id products ->
  exists unique duplicates st,
    remove_duplicates products = Ok (unique, duplicates, st) /\
    total_before st = Z.of_nat (length products) /\
    total_after st = Z.of_nat (length unique) /\
    duplicates_removed st = Z.of_nat (length duplicates) /\
    total_before st = total_after st + duplicates_removed st.
Proof.
  intros H. destruct (remove_duplicates_keys _ H) as (keys & Hk & Hlen & Hr).
  eexists _, _, _. split; [exact Hr|]. cbn [total_before total_after duplicates_removed].
  pose proof (keep_length _ _ Hlen). lia.
Qed.

(** X2.  Both lists keep the order of the input: [unique] and
    [duplicates] are subsequences of it. *)
Theorem remove_duplicates_keeps_order (products : list dict) :
  Forall hashable_id products ->
  exists unique duplicates st,
    remove_duplicates products = Ok (unique, duplicates, st) /\
    sublist unique products /\ sublist duplicates products.
Proof.
  intros H. destruct (remove_duplicates_keys _ H) as (keys & Hk & Hlen & Hr).
  eexists _, _, _. split; [exact Hr|]. split; apply keep_sublist.
Qed.

Lemma unique_keys products keys :
  keys_of products = Ok keys ->
  let unique := keep (classify [] keys) products in
  exists keys', keys_of unique = Ok keys' /\
    classify [] keys' = replicate (length unique) true.
Proof.
  intros Hk unique. exists (keep (classify [] keys) keys).
  split; [by apply keys_of_keep|].
  rewrite classify_keep. f_equal.
  rewrite (keys_of_length _ _ (keys_of_keep (classify [] keys) _ _ Hk)). done.
Qed.

(** The records that are kept have different keys. *)
Lemma kept_distinct products keys :
  keys_of products = Ok keys ->
  forall i j p q, (i < j)%nat ->
    keep (classify [] keys) products !! i = Some p ->
    keep (classify [] keys) products !! j = Some q ->
    ~ same_key p q.
Proof.
  intros Hk i j p q Hij Hp Hq.
  destruct (unique_keys _ _ Hk) as (keys' & Hk' & Hc).
  destruct (kept_first _ _ j q Hk' Hq) as [Hfresh _].
  rewrite Hc in Hfresh. apply Hfresh with (j := i); [|done..].
  apply lookup_replicate. split; [done|]. by eapply lookup_lt_Some.
Qed.

(** X3.  No two records of [unique] have the same key. *)
Theorem unique_has_distinct_keys (products : list dict) :
  Forall hashable_id products ->
  exists unique duplicates st,
    remove_duplicates products = Ok (unique, duplicates, st) /\
    forall i j p q, (i < j)%nat -> unique !! i = Some p -> unique !! j = Some q ->
      ~ same_key p q.
Proof.
  intros H. destruct (remove_duplicates_keys _ H) as (keys & Hk & Hlen & Hr).
  eexists _, _, _. split; [exact Hr|]. by apply kept_distinct.
Qed.

(** X4.  A second call on [unique] finds nothing to remove. *)
Theorem remove_duplicates_idempotent (products : list dict) :
  Forall hashable_id products ->
  exists unique duplicates st st',
    remove_duplicates products = Ok (unique, duplicates, st) /\
    remove_duplicates unique = Ok (unique, [], st') /\
    duplicates_removed st' = 0.
Proof.
  intros H. destruct (remove_duplicates_keys _ H) as (keys & Hk & Hlen & Hr).
  destruct (unique_keys _ _ Hk) as (keys' & Hk' & Hc).
  set (unique := keep (classify [] keys) products) in *.
  eexists unique, _, _, _. split; [exact Hr|].
  unfold remove_duplicates. rewrite (dedup_loop_spec _ _ _ Hk'). cbn [bind seen_ids unique_products duplicate_products app].
  rewrite Hc. destruct (keep_all unique) as [-> ->].
  split; [done|]. cbn [duplicates_removed]. lia.
Qed.

(** X5.  Every record of [duplicates] has the key of a record of
    [unique] that comes before it in the input. *)
Theorem duplicates_are_represented (products : list dict) :
  Forall hashable_id products ->
  exists unique duplicates st,
    remove_duplicates products = Ok (unique, duplicates, st) /\
    forall q, q ∈ duplicates ->
      exists i j p, (i < j)%nat /\ products !! i = Some p /\ products !! j = Some q /\
        p ∈ unique /\ same_key p q.
Proof.
  intros H. destruct (remove_duplicates_keys _ H) as (keys & Hk & Hlen & Hr).
  eexists _, _, _. split; [exact Hr|].
  intros q (j & Hflag & Hq)%elem_of_keep.
  rewrite list_lookup_fmap in Hflag.
  destruct (classify [] keys !! j) as [[]|] eqn:Hj; simpl in Hflag; try done.
  destruct (kept_first _ _ j q Hk Hq) as [_ Hdup].
  apply Hdup in Hj as (i0 & p0 & Hi0 & Hp0 & Hs0).
  (* going back from one record with the key of [q] to the one that was kept *)
  assert (exists i p, (i < j)%nat /\ products !! i = Some p /\ same_key p q /\
            classify [] keys !! i = Some true) as (i & p & Hi & Hp & Hs & Hkept).
  { clear Hdup. revert p0 Hi0 Hp0 Hs0.
    induction i0 as [i0 IH] using lt_wf_ind. intros p0 Hi0 Hp0 Hs0.
    destruct (kept_first _ _ i0 p0 Hk Hp0) as [_ Hdup].
    destruct (keys_of_lookup _ _ _ _ Hk Hp0) as (k0 & Hk0 & _).
    pose proof (classify_lookup [] _ _ _ Hk0) as Hflag0.
    destruct (negb (set_contains (take i0 keys ++ []) k0)).
    - by exists i0, p0.
    - apply Hdup in Hflag0 as (i1 & p1 & Hi1 & Hp1 & Hs1).
      apply (IH i1 Hi1 p1); [lia|done|]. by eapply same_key_trans. }
  exists i, j, p. repeat split; try done.
  apply elem_of_keep. by exists i.
Qed.

(** The texts of two numbers are the same only if the numbers are. *)
Lemma py_str_price_inj v1 v2 : price v1 -> price v2 -> py_str v1 = py_str v2 -> v1 = v2.
Proof.
  intros H1 H2 E.
  destruct v1 as [| |z1|f1| |]; cbn [price] in H1; try contradiction;
    destruct v2 as [| |z2|f2| |]; cbn [price] in H2; try contradiction;
    cbn [py_str py_repr] in E.
  - f_equal. by apply str_of_Z_inj.
  - symmetry in E. by apply float_repr_not_int in E.
  - by apply float_repr_not_int in E.
  - f_equal. by apply float_repr_inj.
Qed.

(** X6.  Of two records without an id that have one title and whose
    prices are numbers, the second is a duplicate when the two prices
    are the same number, and both are kept when they are not: the texts
    of two numbers that differ in value or in type differ. *)
Theorem numeric_prices_tell_apart (r1 r2 : dict) :
  truthy (get r1 "id" (VStr "")) = false ->
  truthy (get r2 "id" (VStr "")) = false ->
  get r1 "title" (VStr "") = get r2 "title" (VStr "") ->
  price (get r1 "price_value" (VInt 0)) ->
  price (get r2 "price_value" (VInt 0)) ->
  (get r1 "price_value" (VInt 0) = get r2 "price_value" (VInt 0) ->
   exists st, remove_duplicates [r1; r2] = Ok ([r1], [r2], st)) /\
  (get r1 "price_value" (VInt 0) <> get r2 "price_value" (VInt 0) ->
   exists st, remove_duplicates [r1; r2] = Ok ([r1; r2], [], st)).
Proof.
  intros H1 H2 Ht P1 P2.
  pose proof (falsy_id_key _ H1) as K1. pose proof (falsy_id_key _ H2) as K2.
  assert (Hk : keys_of [r1; r2] = Ok [KStr (pseudo_id r1); KStr (pseudo_id r2)]).
  { simpl. by rewrite K1, K2. }
  destruct (remove_duplicates_spec _ _ Hk) as [st Hr]. split.
  - intros E. exists st. rewrite Hr.
    assert (pseudo_id r1 = pseudo_id r2) as -> by (apply (pseudo_id_eq r1 r2 Ht); by rewrite E).
    simpl. unfold set_contains, set_add. simpl. by rewrite bool_decide_eq_true_2.
  - intros Hne. exists st. rewrite Hr. simpl. unfold set_contains, set_add. simpl.
    rewrite bool_decide_eq_false_2; [done|].
    intros [= E]. symmetry in E. apply (pseudo_id_eq r1 r2 Ht) in E.
    by apply py_str_price_inj in E.
Qed.

End DedupMore.

(* ===================================================================== *)
(** * Canonicalisation: the processed product and the record              *)
(* ===================================================================== *)

Module ProcessMore.
Import Py ColesProductProcessor Notions TextFacts ProcessFacts ProcessTheorems.

(** The record as each step finds it. *)
Lemma canonicalize_trace now product product' processed :
  canonicalize now product = Ok (product', processed) ->
  exists p1 p3 unit_price p5 raw,
    derive_id product = Ok p1 /\
    clean_unit_price (<["vendor" := VStr "coles"]> p1) = Ok (p3, unit_price) /\
    parse_special (extract_rate p3 unit_price) = Ok p5 /\
    derive_save_value p5 = Ok product' /\
    cleaned product' now = Ok raw /\
    processed = drop_none raw /\
    same_but ["id"] product p1 /\
    same_but ["id"; "vendor"; "unit_price"; "rate_value"; "rate_unit"] product
      (extract_rate p3 unit_price) /\
    same_but early_keys product p5 /\
    same_but written_keys product product'.
Proof.
  intros (p1 & p3 & u & p5 & raw & H1 & H3 & H5 & H6 & H7 & ->)%canonicalize_steps.
  exists p1, p3, u, p5, raw. repeat (split; [done|]).
  pose proof (derive_id_frame _ _ H1) as F1.
  pose proof (clean_unit_price_frame _ _ _ H3) as F3.
  pose proof (extract_rate_frame p3 u) as F4.
  pose proof (parse_special_frame _ _ H5) as F5.
  pose proof (derive_save_value_frame _ _ H6) as F6.
  assert (same_but ["id"; "vendor"; "unit_price"; "rate_value"; "rate_unit"] product
            (extract_rate p3 u)) as F4'.
  { eapply same_but_trans; [eapply same_but_mono; [|exact F1]; decided|].
    eapply same_but_trans; [apply (same_but_insert _ _ "vendor"); decided|].
    eapply same_but_trans; [eapply same_but_mono; [|exact F3]; decided|].
    eapply same_but_mono; [|exact F4]. decided. }
  assert (same_but early_keys product p5) as F5'.
  { eapply same_but_trans; [eapply same_but_mono; [|exact F4']; unfold early_keys; decided|].
    eapply same_but_mono; [|exact F5]. unfold early_keys; decided. }
  split; [done|]. split; [done|]. split; [done|].
  eapply same_but_trans; [eapply same_but_mono; [|exact F5']; unfold written_keys; decided|].
  eapply same_but_mono; [|exact F6]. unfold written_keys; decided.
Qed.

Lemma lookup_processed (raw : dict) k v :
  raw !! k = Some v -> drop_none raw !! k = kept_value v.
Proof. intros H. by rewrite drop_none_lookup, H. Qed.

Lemma parse_special_flag product product' :
  parse_special product = Ok product' ->
  product' !! "is_on_special"
    = Some (VBool (truthy (get product "special_text" (VStr "")))).
Proof.
  intros [(Ht & ->)|(s & Hs & Hne & ->)]%parse_special_cases.
  - by rewrite lookup_insert_eq, Ht.
  - rewrite lookup_insert_ne, lookup_insert_eq by done.
    unfold get. rewrite Hs. simpl. by destruct s.
Qed.

(** What one accepted record gives. *)
Lemma canonicalize_fields now product product' processed :
  canonicalize now product = Ok (product', processed) ->
  let special := VBool (truthy (get product "special_text" (VStr ""))) in
  (forall k, is_Some (processed !! k) -> k ∈ field_names) /\
  no_none processed /\
  processed !! "vendor" = Some (VStr "coles") /\
  processed !! "is_on_special" = Some special /\
  (exists t, get product "title" (VStr "") = VStr t /\
     processed !! "title" = Some (VStr (strip t))) /\
  product' !! "vendor" = Some (VStr "coles") /\
  product' !! "is_on_special" = Some special /\
  same_but written_keys product product' /\
  processed !! "price_value" = kept_value (get product "price_value" (VFloat 0)) /\
  processed !! "was_price_value" = kept_value (get product "was_price_value" (VFloat 0)) /\
  processed !! "url" = kept_value (get product "url" (VStr "")) /\
  processed !! "image_url" = kept_value (get product "image_url" (VStr "")) /\
  processed !! "category" = kept_value (get product "category" (VStr "")) /\
  processed !! "page" = kept_value (get product "page" (VInt 0)) /\
  processed !! "scrapedAt" = kept_value (get product "scrapedAt" (VStr now)).
Proof.
  intros (p1 & p3 & u & p5 & raw & H1 & H3 & H5 & H6 & H7 & -> & F1 & F4 & F5 & F6)
    %canonicalize_trace special.
  apply cleaned_cases in H7 as (t & Ht & Hraw).
  assert (product' !! "is_on_special" = Some special) as Hflag.
  { pose proof (derive_save_value_frame _ _ H6) as F.
    rewrite (F "is_on_special") by decided. rewrite (parse_special_flag _ _ H5).
    unfold special. by rewrite (same_but_get _ _ _ _ _ F4) by decided. }
  assert (product' !! "vendor" = Some (VStr "coles")) as Hvendor.
  { pose proof (derive_save_value_frame _ _ H6) as F.
    pose proof (parse_special_frame _ _ H5) as F'.
    pose proof (extract_rate_frame p3 u) as F''.
    pose proof (clean_unit_price_frame _ _ _ H3) as F'''.
    rewrite (F "vendor"), (F' "vendor"), (F'' "vendor"), (F''' "vendor") by decided.
    apply lookup_insert_eq. }
  assert (forall k dflt, k ∉ written_keys -> get product' k dflt = get product k dflt) as Hsame.
  { intros k dflt Hk. by apply (same_but_get _ _ _ _ _ F6). }
  split; [|split; [|repeat split]]; try done.
  - intros k [v Hk]. rewrite drop_none_lookup in Hk.
    destruct (raw !! k) as [w|] eqn:Hw; [|done].
    rewrite Hraw in Hw. apply elem_of_list_to_map_2 in Hw.
    apply (list_elem_of_fmap_2 fst) in Hw. exact Hw.
  - intros k. rewrite drop_none_lookup. destruct (raw !! k) as [[]|]; simpl; congruence.
  - rewrite (lookup_processed raw "vendor" (VStr "coles")); [done|]. by rewrite Hraw.
  - rewrite (lookup_processed raw "is_on_special" special); [done|].
    rewrite Hraw.
    change (_ !! "is_on_special") with (Some (get product' "is_on_special" (VBool false))).
    unfold get. by rewrite Hflag.
  - exists t. split.
    + rewrite <- Ht. symmetry. apply Hsame. unfold written_keys, early_keys. decided.
    + rewrite (lookup_processed raw "title" (VStr (strip t))); [done|]. by rewrite Hraw.
  - rewrite <- (Hsame "price_value") by (unfold written_keys, early_keys; decided).
    apply lookup_processed. by rewrite Hraw.
  - rewrite <- (Hsame "was_price_value") by (unfold written_keys, early_keys; decided).
    apply lookup_processed. by rewrite Hraw.
  - rewrite <- (Hsame "url") by (unfold written_keys, early_keys; decided).
    apply lookup_processed. by rewrite Hraw.
  - rewrite <- (Hsame "image_url") by (unfold written_keys, early_keys; decided).
    apply lookup_processed. by rewrite Hraw.
  - rewrite <- (Hsame "category") by (unfold written_keys, early_keys; decided).
    apply lookup_processed. by rewrite Hraw.
  - rewrite <- (Hsame "page") by (unfold written_keys, early_keys; decided).
    apply lookup_processed. by rewrite Hraw.
  - rewrite <- (Hsame "scrapedAt") by (unfold written_keys, early_keys; decided).
    apply lookup_processed. by rewrite Hraw.
Qed.

Lemma process_from_records clock products : forall i products' processed,
  process_from clock i products = Ok (products', processed) ->
  Forall2 (fun p p' => if rejected p then p' = p
                       else exists now o, canonicalize now p = Ok (p', o))
    products products'.
Proof.
  induction products as [|p rest IH]; intros i products' processed; simpl.
  - intros [= <- <-]. constructor.
  - unfold process_one. destruct (rejected p) eqn:Hr; simpl.
    + destruct (process_from clock (S i) rest) as [[ps os]|] eqn:Hrest; simpl; [|done].
      intros [= <- <-]. constructor; [by rewrite Hr|by eapply IH].
    + destruct (canonicalize (clock i) p) as [[p' o]|] eqn:Hc; simpl; [|done].
      destruct (process_from clock (S i) rest) as [[ps os]|] eqn:Hrest; simpl; [|done].
      intros [= <- <-]. constructor; [rewrite Hr; eauto|by eapply IH].
Qed.

Lemma accepted_get_title (p : dict) t :
  rejected p = false -> get p "title" (VStr "") = VStr t -> p !! "title" = Some (VStr t).
Proof.
  unfold rejected, get. destruct (p !! "title"); simpl; [congruence|done].
Qed.

Lemma Forall2_with {A B} (P : A -> B -> Prop) (Q : A -> Prop) l k :
  Forall2 P l k -> Forall Q l -> Forall2 (fun x y => Q x /\ P x y) l k.
Proof.
  induction 1 as [|x y l k Hxy _ IH]; intros HQ; [constructor|].
  inversion HQ; subst. constructor; auto.
Qed.

Lemma accepted_not_rejected i products :
  Forall (fun ip : nat * dict => rejected ip.2 = false) (accepted i products).
Proof.
  apply list.Forall_forall. intros [j p] Hin. by apply elem_of_accepted in Hin as [? _].
Qed.

(** X7.  Every processed product has the same shape: its fields are
    among the sixteen of lines 90-105, none holds [None], [vendor] is
    the text coles, [is_on_special] is the truth value of the record's
    [special_text], and [title] is the record's title, trimmed. *)
Theorem processed_product_shape (clock : nat -> string)
    (products products' processed : list dict) :
  process_products clock products = Ok (products', processed) ->
  Forall2 (fun (ip : nat * dict) o =>
             (forall k, is_Some (o !! k) -> k ∈ field_names) /\
             no_none o /\
             o !! "vendor" = Some (VStr "coles") /\
             o !! "is_on_special"
               = Some (VBool (truthy (get ip.2 "special_text" (VStr "")))) /\
             exists t, ip.2 !! "title" = Some (VStr t) /\
               o !! "title" = Some (VStr (strip t)) /\
               strip (strip t) = strip t)
    (accepted 0 products) processed.
Proof.
  intros H. destruct (process_from_image _ _ _ _ _ H) as [HF _].
  eapply Forall2_impl; [exact (Forall2_with _ _ _ _ HF (accepted_not_rejected 0 products))|].
  clear HF. intros [i p] o [Hrej [p' Hc]]. simpl in *.
  destruct (canonicalize_fields _ _ _ _ Hc)
    as (Hk & Hn & Hv & Hs & (t & Ht & Ht') & _).
  repeat (split; [done|]). exists t.
  split; [by apply accepted_get_title|]. split; [done|apply strip_idem].
Qed.

(** X8.  The prices, the links, the category, the page and the scrape
    time go from the record to the processed product as they are: an
    absent one is given its default (the clock's reading for the scrape
    time) and a [None] is dropped. *)
Theorem untouched_fields_pass_through (clock : nat -> string)
    (products products' processed : list dict) :
  process_products clock products = Ok (products', processed) ->
  Forall2 (fun (ip : nat * dict) o =>
             o !! "price_value" = kept_value (get ip.2 "price_value" (VFloat 0)) /\
             o !! "was_price_value" = kept_value (get ip.2 "was_price_value" (VFloat 0)) /\
             o !! "url" = kept_value (get ip.2 "url" (VStr "")) /\
             o !! "image_url" = kept_value (get ip.2 "image_url" (VStr "")) /\
             o !! "category" = kept_value (get ip.2 "category" (VStr "")) /\
             o !! "page" = kept_value (get ip.2 "page" (VInt 0)) /\
             o !! "scrapedAt" = kept_value (get ip.2 "scrapedAt" (VStr (clock ip.1))))
    (accepted 0 products) processed.
Proof.
  intros H. destruct (process_from_image _ _ _ _ _ H) as [HF _].
  eapply Forall2_impl; [exact HF|]. clear HF.
  intros [i p] o [p' Hc]. simpl in *.
  destruct (canonicalize_fields _ _ _ _ Hc)
    as (_ & _ & _ & _ & _ & _ & _ & _ & H1 & H2 & H3 & H4 & H5 & H6 & H7).
  done.
Qed.

(** X9.  [process_products] updates the records it is given: a record
    without a title is left as it is; in any other, [vendor] and
    [is_on_special] are set, and nothing is written outside [id],
    [vendor], [unit_price], [rate_value], [rate_unit], [is_on_special],
    [special_text] and [save_value]. *)
Theorem records_are_updated_in_place (clock : nat -> string)
    (products products' processed : list dict) :
  process_products clock products = Ok (products', processed) ->
  Forall2 (fun p p' =>
             if rejected p then p' = p
             else same_but written_keys p p' /\
                  p' !! "vendor" = Some (VStr "coles") /\
                  p' !! "is_on_special"
                    = Some (VBool (truthy (get p "special_text" (VStr "")))))
    products products'.
Proof.
  intros H. eapply Forall2_impl; [exact (process_from_records _ _ _ _ _ H)|].
  intros p p'. simpl. destruct (rejected p); [done|].
  intros (now & o & Hc).
  destruct (canonicalize_fields _ _ _ _ Hc)
    as (_ & _ & _ & _ & _ & Hv & Hs & Hf & _).
  done.
Qed.

(** ** The id at the end of the url *)

Lemma span_digits_end s : all_digits s = true -> span isdigit s = (s, EmptyString).
Proof.
  induction s as [|c s IH]; simpl; [done|].
  intros [Hc Hs]%andb_true_iff. by rewrite Hc, (IH Hs).
Qed.

Lemma span_digits_hyphen p s :
  exists a b, span isdigit (p +:+ String "-" s) = (a, b +:+ String "-" s).
Proof.
  induction p as [|c p (a & b & IH)]; simpl.
  - by exists EmptyString, EmptyString.
  - destruct (isdigit c).
    + rewrite IH. by exists (String c a), b.
    + by exists EmptyString, (String c p).
Qed.

(** The pattern finds the digits after the last hyphen of a text that
    ends with them. *)
Lemma search_url_id_end p ds :
  ds <> EmptyString -> all_digits ds = true ->
  Re.search_url_id (p +:+ String "-" ds) = Some ds.
Proof.
  intros Hne Hd. induction p as [|c p IH]; simpl.
  - rewrite (span_digits_end _ Hd). by apply nonempty_true in Hne as ->.
  - destruct (Ascii.eqb c "-"); [|done].
    destruct (span_digits_hyphen p ds) as (a & b & ->).
    replace (nonempty a && _) with false; [done|].
    symmetry. apply andb_false_iff. right.
    destruct b as [|c' b]; simpl; [by destruct ds|].
    destruct (Ascii.eqb c' _); [|done]. by destruct b.
Qed.

Lemma derive_id_id product p1 :
  derive_id product = Ok p1 ->
  (truthy (get product "id" VNone) = true -> p1 !! "id" = product !! "id") /\
  (truthy (get product "id" VNone) = false ->
   forall p ds, product !! "url" = Some (VStr (p +:+ String "-" ds)) ->
     ds <> EmptyString -> all_digits ds = true -> p1 !! "id" = Some (VStr ds)).
Proof.
  unfold derive_id. intros H. split.
  - intros Ht. rewrite Ht in H. simpl in H. by injection H as <-.
  - intros Ht p ds Hu Hne Hd.
    assert (truthy (get product "url" VNone) = true) as Hurl
      by (unfold get; rewrite Hu; by destruct p).
    rewrite Ht, Hurl in H. cbn [negb andb] in H.
    unfold get in H. rewrite Hu in H. cbn [default from_option id] in H.
    rewrite (search_url_id_end p ds Hne Hd) in H. injection H as <-.
    apply lookup_insert_eq.
Qed.

(** X10.  A record with an id keeps it; a record without one whose url
    ends in a hyphen and digits is given those digits as its id. *)
Theorem id_is_read_off_the_url (clock : nat -> string)
    (products products' processed : list dict) :
  process_products clock products = Ok (products', processed) ->
  Forall2 (fun (ip : nat * dict) o =>
             (truthy (get ip.2 "id" VNone) = true -> o !! "id" = ip.2 !! "id") /\
             (truthy (get ip.2 "id" VNone) = false ->
              forall p ds, ip.2 !! "url" = Some (VStr (p +:+ String "-" ds)) ->
                ds <> EmptyString -> all_digits ds = true ->
                o !! "id" = Some (VStr ds)))
    (accepted 0 products) processed.
Proof.
  intros H. destruct (process_from_image _ _ _ _ _ H) as [HF _].
  eapply Forall2_impl; [exact HF|]. clear HF.
  intros [i p] o [p' Hc]. simpl in *.
  apply canonicalize_trace in Hc
    as (p1 & p3 & u & p5 & raw & H1 & H3 & H5 & H6 & H7 & -> & F1 & F4 & F5 & F6).
  apply cleaned_cases in H7 as (t & Ht & Hraw).
  assert (p' !! "id" = p1 !! "id") as Hid.
  { pose proof (derive_save_value_frame _ _ H6) as G6.
    pose proof (parse_special_frame _ _ H5) as G5.
    pose proof (extract_rate_frame p3 u) as G4.
    pose proof (clean_unit_price_frame _ _ _ H3) as G3.
    rewrite (G6 "id"), (G5 "id"), (G4 "id"), (G3 "id") by decided.
    by apply lookup_insert_ne. }
  assert (forall v, p1 !! "id" = Some v -> truthy v = true ->
            drop_none raw !! "id" = Some v) as Hout.
  { intros v Hv Htv. rewrite (lookup_processed raw "id" v).
    - unfold kept_value. by destruct v.
    - rewrite Hraw. change (_ !! "id") with (Some (get p' "id" (VStr ""))).
      unfold get. by rewrite Hid, Hv. }
  destruct (derive_id_id _ _ H1) as [Hkeep Hurl]. split.
  - intros Htr. rewrite <- (Hkeep Htr).
    specialize (Hkeep Htr). unfold get in Htr.
    destruct (p !! "id") as [v|] eqn:Hv; [|done]. rewrite Hkeep. by apply Hout.
  - intros Hf q ds Hu Hne Hd. apply Hout; [by eapply Hurl|]. simpl.
    by apply nonempty_true.
Qed.

End ProcessMore.

(* ===================================================================== *)
(** * The price in a text                                                  *)
(* ===================================================================== *)

Module PriceText.
Import Py ColesProductProcessor Notions TextFacts.

Lemma span_app p a b :
  span p a = (a, EmptyString) ->
  match b with EmptyString => True | String c _ => p c = false end ->
  span p (a +:+ b) = (a, b).
Proof.
  revert b. induction a as [|c a IH]; intros b Ha Hb; simpl in *.
  - destruct b as [|c b]; [done|]. simpl. by rewrite Hb.
  - destruct (p c); [|done].
    destruct (span p a) as [a' r] eqn:E. injection Ha as -> ->.
    by rewrite (IH b eq_refl Hb).
Qed.

Lemma span_all_digits s : all_digits s = true -> span isdigit s = (s, EmptyString).
Proof.
  induction s as [|c s IH]; simpl; [done|].
  intros [Hc Hs]%andb_true_iff. by rewrite Hc, (IH Hs).
Qed.

Lemma span_digits p s a b : span p s = (a, b) ->
  s = a +:+ b /\ span p a = (a, EmptyString) /\
  match b with EmptyString => True | String c _ => p c = false end.
Proof.
  revert a b. induction s as [|c s IH]; intros a b; simpl.
  - by intros [= <- <-].
  - destruct (p c) eqn:Hc.
    + destruct (span p s) as [a' b'] eqn:E. intros [= <- <-].
      destruct (IH _ _ eq_refl) as (-> & Ha & Hb). simpl. by rewrite Hc, Ha.
    + intros [= <- <-]. simpl. by rewrite Hc.
Qed.

Lemma span_digits_all s a b : span isdigit s = (a, b) -> all_digits a = true.
Proof.
  revert a b. induction s as [|c s IH]; intros a b; simpl.
  - by intros [= <- <-].
  - destruct (isdigit c) eqn:Hc.
    + destruct (span isdigit s) as [a' b'] eqn:E. intros [= <- <-]. simpl.
      by rewrite Hc, (IH _ _ eq_refl).
    + by intros [= <- <-].
Qed.

Lemma starts_with_digit_false b :
  starts_with_digit b = false ->
  match b with EmptyString => True | String c _ => isdigit c = false end.
Proof. by destruct b. Qed.

(** A test on the first character of a text, written with [eqb]. *)
Lemma point_cases {A} (tail : string) (f : string -> A) (d : A) :
  match tail with String "." tail' => f tail' | _ => d end =
  match tail with
  | EmptyString => d
  | String c tail' => if Ascii.eqb c "." then f tail' else d
  end.
Proof.
  destruct tail as [|c t]; [done|].
  destruct (Ascii.eqb_spec c ".") as [->|Hne]; [done|].
  destruct c as [[] [] [] [] [] [] [] []]; done.
Qed.

(** Reading digits, and digits with a fraction. *)
Lemma float_of_decimal_digits ds :
  all_digits ds = true -> ds <> EmptyString ->
  float_of_decimal ds = Ok (decimal_value ds "").
Proof.
  intros Hd Hne. unfold float_of_decimal, decimal_value.
  rewrite (span_all_digits _ Hd). apply nonempty_true in Hne as ->. done.
Qed.

Lemma float_of_decimal_fraction ds fs :
  all_digits ds = true -> all_digits fs = true -> fs <> EmptyString ->
  float_of_decimal (ds +:+ String "." fs) = Ok (decimal_value ds fs).
Proof.
  intros Hd Hf Hne. unfold float_of_decimal, decimal_value.
  rewrite (span_app isdigit ds (String "." fs)); [|by apply span_all_digits|done].
  rewrite (span_all_digits _ Hf). apply nonempty_true in Hne as ->.
  by rewrite orb_true_r.
Qed.

(** What the pattern finds at a digit. *)
Lemma search_number_at_digit c rest :
  isdigit c = true ->
  exists ds tail, span isdigit (String c rest) = (ds, tail) /\
    all_digits ds = true /\ ds <> EmptyString /\
    Re.search_number (String c rest) =
    match tail with
    | EmptyString => Some ds
    | String c' tail' =>
        if Ascii.eqb c' "." then
          if nonempty (span isdigit tail').1 then Some (ds +:+ String "." (span isdigit tail').1)
          else Some ds
        else Some ds
    end.
Proof.
  intros Hc. cbn [Re.search_number]. rewrite Hc.
  destruct (span isdigit (String c rest)) as [ds tail] eqn:E.
  exists ds, tail. split; [done|]. split; [by eapply span_digits_all|]. split.
  { simpl in E. rewrite Hc in E. destruct (span isdigit rest). by injection E as <- _. }
  rewrite (point_cases tail
             (fun tail' => let '(fs, _) := span isdigit tail' in
                           if nonempty fs then Some (ds +:+ String "." fs) else Some ds)).
  destruct tail as [|c' tail']; [done|].
  destruct (Ascii.eqb c' "."); [|done]. by destruct (span isdigit tail').
Qed.

(** What the pattern finds can be read as a float. *)
Lemma search_number_decimal text number :
  Re.search_number text = Some number -> exists value, float_of_decimal number = Ok value.
Proof.
  induction text as [|c rest IH]; [done|].
  destruct (isdigit c) eqn:Hc; [|by simpl; rewrite Hc].
  destruct (search_number_at_digit c rest Hc) as (ds & tail & _ & Hd & Hne & ->).
  destruct tail as [|c' tail'].
  - intros [= <-]. rewrite float_of_decimal_digits; eauto.
  - destruct (Ascii.eqb c' ".").
    + destruct (span isdigit tail') as [fs r] eqn:E. simpl.
      destruct (nonempty fs) eqn:Hf.
      * intros [= <-]. rewrite float_of_decimal_fraction; eauto.
        -- by eapply span_digits_all.
        -- by apply nonempty_true.
      * intros [= <-]. rewrite float_of_decimal_digits; eauto.
    + intros [= <-]. rewrite float_of_decimal_digits; eauto.
Qed.

Lemma search_number_none text : digit_free text = true -> Re.search_number text = None.
Proof.
  induction text as [|c rest IH]; simpl; [done|].
  intros [Hc Hr]%andb_true_iff. apply negb_true_iff in Hc. rewrite Hc. by apply IH.
Qed.

Lemma digit_free_remove_char c s : digit_free s = true -> digit_free (remove_char c s) = true.
Proof.
  induction s as [|c' s IH]; simpl; [done|].
  intros [Hc Hs]%andb_true_iff. destruct (Ascii.eqb c' c); simpl; [by apply IH|].
  by rewrite Hc, IH.
Qed.

(** X11.  [extract_price_value] returns [0.0] on a value that is false,
    returns a float on every text, which is [0.0] when the text has no
    digit, and raises [AttributeError] on any other value that is true:
    the removal of the dollar signs is outside the [try]. *)
Theorem extract_price_value_outcomes :
  (forall v, truthy v = false -> extract_price_value v = Ok 0%float) /\
  (forall s, exists value, extract_price_value (VStr s) = Ok value) /\
  (forall s, digit_free s = true -> extract_price_value (VStr s) = Ok 0%float) /\
  (forall v, truthy v = true -> (forall s, v <> VStr s) ->
     extract_price_value v = Raise AttributeError).
Proof.
  split; [|split; [|split]].
  - intros v Hv. unfold extract_price_value. by rewrite Hv.
  - intros s. unfold extract_price_value.
    destruct (truthy (VStr s)); simpl; [|eauto].
    destruct (Re.search_number (remove_char "$" s)) as [number|] eqn:E; [|eauto].
    destruct (search_number_decimal _ _ E) as [value ->]. eauto.
  - intros s Hs. unfold extract_price_value.
    destruct (truthy (VStr s)); simpl; [|done].
    by rewrite (search_number_none _ (digit_free_remove_char _ _ Hs)).
  - intros v Hv Hs. unfold extract_price_value. rewrite Hv. simpl.
    destruct v; try done. by destruct (Hs s).
Qed.

Lemma search_number_skip pre text :
  digit_free pre = true -> Re.search_number (pre +:+ text) = Re.search_number text.
Proof.
  induction pre as [|c pre IH]; simpl; [done|].
  intros [Hc Hr]%andb_true_iff. apply negb_true_iff in Hc. rewrite Hc. by apply IH.
Qed.

Lemma remove_char_empty c s : remove_char c s <> EmptyString -> s <> EmptyString.
Proof. by destruct s. Qed.

Lemma append_nonempty a b : a <> EmptyString -> a +:+ b <> EmptyString.
Proof. by destruct a. Qed.

Lemma append_nonempty_r a b : b <> EmptyString -> a +:+ b <> EmptyString.
Proof. by destruct a, b. Qed.

(** X12.  The price is the first number of the text, the dollar signs
    taken out: the first run of digits, with the digits after a point
    that follows it, read as a decimal number and rounded to the nearest
    double.  What comes before the run and after the number is ignored. *)
Theorem extract_price_value_first_number (s pre ds rest : string) :
  remove_char "$" s = pre +:+ ds +:+ rest ->
  digit_free pre = true -> all_digits ds = true -> ds <> EmptyString ->
  starts_with_digit rest = false ->
  (forall fs rest', rest = String "." (fs +:+ rest') ->
     all_digits fs = true -> fs <> EmptyString -> starts_with_digit rest' = false ->
     extract_price_value (VStr s) = Ok (decimal_value ds fs)) /\
  ((forall c r, rest = String "." (String c r) -> isdigit c = false) ->
   extract_price_value (VStr s) = Ok (decimal_value ds "")).
Proof.
  intros Hs Hpre Hd Hne Hrest.
  assert (truthy (VStr s) = true) as Ht.
  { apply nonempty_true. apply (remove_char_empty "$"). rewrite Hs.
    by apply append_nonempty_r, append_nonempty. }
  assert (exists c ds', ds = String c ds' /\ isdigit c = true) as (c & ds' & Eds & Hc).
  { destruct ds as [|c ds']; [done|]. simpl in Hd. apply andb_true_iff in Hd as [? _]. eauto. }

  assert (Re.search_number (remove_char "$" s) =
          match rest with
          | EmptyString => Some ds
          | String c' tail' =>
              if Ascii.eqb c' "." then
                if nonempty (span isdigit tail').1
                then Some (ds +:+ String "." (span isdigit tail').1)
                else Some ds
              else Some ds
          end) as Hsearch.
  { rewrite Hs, (search_number_skip _ _ Hpre).
    replace (ds +:+ rest) with (String c (ds' +:+ rest)) by (by rewrite Eds).
    destruct (search_number_at_digit c (ds' +:+ rest) Hc) as (ds0 & tail & Hspan & _ & _ & ->).
    replace (String c (ds' +:+ rest)) with (ds +:+ rest) in Hspan by (by rewrite Eds).
    rewrite (span_app isdigit ds rest) in Hspan;
      [|by apply span_all_digits|by apply starts_with_digit_false].
    by injection Hspan as <- <-. }
  unfold extract_price_value. rewrite Ht. cbn [negb]. rewrite Hsearch. split.
  - intros fs rest' -> Hf Hfne Hr'. rewrite Ascii.eqb_refl.
    rewrite (span_app isdigit fs rest');
      [|by apply span_all_digits|by apply starts_with_digit_false].
    cbn [fst]. apply nonempty_true in Hfne as E. rewrite E.
    by rewrite float_of_decimal_fraction.
  - intros Hpoint.
    destruct rest as [|c' tail']; [by rewrite float_of_decimal_digits|].
    destruct (Ascii.eqb_spec c' ".") as [->|_]; [|by rewrite float_of_decimal_digits].
    destruct tail' as [|c'' r]; [by simpl; rewrite float_of_decimal_digits|].
    simpl. rewrite (Hpoint c'' r eq_refl). simpl. by rewrite float_of_decimal_digits.
Qed.

End PriceText.

(* ===================================================================== *)
(** * The duplicate report                                                 *)
(* ===================================================================== *)

Module Report.
Import Py ColesProductProcessor Notions DedupFacts.




Lemma report_entries_head duplicate_products : forall i0 i product,
  duplicate_products !! i = Some product ->
  entry_head (i0 + i) product ∈ report_entries i0 duplicate_products.
Proof.
  induction duplicate_products as [|p rest IH]; intros i0 i product Hi; [done|].
  cbn [report_entries]. apply elem_of_app. destruct i as [|i]; simpl in Hi.
  - injection Hi as ->. left. rewrite Nat.add_0_r. unfold report_entry. set_solver.
  - right. replace (i0 + S i)%nat with (S i0 + i)%nat by lia. by apply IH.
Qed.

(** What [remove_duplicates] returns, with the sizes. *)
Lemma remove_duplicates_sizes products :
  Forall hashable_id products ->
  exists unique duplicates st,
    remove_duplicates products = Ok (unique, duplicates, st) /\
    total_before st = Z.of_nat (length products) /\
    total_after st = Z.of_nat (length unique) /\
    duplicates_removed st = Z.of_nat (length duplicates).
Proof.
  intros H. destruct (keys_of_hashable _ H) as [keys Hk].
  unfold remove_duplicates. rewrite (dedup_loop_spec _ _ _ Hk).
  eexists _, _, _. split; [done|].
  cbn [total_before total_after duplicates_removed seen_ids unique_products
       duplicate_products app].
  pose proof (keep_length (classify [] keys) products) as Hlen.
  rewrite classify_length, (keys_of_length _ _ Hk) in Hlen. specialize (Hlen eq_refl).
  lia.
Qed.

(** X14.  The report written after [remove_duplicates], from the
    duplicates it returned, agrees with that call: its three figures
    are the sizes of the input, of [unique] and of [duplicates], and it
    has an entry, numbered from one, for each duplicate. *)
Theorem report_agrees_with_remove_duplicates (products : list dict)
    (now : string) (category_name : pyval) :
  Forall hashable_id products ->
  exists unique duplicates st,
    remove_duplicates products = Ok (unique, duplicates, st) /\
    let lines := report_lines (Some st) now duplicates category_name in
    lines !! 3%nat = Some ("Total products before removal: "
                            +:+ str_of_Z (Z.of_nat (length products))) /\
    lines !! 4%nat = Some ("Unique products after removal: "
                            +:+ str_of_Z (Z.of_nat (length unique))) /\
    lines !! 5%nat = Some ("Duplicates removed: "
                            +:+ str_of_Z (Z.of_nat (length duplicates))) /\
    forall i product, duplicates !! i = Some product ->
      entry_head (S i) product ∈ lines.
Proof.
  intros H.
  destruct (remove_duplicates_sizes _ H) as (unique & duplicates & st & Hr & H1 & H2 & H3).
  exists unique, duplicates, st. split; [done|].
  unfold report_lines. cbn [stat]. rewrite H1, H2, H3.
  repeat (split; [reflexivity|]).
  intros i product Hi. apply elem_of_app. right.
  destruct duplicates as [|p rest]; [done|].
  apply elem_of_cons. right. by apply (report_entries_head (p :: rest) 1 i).
Qed.

End Report.

(* ===================================================================== *)
(** * Cross-category duplicates of deduplicated categories                *)
(* ===================================================================== *)

Module CrossMore.
Import Py ColesProductProcessor Notions DedupFacts CrossFacts DedupTheorems DedupMore.

(** The groups that are returned, by their keys. *)
Lemma cross_result_pairs items :
  Forall (fun item : string * list dict => Forall hashable_get_id item.2) items ->
  exists result,
    find_cross_category_duplicates items = Ok result /\
    forall product_id pairs, (product_id, pairs) ∈ result ->
      exists k, k <> KNaN /\ pairs = pairs_with k (all_pairs items) /\
        (2 <= category_count pairs)%nat.
Proof.
  intros Hh. apply all_pairs_hashable in Hh.
  destruct (group_pairs_grouped _ [] [] Hh grouped_nil) as (groups & Hg & Inv).
  simpl in Inv. destruct Inv as [H1 H2 H3 H4 H5].
  unfold find_cross_category_duplicates. rewrite group_all_pairs, Hg. simpl.
  eexists. split; [done|].
  intros product_id pairs (g & [= -> ->] & [Hc Hin]%list_elem_of_filter)%list_elem_of_fmap.
  assert (group_key g <> KNaN) as Hn.
  { intros Hn. rewrite (category_count_one _ (H4 g Hin Hn)) in Hc. lia. }
  exists (group_key g). split; [done|]. split; [by apply H3|lia].
Qed.

Lemma id_key_same_key p q k :
  k <> KNaN -> id_key p = Some k -> id_key q = Some k -> same_key p q.
Proof.
  assert (forall r, id_key r = Some k -> dedup_key r = Ok k) as Hkey.
  { intros r. unfold id_key, dedup_key, get.
    destruct (r !! "id") as [v|]; simpl; [|done].
    destruct (truthy v); [|done]. by destruct (hash_key v); intros [= ->]. }
  intros Hn Hp%Hkey Hq%Hkey. by exists k.
Qed.

Lemma hashable_id_get (p : dict) : hashable_id p -> hashable_get_id p.
Proof.
  unfold hashable_id, hashable_get_id, get. intros H x l.
  specialize (H x l). by destruct (p !! "id").
Qed.

Lemma filter_none {A} (P : A -> Prop) `{forall x, Decision (P x)} (l : list A) :
  Forall (fun x => ~ P x) l -> filter P l = [].
Proof.
  induction 1 as [|x l Hx _ IH]; [done|]. by rewrite filter_cons, decide_False.
Qed.

(** A category in which no two products have the key [k] gives at most
    one pair to the group of [k]. *)
Lemma category_pairs (c : string) k (l : list dict) :
  (forall i j p q, (i < j)%nat -> l !! i = Some p -> l !! j = Some q ->
     id_key p = Some k -> id_key q <> Some k) ->
  (pairs_with k ((fun product => (c, product)) <$> l)).*1 = [] \/
  (pairs_with k ((fun product => (c, product)) <$> l)).*1 = [c].
Proof.
  induction l as [|p l IH]; intros Hl; [by left|].
  unfold pairs_with in *. rewrite fmap_cons, filter_cons. cbn [snd].
  destruct (decide (id_key p = Some k)) as [Hp|Hp].
  - right. rewrite filter_none; [done|].
    apply list.Forall_forall. intros [c' q] Hin.
    apply list_elem_of_fmap in Hin as (q' & [= -> ->] & Hq).
    apply list_elem_of_lookup in Hq as [j Hj]. simpl.
    apply (Hl 0%nat (S j) p q'); [lia|done..].
  - apply IH. intros i j p' q Hij Hi Hj. apply (Hl (S i) (S j)); [lia|done..].
Qed.

Lemma all_pairs_cons item items :
  all_pairs (item :: items) = ((fun product => (item.1, product)) <$> item.2) ++ all_pairs items.
Proof. reflexivity. Qed.

Lemma pairs_with_category k items cp :
  cp ∈ pairs_with k (all_pairs items) -> cp.1 ∈ items.*1.
Proof.
  intros [_ Hin]%list_elem_of_filter. unfold all_pairs in Hin.
  apply list_elem_of_bind in Hin as (item & Hcp & Hitem).
  apply list_elem_of_fmap in Hcp as (q & -> & _). simpl.
  by apply list_elem_of_fmap_2.
Qed.

(** Distinct categories in each of which no two products have the key
    [k] give the group of [k] one pair a category. *)
Lemma pairs_with_nodup k items :
  NoDup items.*1 ->
  Forall (fun item : string * list dict =>
            forall i j p q, (i < j)%nat -> item.2 !! i = Some p -> item.2 !! j = Some q ->
              id_key p = Some k -> id_key q <> Some k) items ->
  NoDup (pairs_with k (all_pairs items)).*1.
Proof.
  induction items as [|item items IH]; intros Hnd Hall; [constructor|].
  apply NoDup_cons in Hnd as [Hc Hnd]. inversion Hall as [|? ? Hitem Hrest]; subst.
  rewrite all_pairs_cons. unfold pairs_with. rewrite filter_app, fmap_app.
  apply NoDup_app. split; [|split].
  - destruct (category_pairs item.1 k item.2 Hitem) as [E|E]; unfold pairs_with in E;
      rewrite E; [constructor|apply NoDup_singleton].
  - intros c Hin Hin'.
    apply list_elem_of_fmap in Hin' as (cp & -> & Hcp).
    apply (pairs_with_category k items) in Hcp.
    destruct (category_pairs item.1 k item.2 Hitem) as [E|E]; unfold pairs_with in E;
      rewrite E in Hin; [by apply elem_of_nil in Hin|].
    apply list_elem_of_singleton in Hin. by rewrite Hin in Hcp.
  - by apply IH.
Qed.

(** X15.  When the categories have different names and the products of
    each are the [unique] list of a call of [remove_duplicates], as in
    the scraper's main loop, a product found in several categories is
    listed once for each: the pairs of a returned id have different
    categories, and there are at least two of them. *)
Theorem one_pair_per_category (items items' : list (string * list dict)) :
  NoDup items.*1 ->
  Forall2 (fun item item' : string * list dict =>
             item'.1 = item.1 /\
             exists duplicates st,
               remove_duplicates item.2 = Ok (item'.2, duplicates, st)) items items' ->
  exists result,
    find_cross_category_duplicates items' = Ok result /\
    forall product_id pairs, (product_id, pairs) ∈ result ->
      NoDup pairs.*1 /\ (2 <= length pairs)%nat /\
      category_count pairs = length pairs.
Proof.
  intros Hnd HF.
  assert (items'.*1 = items.*1) as Hnames.
  { clear Hnd. induction HF as [|item item' items items' [E _] _ IH]; [done|].
    cbn. by rewrite E, IH. }
  assert (Forall (fun item' : string * list dict =>
                    exists keys products, keys_of products = Ok keys /\
                      item'.2 = keep (classify [] keys) products) items') as Hkept.
  { clear Hnd Hnames. induction HF as [|item item' items items' [_ (d & st & Hr)] _ IH];
      constructor; [|done].
    assert (Forall hashable_id item.2) as Hh.
    { apply ProcessTheorems.remove_duplicates_returns. by eexists. }
    destruct (remove_duplicates_keys _ Hh) as (keys & Hk & _ & Hr').
    cbv zeta in Hr'. rewrite Hr in Hr'. injection Hr' as -> _. eauto. }
  destruct (cross_result_pairs items') as (result & Hres & Hpairs).
  { eapply Forall_impl; [exact Hkept|]. intros item' (keys & products & Hk & ->).
    apply list.Forall_forall. intros q Hq. apply hashable_id_get.
    pose proof (keys_of_keep (classify [] keys) _ _ Hk) as Hk'.
    clear -Hq Hk'. revert Hq Hk'. generalize (keep (classify [] keys) keys).
    generalize (keep (classify [] keys) products). intros l.
    induction l as [|p l IH]; intros ks Hq; [by apply elem_of_nil in Hq|]. simpl.
    destruct (dedup_key p) as [kp|] eqn:Hp; simpl; [|done].
    destruct (keys_of l) as [ks'|] eqn:Hl; simpl; [|done]. intros _.
    apply elem_of_cons in Hq as [->|Hq]; [by eapply dedup_key_returns_hashable|].
    by eapply IH. }
  exists result. split; [done|].
  intros product_id pairs Hin.
  destruct (Hpairs _ _ Hin) as (k & Hn & -> & Hc).
  assert (NoDup (pairs_with k (all_pairs items')).*1) as Hd.
  { apply pairs_with_nodup; [by rewrite Hnames|].
    eapply Forall_impl; [exact Hkept|]. intros item' (keys & products & Hk & ->).
    intros i j p q Hij Hp Hq Hkp Hkq.
    apply (kept_distinct _ _ Hk i j p q Hij Hp Hq). by eapply id_key_same_key. }
  assert (category_count (pairs_with k (all_pairs items'))
          = length (pairs_with k (all_pairs items'))) as Hlen.
  { unfold category_count. rewrite size_list_to_set by done. apply length_fmap. }
  split; [done|]. split; [lia|done].
Qed.

End CrossMore.

(* ===================================================================== *)
(** * The unit price and its rate                                          *)
(* ===================================================================== *)

Module UnitPrice.
Import Py ColesProductProcessor Notions TextFacts ProcessFacts ProcessTheorems ProcessMore.
Import PriceText.

Lemma append_nil_l b : "" +:+ b = b.
Proof. reflexivity. Qed.

Lemma append_cons x a b : String x a +:+ b = String x (a +:+ b).
Proof. reflexivity. Qed.

Lemma append_nil_r a : a +:+ "" = a.
Proof. induction a as [|x a IH]; [done|]. by rewrite append_cons, IH. Qed.

Lemma append_assoc a b c : (a +:+ b) +:+ c = a +:+ (b +:+ c).
Proof.
  induction a as [|x a IH]; [done|]. rewrite !append_cons. by rewrite IH.
Qed.

Lemma span_full_app p a b :
  span p a = (a, EmptyString) -> span p b = (b, EmptyString) ->
  span p (a +:+ b) = (a +:+ b, EmptyString).
Proof.
  induction a as [|x a IH]; [done|]. rewrite append_cons. simpl.
  destruct (p x); [|done]. destruct (span p a) as [a' r] eqn:E.
  intros [= -> ->] Hb. by rewrite (IH eq_refl Hb).
Qed.

Lemma contains_app c a b : contains c (a +:+ b) = contains c a || contains c b.
Proof.
  induction a as [|x a IH]; [done|]. rewrite append_cons. simpl. by rewrite IH, orb_assoc.
Qed.

Lemma split_first_app sep a b :
  contains sep a = false -> split_first sep (a +:+ String sep b) = a.
Proof.
  induction a as [|x a IH]; rewrite ?append_cons, ?append_nil_l; simpl.
  - by rewrite Ascii.eqb_refl.
  - intros [Hx Ha]%orb_false_iff. rewrite Ascii.eqb_sym, Hx. by rewrite IH.
Qed.

Lemma rstrip_app a b :
  rstrip (a +:+ b) =
  match rstrip b with
  | EmptyString => rstrip a
  | r => a +:+ r
  end.
Proof.
  induction a as [|x a IH]; rewrite ?append_cons, ?append_nil_l; simpl.
  - by destruct (rstrip b).
  - rewrite IH. destruct (rstrip b) as [|y r]; [done|]. by destruct a.
Qed.

Lemma word_not_space c : isword c = true -> isspace c = false.
Proof. destruct c as [[] [] [] [] [] [] [] []]; vm_compute; congruence. Qed.

Lemma word_not_bar c : isword c = true -> Ascii.eqb "|" c = false.
Proof. destruct c as [[] [] [] [] [] [] [] []]; vm_compute; congruence. Qed.

Lemma digit_not_bar c : isdigit c = true -> Ascii.eqb "|" c = false.
Proof. destruct c as [[] [] [] [] [] [] [] []]; vm_compute; congruence. Qed.

Lemma digit_ratechar c : isdigit c = true -> Re.isratechar c = true.
Proof. unfold Re.isratechar. by intros ->. Qed.

Lemma rstrip_word u : all_word u = true -> u <> EmptyString -> rstrip u = u.
Proof.
  induction u as [|c u IH]; [done|]. simpl.
  intros [Hc Hu]%andb_true_iff _. destruct u as [|c' u].
  - simpl. by rewrite (word_not_space _ Hc).
  - rewrite (IH Hu) by done. done.
Qed.

Lemma contains_bar_word u : all_word u = true -> contains "|" u = false.
Proof.
  induction u as [|c u IH]; [done|]. cbn [all_word contains].
  intros [Hc Hu]%andb_true_iff. by rewrite (word_not_bar _ Hc), IH.
Qed.

Lemma contains_bar_digits ds : all_digits ds = true -> contains "|" ds = false.
Proof.
  induction ds as [|c u IH]; [done|]. cbn [all_digits contains].
  intros [Hc Hu]%andb_true_iff. by rewrite (digit_not_bar _ Hc), IH.
Qed.

Lemma span_word u : all_word u = true -> span isword u = (u, EmptyString).
Proof.
  induction u as [|c u IH]; simpl; [done|].
  intros [Hc Hu]%andb_true_iff. by rewrite Hc, (IH Hu).
Qed.

Lemma span_ratechar_digits ds : all_digits ds = true -> span Re.isratechar ds = (ds, EmptyString).
Proof.
  induction ds as [|c u IH]; simpl; [done|].
  intros [Hc Hu]%andb_true_iff. by rewrite (digit_ratechar _ Hc), (IH Hu).
Qed.

Section Text.
Variables ip fp unit : string.
Hypothesis Hip : all_digits ip = true.
Hypothesis Hfp : all_digits fp = true.
Hypothesis Hfp' : fp <> EmptyString.
Hypothesis Hunit : all_word unit = true.
Hypothesis Hunit' : unit <> EmptyString.

Let text := unit_price_text ip fp unit.

Lemma text_no_bar : contains "|" text = false.
Proof.
  unfold text, unit_price_text. rewrite !contains_app.
  rewrite (contains_bar_digits _ Hip), (contains_bar_digits _ Hfp), (contains_bar_word _ Hunit).
  reflexivity.
Qed.

Lemma text_rstrip : rstrip text = text.
Proof.
  unfold text, unit_price_text. rewrite <- !append_assoc.
  rewrite rstrip_app, (rstrip_word _ Hunit Hunit'). by destruct unit.
Qed.

Lemma text_strip : strip text = text.
Proof. unfold strip. change (lstrip text) with text. apply text_rstrip. Qed.

Lemma text_strip_space : strip (text +:+ " ") = text.
Proof.
  unfold strip. change (lstrip (text +:+ " ")) with (text +:+ " ").
  rewrite rstrip_app. change (rstrip " ") with EmptyString. cbv iota. apply text_rstrip.
Qed.

(** The text, with or without what follows a bar, is cleaned to itself. *)
Lemma text_cleaned was :
  was = EmptyString \/ (exists w, was = " |" +:+ w) ->
  strip (split_first "|" (text +:+ was)) = text.
Proof.
  intros [->|[w ->]].
  - rewrite append_nil_r.
    rewrite split_first_none by apply text_no_bar. apply text_strip.
  - change (" |" +:+ w) with (" " +:+ String "|" w). rewrite <- append_assoc.
    rewrite split_first_app; [apply text_strip_space|].
    rewrite contains_app, text_no_bar. reflexivity.
Qed.

Lemma number_span :
  span Re.isratechar (ip +:+ "." +:+ fp) = (ip +:+ "." +:+ fp, EmptyString).
Proof.
  apply span_full_app; [by apply span_ratechar_digits|].
  change ("." +:+ fp) with (String "." fp). cbn [span].
  change (Re.isratechar ".") with true. cbv iota.
  by rewrite (span_ratechar_digits _ Hfp).
Qed.

(** The rate pattern finds the number and the unit. *)
Lemma text_rate : Re.search_rate text = Some (ip +:+ "." +:+ fp, unit).
Proof.
  unfold text, unit_price_text.
  change ("$" +:+ ?x) with (String "$" x). cbn [Re.search_rate].
  change (Ascii.eqb "$" "$") with true. cbv iota.
  assert (exists c u, unit = String c u /\ isspace c = false) as (c & u & Eu & Hc).
  { destruct unit as [|c u]; [done|]. exists c, u. split; [done|].
    simpl in Hunit. apply andb_true_iff in Hunit as [Hw _]. by apply word_not_space. }
  assert (Re.match_rate (ip +:+ "." +:+ fp +:+ " per " +:+ unit)
          = Some (ip +:+ "." +:+ fp, unit)) as ->; [|done].
  unfold Re.match_rate.
  replace (ip +:+ "." +:+ fp +:+ " per " +:+ unit)
    with ((ip +:+ "." +:+ fp) +:+ " per " +:+ unit) by (by rewrite !append_assoc).
  rewrite (span_app Re.isratechar (ip +:+ "." +:+ fp) (" per " +:+ unit) number_span)
    by reflexivity.
  change (" per " +:+ unit) with (String " " (String "p" (String "e" (String "r" (String " " unit))))).
  cbn [span]. change (isspace " ") with true. change (isspace "p") with false. cbv iota.
  rewrite Eu. cbn [span]. rewrite Hc. rewrite <- Eu.
  change (isspace " ") with true. cbv beta iota.
  rewrite (span_word _ Hunit).
  assert (nonempty (ip +:+ "." +:+ fp) = true) as ->.
  { apply nonempty_true. by destruct ip. }
  apply nonempty_true in Hunit' as ->. reflexivity.
Qed.

Lemma text_rate_value : float_of_decimal (ip +:+ "." +:+ fp) = Ok (decimal_value ip fp).
Proof. by apply float_of_decimal_fraction. Qed.

End Text.

(** What the unit price steps make of such a text. *)
Lemma unit_price_steps (p2 : dict) ip fp unit was :
  all_digits ip = true -> all_digits fp = true -> fp <> EmptyString ->
  all_word unit = true -> unit <> EmptyString ->
  was = EmptyString \/ (exists w, was = " |" +:+ w) ->
  p2 !! "unit_price" = Some (VStr (unit_price_text ip fp unit +:+ was)) ->
  exists p3 u,
    clean_unit_price p2 = Ok (p3, u) /\
    let p4 := extract_rate p3 u in
    p4 !! "unit_price" = Some (VStr (unit_price_text ip fp unit)) /\
    p4 !! "rate_value" = Some (VFloat (decimal_value ip fp)) /\
    p4 !! "rate_unit" = Some (VStr (lower unit)).
Proof.
  intros Hip Hfp Hfp' Hunit Hunit' Hwas Hp.
  pose proof (text_cleaned ip fp unit Hip Hfp Hunit Hunit' was Hwas) as Hclean.
  pose proof (text_rate ip fp unit Hip Hfp Hunit Hunit') as Hrate.
  pose proof (text_rate_value ip fp Hip Hfp Hfp') as Hval.
  set (text := unit_price_text ip fp unit) in *.
  assert (truthy (VStr (text +:+ was)) = true) as Ht by reflexivity.
  assert (truthy (VStr text) = true) as Ht' by reflexivity.
  unfold clean_unit_price, get. rewrite Hp. cbn [default from_option id].
  rewrite Ht, Hclean. eexists _, _. split; [reflexivity|]. cbv zeta.
  unfold extract_rate. rewrite Ht', Hrate, Hval.
  split; [|split].
  - rewrite !lookup_insert_ne by done. apply lookup_insert_eq.
  - rewrite lookup_insert_ne by done. apply lookup_insert_eq.
  - apply lookup_insert_eq.
Qed.

(** X16.  A unit price of the form [$<digits>.<digits> per <unit>],
    alone or followed by a bar and the earlier price, is cut at the bar
    and trimmed, and gives the rate: [rate_value] is the number, as a
    float, and [rate_unit] the unit, in lower case. *)
Theorem unit_price_gives_the_rate (clock : nat -> string)
    (products products' processed : list dict) :
  process_products clock products = Ok (products', processed) ->
  Forall2 (fun (ip : nat * dict) o =>
             forall n f unit was,
               all_digits n = true -> all_digits f = true -> f <> EmptyString ->
               all_word unit = true -> unit <> EmptyString ->
               was = EmptyString \/ (exists w, was = " |" +:+ w) ->
               ip.2 !! "unit_price" = Some (VStr (unit_price_text n f unit +:+ was)) ->
               o !! "unit_price" = Some (VStr (unit_price_text n f unit)) /\
               o !! "rate_value" = Some (VFloat (decimal_value n f)) /\
               o !! "rate_unit" = Some (VStr (lower unit)))
    (accepted 0 products) processed.
Proof.
  intros H. destruct (process_from_image _ _ _ _ _ H) as [HF _].
  eapply Forall2_impl; [exact HF|]. clear HF.
  intros [i p] o [p' Hc] n f unit was Hn Hf Hf' Hu Hu' Hwas Hp. simpl in *.
  apply canonicalize_trace in Hc
    as (p1 & p3 & u & p5 & raw & H1 & H3 & H5 & H6 & H7 & -> & F1 & F4 & F5 & F6).
  apply cleaned_cases in H7 as (t & Ht & Hraw).
  destruct (unit_price_steps (<["vendor" := VStr "coles"]> p1) n f unit was)
    as (p3' & u' & H3' & Hup & Hrv & Hru); try done.
  { rewrite lookup_insert_ne by done. rewrite (F1 "unit_price") by decided. done. }
  rewrite H3 in H3'. injection H3' as <- <-. cbv zeta in Hup, Hrv, Hru.
  pose proof (derive_save_value_frame _ _ H6) as G6.
  pose proof (parse_special_frame _ _ H5) as G5.
  assert (forall k v dflt, k ∉ ["save_value"] -> k ∉ ["is_on_special"; "special_text"] ->
            extract_rate p3 u !! k = Some v -> get p' k dflt = v) as Hget.
  { intros k v dflt Hk Hk' Hv. unfold get. by rewrite (G6 k), (G5 k), Hv. }
  split; [|split].
  - rewrite (lookup_processed raw "unit_price" (VStr (unit_price_text n f unit))); [done|].
    rewrite Hraw. change (_ !! "unit_price") with (Some (get p' "unit_price" (VStr ""))).
    f_equal. apply Hget; [decided|decided|done].
  - rewrite (lookup_processed raw "rate_value" (VFloat (decimal_value n f))); [done|].
    rewrite Hraw. change (_ !! "rate_value") with (Some (get p' "rate_value" (VFloat 0))).
    f_equal. apply Hget; [decided|decided|done].
  - rewrite (lookup_processed raw "rate_unit" (VStr (lower unit))); [done|].
    rewrite Hraw. change (_ !! "rate_unit") with (Some (get p' "rate_unit" (VStr ""))).
    f_equal. apply Hget; [decided|decided|done].
Qed.

End UnitPrice.

(* ===================================================================== *)
(** * The theorems at sample records                                      *)
(* ===================================================================== *)

Module Samples.
Import Py ColesProductProcessor Notions Examples.
Import DedupTheorems ProcessTheorems CrossTheorems SecondPassTheorems.

Lemma no_none_list (l : list (string * pyval)) :
  forallb (fun kv => negb (is_none kv.2)) l = true -> no_none (list_to_map l).
Proof.
  intros H k Hk. apply elem_of_list_to_map_2 in Hk.
  rewrite forallb_forall in H. apply list_elem_of_In in Hk. by specialize (H _ Hk).
Qed.

Lemma typed_milk : typed milk.
Proof. split; vm_compute; exact I. Defined.

Lemma typed_untitled : typed untitled.
Proof.
  split; try (vm_compute; exact I).
  exists 0%float. vm_compute. reflexivity.
Defined.

Lemma hashable_str (d : dict) s : d !! "id" = Some (VStr s) -> hashable_id d.
Proof. intros H x l. unfold get. rewrite H. discriminate. Defined.

Lemma hashable_get_str (d : dict) s : d !! "id" = Some (VStr s) -> hashable_get_id d.
Proof. intros H x l. unfold get. rewrite H. discriminate. Defined.


Lemma remove_duplicates_partition_witness :
  Forall hashable_id [tea; tea_again; milk_processed] /\
  exists unique duplicates st kept,
    remove_duplicates [tea; tea_again; milk_processed] = Ok (unique, duplicates, st) /\
    length kept = 3%nat /\
    unique = keep kept [tea; tea_again; milk_processed] /\
    duplicates = keep (negb <$> kept) [tea; tea_again; milk_processed] /\
    unique ++ duplicates ≡ₚ [tea; tea_again; milk_processed] /\
    (length unique + length duplicates)%nat = 3%nat.
Proof.
  assert (Forall hashable_id [tea; tea_again; milk_processed]) as H.
  { repeat (apply List.Forall_cons; [eapply hashable_str; vm_compute; reflexivity|]).
    apply List.Forall_nil. }
  split; [exact H|].
  exact (remove_duplicates_partition [tea; tea_again; milk_processed] H).
Defined.

Lemma remove_duplicates_first_wins_witness :
  exists st, remove_duplicates [tea; tea_again] = Ok ([tea], [tea_again], st).
Proof.
  refine (proj2 remove_duplicates_first_wins tea tea_again "123" _ _ _).
  - discriminate.
  - vm_compute. reflexivity.
  - vm_compute. reflexivity.
Defined.

Lemma pseudo_key_fallback_witness :
  (exists st, remove_duplicates [milk_at (VFloat 3.5); milk_at (VFloat 3.5)]
              = Ok ([milk_at (VFloat 3.5)], [milk_at (VFloat 3.5)], st)) /\
  (exists st, remove_duplicates [milk_at (VInt 3); milk_at (VInt 4)]
              = Ok ([milk_at (VInt 3); milk_at (VInt 4)], [], st)).
Proof.
  split.
  - refine (proj1 (proj2 (pseudo_key_fallback (milk_at (VFloat 3.5)) (milk_at (VFloat 3.5))
                            _ _ _)) _); vm_compute; reflexivity.
  - pose proof (pseudo_key_fallback (milk_at (VInt 3)) (milk_at (VInt 4))) as H.
    refine (proj1 (proj2 (proj2 (proj2 (H _ _ _)))) _); try (vm_compute; reflexivity).
    vm_compute. discriminate.
Defined.

Lemma save_value_rule_witness :
  process_one (clock0 0%nat) milk = Ok (milk_after, Some milk_processed) /\
  exists due,
    save_due milk = Ok due /\
    (due = true <->
       eq_zero (get milk "save_value" (VFloat 0)) = true /\
       gt_zero (get milk "was_price_value" (VFloat 0)) = Ok true /\
       gt_zero (get milk "price_value" (VFloat 0)) = Ok true) /\
    (due = true ->
       exists d v, sub (get milk "was_price_value" (VFloat 0))
                       (get milk "price_value" (VFloat 0)) = Ok d /\
         round2 d = Ok v /\
         milk_after !! "save_value" = Some v /\ milk_processed !! "save_value" = Some v) /\
    (due = false ->
       milk_after !! "save_value" = milk !! "save_value" /\
       milk_processed !! "save_value" =
         if is_none (get milk "save_value" (VFloat 0)) then None
         else Some (get milk "save_value" (VFloat 0))).
Proof.
  assert (process_one (clock0 0%nat) milk = Ok (milk_after, Some milk_processed)) as H
    by compute_eq.
  split; [exact H|].
  exact (save_value_rule (clock0 0%nat) milk milk_after milk_processed H).
Defined.

Lemma process_products_image_witness :
  Forall typed [untitled; milk] /\ returns (process_products clock0 [untitled; milk]).
Proof.
  assert (Forall typed [untitled; milk]) as H.
  { apply List.Forall_cons; [apply typed_untitled|].
    apply List.Forall_cons; [apply typed_milk|apply List.Forall_nil]. }
  split; [exact H|].
  exact (proj1 (process_products_image clock0 [untitled; milk]) H).
Defined.

Lemma cross_category_duplicates_witness :
  Forall (fun item : string * list dict => Forall hashable_get_id item.2) shelves /\
  find_cross_category_duplicates shelves
    = Ok [ (VStr "999", [ ("bakery", bun); ("dairy", bun) ]) ] /\
  exists result,
    find_cross_category_duplicates shelves = Ok result /\
    (forall product_id pairs, (product_id, pairs) ∈ result ->
       truthy product_id = true /\
       exists k, hash_key product_id = Ok k /\ k <> KNaN /\
         pairs = pairs_with k (all_pairs shelves) /\
         in_two_categories pairs) /\
    (forall k, k <> KNaN ->
       in_two_categories (pairs_with k (all_pairs shelves)) ->
       exists product_id, hash_key product_id = Ok k /\
         (product_id, pairs_with k (all_pairs shelves)) ∈ result) /\
    (forall product_id pairs category, (product_id, pairs) ∈ result ->
       ~ Forall (fun cp : string * dict => cp.1 = category) pairs) /\
    (forall i j e e' k, result !! i = Some e -> result !! j = Some e' ->
       hash_key e.1 = Ok k -> hash_key e'.1 = Ok k -> i = j).
Proof.
  assert (Forall (fun item : string * list dict => Forall hashable_get_id item.2) shelves)
    as H.
  { repeat (apply List.Forall_cons;
              [repeat (apply List.Forall_cons;
                         [eapply hashable_get_str; vm_compute; reflexivity|]);
               apply List.Forall_nil|]).
    apply List.Forall_nil. }
  split; [exact H|]. split; [compute_eq|].
  exact (cross_category_duplicates shelves H).
Defined.

Lemma settled_milk : settled milk.
Proof.
  split.
  - apply no_none_list. vm_compute. reflexivity.
  - intros t [= <-]. vm_compute. discriminate.
  - intros s [= <-] Hs. by destruct Hs.
Defined.

Lemma second_pass_identity_witness :
  process_products clock0 [milk] = Ok ([milk_after], [milk_processed]) /\
  Forall (fun p => rejected p = false -> settled p) [milk] /\
  process_products clock0 [milk_processed] = Ok ([milk_processed], [milk_processed]).
Proof.
  assert (process_products clock0 [milk] = Ok ([milk_after], [milk_processed])) as H
    by compute_eq.
  assert (Forall (fun p => rejected p = false -> settled p) [milk]) as Hs.
  { apply List.Forall_cons; [intros _; apply settled_milk|apply List.Forall_nil]. }
  split; [exact H|]. split; [exact Hs|].
  exact (second_pass_identity clock0 clock0 [milk] [milk_after] [milk_processed] H Hs).
Defined.

(** A second pass is not the identity on every output: the special text
    of [bread] is one space, the first pass trims it and sets
    [is_on_special], and the second pass, finding it empty, clears
    [is_on_special]. *)
Lemma second_pass_clears_special :
  process_products clock0 [bread] = Ok ([bread_after], [bread_processed true]) /\
  process_products clock0 [bread_processed true]
    = Ok ([bread_processed false], [bread_processed false]) /\
  bread_processed true !! "is_on_special" = Some (VBool true) /\
  bread_processed false !! "is_on_special" = Some (VBool false).
Proof. repeat split; compute_eq. Qed.

(** Two records with empty ids and one title whose price values differ,
    the one an int and the other a str, read the same under [str()]: the
    second is a duplicate. *)
Lemma pseudo_key_ignores_type :
  VInt 1 <> VStr "1" /\
  exists st, remove_duplicates [milk_at (VInt 1); milk_at (VStr "1")]
             = Ok ([milk_at (VInt 1)], [milk_at (VStr "1")], st).
Proof.
  split; [discriminate|].
  exists {| total_before := 2; total_after := 1; duplicates_removed := 1 |}. compute_eq.
Qed.

End Samples.

(* ===================================================================== *)
(** * The further theorems at sample records                              *)
(* ===================================================================== *)

Module MoreSamples.
Import Py ColesProductProcessor Notions Examples.
Import DedupMore ProcessMore PriceText Report CrossMore UnitPrice.

Lemma hashable_text (d : dict) s : d !! "id" = Some (VStr s) -> hashable_id d.
Proof. intros H x l. unfold get. rewrite H. discriminate. Defined.

Lemma hashable_teas : Forall hashable_id [tea; tea_again; milk_processed].
Proof.
  repeat (apply List.Forall_cons; [eapply hashable_text; vm_compute; reflexivity|]).
  apply List.Forall_nil.
Defined.

Lemma remove_duplicates_stats_witness :
  Forall hashable_id [tea; tea_again; milk_processed] /\
  exists unique duplicates st,
    remove_duplicates [tea; tea_again; milk_processed] = Ok (unique, duplicates, st) /\
    total_before st = 3 /\
    total_after st = Z.of_nat (length unique) /\
    duplicates_removed st = Z.of_nat (length duplicates) /\
    total_before st = total_after st + duplicates_removed st.
Proof.
  split; [exact hashable_teas|].
  exact (remove_duplicates_stats [tea; tea_again; milk_processed] hashable_teas).
Defined.

Lemma remove_duplicates_keeps_order_witness :
  Forall hashable_id [tea; tea_again; milk_processed] /\
  exists unique duplicates st,
    remove_duplicates [tea; tea_again; milk_processed] = Ok (unique, duplicates, st) /\
    sublist unique [tea; tea_again; milk_processed] /\
    sublist duplicates [tea; tea_again; milk_processed].
Proof.
  split; [exact hashable_teas|].
  exact (remove_duplicates_keeps_order [tea; tea_again; milk_processed] hashable_teas).
Defined.

Lemma unique_has_distinct_keys_witness :
  Forall hashable_id [tea; tea_again; milk_processed] /\
  exists unique duplicates st,
    remove_duplicates [tea; tea_again; milk_processed] = Ok (unique, duplicates, st) /\
    forall i j p q, (i < j)%nat -> unique !! i = Some p -> unique !! j = Some q ->
      ~ same_key p q.
Proof.
  split; [exact hashable_teas|].
  exact (unique_has_distinct_keys [tea; tea_again; milk_processed] hashable_teas).
Defined.

Lemma remove_duplicates_idempotent_witness :
  Forall hashable_id [tea; tea_again; milk_processed] /\
  exists unique duplicates st st',
    remove_duplicates [tea; tea_again; milk_processed] = Ok (unique, duplicates, st) /\
    remove_duplicates unique = Ok (unique, [], st') /\
    duplicates_removed st' = 0.
Proof.
  split; [exact hashable_teas|].
  exact (remove_duplicates_idempotent [tea; tea_again; milk_processed] hashable_teas).
Defined.

Lemma duplicates_are_represented_witness :
  Forall hashable_id [tea; tea_again; milk_processed] /\
  exists unique duplicates st,
    remove_duplicates [tea; tea_again; milk_processed] = Ok (unique, duplicates, st) /\
    forall q, q ∈ duplicates ->
      exists i j p, (i < j)%nat /\ [tea; tea_again; milk_processed] !! i = Some p /\
        [tea; tea_again; milk_processed] !! j = Some q /\ p ∈ unique /\ same_key p q.
Proof.
  split; [exact hashable_teas|].
  exact (duplicates_are_represented [tea; tea_again; milk_processed] hashable_teas).
Defined.

Lemma numeric_prices_tell_apart_witness :
  (exists st, remove_duplicates [milk_at (VFloat 3.5); milk_at (VFloat 3.6)]
              = Ok ([milk_at (VFloat 3.5); milk_at (VFloat 3.6)], [], st)) /\
  (exists st, remove_duplicates [milk_at (VInt 1); milk_at (VFloat 1)]
              = Ok ([milk_at (VInt 1); milk_at (VFloat 1)], [], st)).
Proof.
  split.
  - refine (proj2 (numeric_prices_tell_apart (milk_at (VFloat 3.5)) (milk_at (VFloat 3.6))
                     _ _ _ _ _) _); try (vm_compute; reflexivity).
    vm_compute. intros [= H].
  - refine (proj2 (numeric_prices_tell_apart (milk_at (VInt 1)) (milk_at (VFloat 1))
                     _ _ _ _ _) _); try (vm_compute; reflexivity);
      try (vm_compute; exact I).
    vm_compute. discriminate.
Defined.

Lemma milk_pass :
  process_products clock0 [milk; untitled] = Ok ([milk_after; untitled], [milk_processed]).
Proof. compute_eq. Defined.

Lemma processed_product_shape_witness :
  process_products clock0 [milk; untitled] = Ok ([milk_after; untitled], [milk_processed]) /\
  Forall2 (fun (ip : nat * dict) o =>
             (forall k, is_Some (o !! k) -> k ∈ field_names) /\
             no_none o /\
             o !! "vendor" = Some (VStr "coles") /\
             o !! "is_on_special"
               = Some (VBool (truthy (get ip.2 "special_text" (VStr "")))) /\
             exists t, ip.2 !! "title" = Some (VStr t) /\
               o !! "title" = Some (VStr (strip t)) /\
               strip (strip t) = strip t)
    (accepted 0 [milk; untitled]) [milk_processed].
Proof.
  split; [exact milk_pass|].
  exact (processed_product_shape clock0 _ _ _ milk_pass).
Defined.

Lemma untouched_fields_pass_through_witness :
  process_products clock0 [milk; untitled] = Ok ([milk_after; untitled], [milk_processed]) /\
  Forall2 (fun (ip : nat * dict) o =>
             o !! "price_value" = kept_value (get ip.2 "price_value" (VFloat 0)) /\
             o !! "was_price_value" = kept_value (get ip.2 "was_price_value" (VFloat 0)) /\
             o !! "url" = kept_value (get ip.2 "url" (VStr "")) /\
             o !! "image_url" = kept_value (get ip.2 "image_url" (VStr "")) /\
             o !! "category" = kept_value (get ip.2 "category" (VStr "")) /\
             o !! "page" = kept_value (get ip.2 "page" (VInt 0)) /\
             o !! "scrapedAt" = kept_value (get ip.2 "scrapedAt" (VStr (clock0 ip.1))))
    (accepted 0 [milk; untitled]) [milk_processed].
Proof.
  split; [exact milk_pass|].
  exact (untouched_fields_pass_through clock0 _ _ _ milk_pass).
Defined.

Lemma records_are_updated_in_place_witness :
  process_products clock0 [milk; untitled] = Ok ([milk_after; untitled], [milk_processed]) /\
  Forall2 (fun p p' =>
             if rejected p then p' = p
             else same_but written_keys p p' /\
                  p' !! "vendor" = Some (VStr "coles") /\
                  p' !! "is_on_special"
                    = Some (VBool (truthy (get p "special_text" (VStr "")))))
    [milk; untitled] [milk_after; untitled].
Proof.
  split; [exact milk_pass|].
  exact (records_are_updated_in_place clock0 _ _ _ milk_pass).
Defined.

Lemma id_is_read_off_the_url_witness :
  process_products clock0 [milk; untitled] = Ok ([milk_after; untitled], [milk_processed]) /\
  Forall2 (fun (ip : nat * dict) o =>
             (truthy (get ip.2 "id" VNone) = true -> o !! "id" = ip.2 !! "id") /\
             (truthy (get ip.2 "id" VNone) = false ->
              forall p ds, ip.2 !! "url" = Some (VStr (p +:+ String "-" ds)) ->
                ds <> EmptyString -> all_digits ds = true ->
                o !! "id" = Some (VStr ds)))
    (accepted 0 [milk; untitled]) [milk_processed].
Proof.
  split; [exact milk_pass|].
  exact (id_is_read_off_the_url clock0 _ _ _ milk_pass).
Defined.

Lemma extract_price_value_first_number_witness :
  extract_price_value (VStr "Was $3.50 each") = Ok (decimal_value "3" "50") /\
  extract_price_value (VStr "$12 for 2") = Ok (decimal_value "12" "").
Proof.
  split.
  - refine (proj1 (extract_price_value_first_number "Was $3.50 each" "Was " "3" ".50 each"
                     _ _ _ _ _) "50" " each" _ _ _ _);
      try reflexivity; discriminate.
  - refine (proj2 (extract_price_value_first_number "$12 for 2" "" "12" " for 2"
                     _ _ _ _ _) _); try reflexivity; discriminate.
Defined.

Lemma report_agrees_with_remove_duplicates_witness :
  Forall hashable_id [tea; tea_again; milk_processed] /\
  exists unique duplicates st,
    remove_duplicates [tea; tea_again; milk_processed] = Ok (unique, duplicates, st) /\
    let lines := report_lines (Some st) "2024-05-01 09:30:00" duplicates (VStr "dairy") in
    lines !! 3%nat = Some ("Total products before removal: " +:+ str_of_Z 3) /\
    lines !! 4%nat = Some ("Unique products after removal: "
                            +:+ str_of_Z (Z.of_nat (length unique))) /\
    lines !! 5%nat = Some ("Duplicates removed: "
                            +:+ str_of_Z (Z.of_nat (length duplicates))) /\
    forall i product, duplicates !! i = Some product ->
      entry_head (S i) product ∈ lines.
Proof.
  split; [exact hashable_teas|].
  exact (report_agrees_with_remove_duplicates [tea; tea_again; milk_processed]
           "2024-05-01 09:30:00" (VStr "dairy") hashable_teas).
Defined.

Lemma one_pair_per_category_witness :
  exists result,
    find_cross_category_duplicates [ ("bakery", [bun; roll]); ("dairy", [bun]) ]
      = Ok result /\
    forall product_id pairs, (product_id, pairs) ∈ result ->
      NoDup pairs.*1 /\ (2 <= length pairs)%nat /\
      category_count pairs = length pairs.
Proof.
  refine (one_pair_per_category shelves [ ("bakery", [bun; roll]); ("dairy", [bun]) ] _ _).
  - decided.
  - constructor; [split; [reflexivity|]|constructor; [split; [reflexivity|]|constructor]].
    + exists [roll], {| total_before := 3; total_after := 2; duplicates_removed := 1 |}.
      compute_eq.
    + exists [], {| total_before := 1; total_after := 1; duplicates_removed := 0 |}.
      compute_eq.
Defined.

Lemma unit_price_gives_the_rate_witness :
  process_products clock0 [milk; untitled] = Ok ([milk_after; untitled], [milk_processed]) /\
  Forall2 (fun (ip : nat * dict) o =>
             forall n f unit was,
               all_digits n = true -> all_digits f = true -> f <> EmptyString ->
               all_word unit = true -> unit <> EmptyString ->
               was = EmptyString \/ (exists w, was = " |" +:+ w) ->
               ip.2 !! "unit_price" = Some (VStr (unit_price_text n f unit +:+ was)) ->
               o !! "unit_price" = Some (VStr (unit_price_text n f unit)) /\
               o !! "rate_value" = Some (VFloat (decimal_value n f)) /\
               o !! "rate_unit" = Some (VStr (lower unit)))
    (accepted 0 [milk; untitled]) [milk_processed].
Proof.
  split; [exact milk_pass|].
  exact (unit_price_gives_the_rate clock0 _ _ _ milk_pass).
Defined.

End MoreSamples.
